(** * InQuiz backend: the interview turn controller

    A shallow embedding of [app/ai_service.py] (class [ConversationManager]),
    [app/voice_service.py] (class [VoiceInterviewManager]) and of the voice
    routes of [app/routes.py], with the properties of the turn controller
    proved over it.

    Text is a [string] whose characters are code points below 256; the
    gateway, the clock and the document store are inputs of every call
    (record [World]). The table of the manager is keyed by the id string of
    the request, the collection by [ObjectId] of it. *)

From stdpp Require Import gmap strings list.
From Stdlib Require Import Ascii String ZArith Lia Sorted DecimalString.

Local Open Scope string_scope.

(** ** Python string primitives *)

Module Py.

(** [str.isspace] on one character, for code points below 256. *)
Definition isspace (c : ascii) : bool :=
  let n := N_of_ascii c in
  ((9 <=? n) && (n <=? 13) || (28 <=? n) && (n <=? 32)
   || (n =? 133) || (n =? 160))%N.

(** [str.lower] on one character, for code points below 256. *)
Definition lower_char (c : ascii) : ascii :=
  let n := N_of_ascii c in
  if ((65 <=? n) && (n <=? 90)
      || (192 <=? n) && (n <=? 222) && negb (n =? 215))%N
  then ascii_of_N (n + 32) else c.

Fixpoint lower (s : string) : string :=
  match s with
  | EmptyString => EmptyString
  | String c s' => String (lower_char c) (lower s')
  end.

(** [s.split()]: the maximal runs of non-whitespace characters. *)
Fixpoint split (s : string) : list string :=
  match s with
  | EmptyString => []
  | String c s' =>
      if isspace c then split s'
      else match s' with
           | EmptyString => [String c EmptyString]
           | String c' _ =>
               if isspace c' then String c EmptyString :: split s'
               else match split s' with
                    | w :: ws => String c w :: ws
                    | [] => [String c EmptyString]
                    end
           end
  end.

Fixpoint lstrip (s : string) : string :=
  match s with
  | EmptyString => EmptyString
  | String c s' => if isspace c then lstrip s' else s
  end.

Fixpoint rstrip (s : string) : string :=
  match s with
  | EmptyString => EmptyString
  | String c s' =>
      match rstrip s' with
      | EmptyString => if isspace c then EmptyString else String c EmptyString
      | r => String c r
      end
  end.

(** [s.strip()] *)
Definition strip (s : string) : string := rstrip (lstrip s).

(** [needle in hay] on strings. *)
Fixpoint contains (needle hay : string) : bool :=
  String.prefix needle hay
  || match hay with
     | EmptyString => false
     | String _ hay' => contains needle hay'
     end.

(** [any(phrase in text for phrase in phrases)] *)
Definition any_in (phrases : list string) (text : string) : bool :=
  existsb (fun phrase => contains phrase text) phrases.

(** Truthiness of a string: [not s] holds of the empty string only. *)
Definition falsy (s : string) : bool :=
  match s with EmptyString => true | _ => false end.

Definition all_space (s : string) : Prop :=
  forall c, In c (list_ascii_of_string s) -> isspace c = true.

End Py.

(** ** [ai_service.py]: the conversation manager *)

(** The dictionary returned by [process_user_input]. A key that a branch
    does not set is [None]. *)
Record ConversationResult := {
  action : string;
  response : string;
  continue_listening : bool;
  needs_follow_up : bool;
  response_quality : option string;
  follow_up_text : option string;
  feedback : option string;
  quality_score : option Z;
  accuracy_score : option Z
}.

(** The non-empty object that [_parse_json_response] returns; each field is
    the value under that key, [None] when the key is absent. *)
Record Judgment := {
  j_action : option string;
  j_response_quality : option string;
  j_completeness_score : option Z;
  j_accuracy_score : option Z;
  j_needs_follow_up : option bool;
  j_ai_response : option string;
  j_follow_up_question : option string;
  j_feedback : option string;
  j_next_action : option string
}.

(** What the text generation gateway gives during one call. [None] stands
    for a raised exception; for [answer_judgment] also for text in which
    [_parse_json_response] finds no object, or an empty one. *)
Record Gateway := {
  clarify_text : option string;
  example_text : option string;
  answer_judgment : option Judgment
}.

Definition gateway_down : Gateway :=
  {| clarify_text := None; example_text := None; answer_judgment := None |}.

Module ConversationManager.

Definition repeat_phrases : list string :=
  ["repeat"; "again"; "say that again"; "repeat question";
   "what was the question"; "can you repeat"].

Definition clarify_phrases : list string :=
  ["clarify"; "explain"; "what do you mean"; "unclear"; "confused";
   "don't understand"; "rephrase"].

Definition skip_phrases : list string :=
  ["skip"; "next question"; "pass"; "i don't know"; "no idea"; "not sure"].

Definition pace_phrases : list string :=
  ["slow down"; "too fast"; "speak slower"].

Definition example_phrases : list string :=
  ["example"; "give me an example"; "for instance"; "what do you mean by"].

Definition wrong_indicators : list string :=
  ["i dont know"; "no idea"; "not sure"; "maybe"; "i think"; "probably"].

Definition meta_result (act resp : string) : ConversationResult :=
  {| action := act; response := resp; continue_listening := true;
     needs_follow_up := false; response_quality := None;
     follow_up_text := None; feedback := None;
     quality_score := None; accuracy_score := None |}.

Definition _clarify_question (g : Gateway) (question : string) : string :=
  match clarify_text g with
  | Some text => Py.strip text
  | None =>
      "Let me clarify that question for you. " ++ question ++
      " - I'm looking for your personal experience, thoughts, or approach to this topic. Take your time and share what comes to mind."
  end.

Definition _provide_example (g : Gateway) (question : string) : string :=
  match example_text g with
  | Some text => Py.strip text
  | None =>
      "For example, if I were answering this question, I might talk about a specific situation, the actions I took, and the outcome. Now, I'd like to hear about your own experience with this topic."
  end.

Definition _fallback_intelligent_analysis (user_input current_question : string)
  : ConversationResult :=
  let word_count := List.length (Py.split user_input) in
  let has_uncertainty := Py.any_in wrong_indicators (Py.lower user_input) in
  if (word_count <? 5)%nat || has_uncertainty then
    {| action := "provide_feedback";
       response := "I can see you're uncertain about this. Let me help clarify the concept and give you another chance to think about it. This is a common area that many candidates find challenging.";
       continue_listening := true; needs_follow_up := true;
       response_quality := Some "poor";
       follow_up_text := None; feedback := None;
       quality_score := None; accuracy_score := None |}
  else if (word_count <? 15)%nat then
    {| action := "encourage_more";
       response := "That's a good start! I can see you understand some aspects. Could you elaborate more and perhaps give me a specific example or walk me through your thought process?";
       continue_listening := true; needs_follow_up := true;
       response_quality := Some "fair";
       follow_up_text := None; feedback := None;
       quality_score := None; accuracy_score := None |}
  else
    {| action := "continue";
       response := "Thank you for that comprehensive answer. I can see you have good knowledge in this area and you've explained your thinking clearly.";
       continue_listening := false; needs_follow_up := false;
       response_quality := Some "good";
       follow_up_text := None; feedback := None;
       quality_score := None; accuracy_score := None |}.

Definition _analyze_answer_intelligently (g : Gateway)
    (user_input current_question : string) : ConversationResult :=
  match answer_judgment g with
  | None => _fallback_intelligent_analysis user_input current_question
  | Some result =>
      {| action := default "continue" (j_action result);
         response := default "Thank you for that response." (j_ai_response result);
         follow_up_text := Some (default "" (j_follow_up_question result));
         feedback := Some (default "" (j_feedback result));
         needs_follow_up := default false (j_needs_follow_up result);
         quality_score := Some (default 7%Z (j_completeness_score result));
         accuracy_score := Some (default 7%Z (j_accuracy_score result));
         continue_listening :=
           bool_decide (default "move_to_next_question" (j_next_action result)
                        = "continue_listening");
         response_quality := Some (default "fair" (j_response_quality result)) |}
  end.

Definition process_user_input (g : Gateway) (user_input current_question : string)
  : ConversationResult :=
  let user_input_lower := Py.strip (Py.lower user_input) in
  if Py.any_in repeat_phrases user_input_lower then
    meta_result "repeat_question"
      ("Of course! Let me repeat the question: " ++ current_question)
  else if Py.any_in clarify_phrases user_input_lower then
    meta_result "clarify_question" (_clarify_question g current_question)
  else if Py.any_in skip_phrases user_input_lower then
    meta_result "skip_question"
      "I understand. That's perfectly fine. Let me give you a moment to think, or we can move on to the next question. What would you prefer?"
  else if Py.any_in pace_phrases user_input_lower then
    meta_result "adjust_pace"
      ("I'll speak more slowly. Let me repeat the question at a comfortable pace: "
       ++ current_question)
  else if Py.any_in example_phrases user_input_lower then
    meta_result "provide_example" (_provide_example g current_question)
  else if (List.length (Py.split user_input) <? 3)%nat then
    {| action := "encourage_elaboration";
       response := "I'd love to hear more about that. Could you elaborate and give me more details about your thoughts or experience?";
       continue_listening := true; needs_follow_up := true;
       response_quality := None;
       follow_up_text := None; feedback := None;
       quality_score := None; accuracy_score := None |}
  else _analyze_answer_intelligently g user_input current_question.

End ConversationManager.

(** ** Data model of [voice_service.py] and of the document store *)

Record Question := {
  q_id : string;
  question_text : string;
  question_type : string;
  difficulty : string;
  expected_answer_points : list string;
  follow_up_questions : list string
}.

Inductive EventType :=
| Ev_ai_question | Ev_user_response | Ev_ai_response | Ev_ai_repeat
| Ev_ai_clarification | Ev_ai_transition | Ev_ai_completion.

Record Event := {
  ev_type : EventType;
  ev_text : string;
  ev_timestamp : Z;
  ev_question_id : option string
}.

(** The values of the ["status"] key: the in-memory entry uses [active] and
    [completed], the stored document the other four. *)
Inductive Status := pending | ready | in_progress | completed | active.

#[global] Instance Status_eq_dec : EqDecision Status.
Proof. solve_decision. Defined.

(** One value of [active_interviews]. *)
Record InterviewData := {
  current_question_index : nat;
  questions : list Question;
  conversation : list Event;
  status : Status;
  follow_up_count : nat;
  current_question_attempts : nat
}.

(** The payload of [response_analyzer.analyze_response], kept as its text. *)
Definition Analysis := string.

Record ResponseRecord := {
  r_question_id : string;
  r_question_text : string;
  r_user_response : string;
  r_response_time : Z;
  r_analysis : Analysis;
  r_conversation_quality : string;
  r_timestamp : Z
}.

(** One document of [db.interviews]. *)
Record InterviewDoc := {
  doc_questions : list Question;
  doc_responses : list ResponseRecord;
  doc_status : Status;
  doc_conversation : option (list Event);
  doc_started_at : option Z;
  doc_completed_at : option Z
}.

(** The process-wide table of the manager, keyed by the id string of the
    request, and the collection, keyed by ObjectId (see [ObjectId] below). *)
Record System := {
  active_interviews : gmap string InterviewData;
  db : gmap string InterviewDoc
}.

Inductive Exc :=
| HTTPExc (status_code : nat) (detail : string)
| StoreExc.

(** What one call reads from outside: the gateway, the clock, the analyzer,
    whether each kind of store operation succeeds ([false]: it raises), and
    how [str(e)] renders an exception. The clock readings of one call
    (event timestamps, started_at, completed_at) are taken as the single
    integer [now]. *)
Record World := {
  gateway : Gateway;
  now : Z;
  analysis : Analysis;
  find_ok : bool;
  push_ok : bool;
  set_ok : bool;
  exc_str : Exc -> string
}.

(** The dictionary returned by a processed turn; ["conversation"] is the
    list object of the entry itself, so it shows the events appended up to
    the end of the turn. *)
Record ResponseData := {
  rd_conversation : list Event;
  rd_ai_response : string;
  rd_continue_same_question : option bool;
  rd_has_follow_up : option bool;
  rd_follow_up_question : option string;
  rd_next_question : option Question;
  rd_question_index : option nat;
  rd_transition_message : option string;
  rd_interview_completed : option bool;
  rd_completion_message : option string
}.

Inductive TurnResult :=
| TurnError (error : string)
| TurnOk (response_data : ResponseData).

Record StartResult := {
  sr_message : string;
  sr_current_question : Question;
  sr_question_index : nat;
  sr_total_questions : nat
}.

(** *** Field updates *)

Definition set_index (n : nat) (d : InterviewData) : InterviewData :=
  {| current_question_index := n; questions := questions d;
     conversation := conversation d; status := status d;
     follow_up_count := follow_up_count d;
     current_question_attempts := current_question_attempts d |}.

Definition set_follow_up_count (n : nat) (d : InterviewData) : InterviewData :=
  {| current_question_index := current_question_index d;
     questions := questions d; conversation := conversation d;
     status := status d; follow_up_count := n;
     current_question_attempts := current_question_attempts d |}.

Definition set_status (st : Status) (d : InterviewData) : InterviewData :=
  {| current_question_index := current_question_index d;
     questions := questions d; conversation := conversation d;
     status := st; follow_up_count := follow_up_count d;
     current_question_attempts := current_question_attempts d |}.

Definition append_event (e : Event) (d : InterviewData) : InterviewData :=
  {| current_question_index := current_question_index d;
     questions := questions d; conversation := conversation d ++ [e];
     status := status d; follow_up_count := follow_up_count d;
     current_question_attempts := current_question_attempts d |}.

Definition with_follow_up (hf : bool) (text : option string) (same : option bool)
    (rd : ResponseData) : ResponseData :=
  {| rd_conversation := rd_conversation rd;
     rd_ai_response := rd_ai_response rd;
     rd_continue_same_question :=
       match same with Some b => Some b | None => rd_continue_same_question rd end;
     rd_has_follow_up := Some hf;
     rd_follow_up_question :=
       match text with Some t => Some t | None => rd_follow_up_question rd end;
     rd_next_question := rd_next_question rd;
     rd_question_index := rd_question_index rd;
     rd_transition_message := rd_transition_message rd;
     rd_interview_completed := rd_interview_completed rd;
     rd_completion_message := rd_completion_message rd |}.

Definition with_next (q : Question) (i : nat) (msg : string)
    (rd : ResponseData) : ResponseData :=
  {| rd_conversation := rd_conversation rd;
     rd_ai_response := rd_ai_response rd;
     rd_continue_same_question := rd_continue_same_question rd;
     rd_has_follow_up := Some false;
     rd_follow_up_question := rd_follow_up_question rd;
     rd_next_question := Some q;
     rd_question_index := Some i;
     rd_transition_message := Some msg;
     rd_interview_completed := rd_interview_completed rd;
     rd_completion_message := rd_completion_message rd |}.

Definition with_completion (msg : string) (rd : ResponseData) : ResponseData :=
  {| rd_conversation := rd_conversation rd;
     rd_ai_response := rd_ai_response rd;
     rd_continue_same_question := rd_continue_same_question rd;
     rd_has_follow_up := rd_has_follow_up rd;
     rd_follow_up_question := rd_follow_up_question rd;
     rd_next_question := rd_next_question rd;
     rd_question_index := rd_question_index rd;
     rd_transition_message := rd_transition_message rd;
     rd_interview_completed := Some true;
     rd_completion_message := Some msg |}.

Definition with_conversation (c : list Event) (rd : ResponseData) : ResponseData :=
  {| rd_conversation := c;
     rd_ai_response := rd_ai_response rd;
     rd_continue_same_question := rd_continue_same_question rd;
     rd_has_follow_up := rd_has_follow_up rd;
     rd_follow_up_question := rd_follow_up_question rd;
     rd_next_question := rd_next_question rd;
     rd_question_index := rd_question_index rd;
     rd_transition_message := rd_transition_message rd;
     rd_interview_completed := rd_interview_completed rd;
     rd_completion_message := rd_completion_message rd |}.

(** In-place mutation of the entry [active_interviews[interview_id]]: the
    updated record is stored back under the same key. *)
Definition store_entry (interview_id : string) (d : InterviewData) (s : System)
  : System :=
  {| active_interviews := <[interview_id := d]> (active_interviews s);
     db := db s |}.

(** *** The collection [db.interviews] *)

Definition is_hex (c : ascii) : bool :=
  let n := N_of_ascii c in
  ((48 <=? n) && (n <=? 57) || (65 <=? n) && (n <=? 70)
   || (97 <=? n) && (n <=? 102))%N.

(** The whitespace that [bytes.fromhex] skips. *)
Definition is_ascii_space (c : ascii) : bool :=
  let n := N_of_ascii c in ((9 <=? n) && (n <=? 13) || (n =? 32))%N.

(** [bytes.fromhex]: pairs of hexadecimal digits in either case, with ASCII
    whitespace skipped before a pair; [None] stands for ValueError. The
    bytes read are kept as their lower-case digits. *)
Fixpoint fromhex (s : string) : option string :=
  match s with
  | EmptyString => Some EmptyString
  | String c s' =>
      if is_ascii_space c then fromhex s'
      else match s' with
           | String c' s'' =>
               if is_hex c && is_hex c'
               then String (Py.lower_char c) <$>
                      (String (Py.lower_char c') <$> fromhex s'')
               else None
           | EmptyString => None
           end
  end.

(** [ObjectId(interview_id)] accepts a string of 24 characters that
    [bytes.fromhex] reads and raises on every other string. *)
Definition ObjectId_valid (interview_id : string) : bool :=
  (String.length interview_id =? 24)%nat
  && match fromhex interview_id with Some _ => true | None => false end.

(** The value of [ObjectId(interview_id)]: the bytes read. Two strings that
    spell the same bytes, such as one id in upper and in lower case, are the
    same ObjectId. Documents are stored under their ObjectId, while the
    table of the manager is keyed by the string as it was given. *)
Definition ObjectId (interview_id : string) : string :=
  default EmptyString (fromhex interview_id).

Definition push_response (r : ResponseRecord) (doc : InterviewDoc) : InterviewDoc :=
  {| doc_questions := doc_questions doc;
     doc_responses := doc_responses doc ++ [r];
     doc_status := doc_status doc;
     doc_conversation := doc_conversation doc;
     doc_started_at := doc_started_at doc;
     doc_completed_at := doc_completed_at doc |}.

(** [$set] of status, conversation and completed_at (teardown). *)
Definition set_completed (conv : option (list Event)) (t : Z) (doc : InterviewDoc)
  : InterviewDoc :=
  {| doc_questions := doc_questions doc;
     doc_responses := doc_responses doc;
     doc_status := completed;
     doc_conversation :=
       match conv with Some c => Some c | None => doc_conversation doc end;
     doc_started_at := doc_started_at doc;
     doc_completed_at := Some t |}.

(** [$set] of status in_progress and started_at. *)
Definition set_in_progress (t : Z) (doc : InterviewDoc) : InterviewDoc :=
  {| doc_questions := doc_questions doc;
     doc_responses := doc_responses doc;
     doc_status := in_progress;
     doc_conversation := doc_conversation doc;
     doc_started_at := Some t;
     doc_completed_at := doc_completed_at doc |}.

(** [update_one({"_id": ObjectId(interview_id)}, ...)]: the document with
    that ObjectId is rewritten, a missing one leaves the collection as it is
    (matched_count 0). *)
Definition update_one (interview_id : string) (f : InterviewDoc -> InterviewDoc)
    (s : System) : System :=
  {| active_interviews := active_interviews s;
     db := alter f (ObjectId interview_id) (db s) |}.

(** ** [voice_service.py]: the interview manager *)

Module VoiceInterviewManager.

Definition in_list (a : string) (l : list string) : bool :=
  existsb (String.eqb a) l.

Definition meta_actions : list string :=
  ["repeat_question"; "clarify_question"; "provide_example"; "adjust_pace"].

Definition encourage_actions : list string :=
  ["encourage_elaboration"; "encourage_more"; "follow_up"].

Definition transition_message : string :=
  "Great! Now let's move on to the next question.".

Definition completion_message : string :=
  "Excellent! You've completed all the questions in your interview. You provided thoughtful responses and demonstrated your skills well. Thank you for your time, and you'll receive detailed feedback shortly.".

Definition event (ty : EventType) (text : string) (w : World)
    (qid : option string) : Event :=
  {| ev_type := ty; ev_text := text; ev_timestamp := now w;
     ev_question_id := qid |}.

Definition start_voice_interview (w : World) (interview_id : string) (s : System)
  : System * option StartResult :=
  if ObjectId_valid interview_id && find_ok w then
    match db s !! ObjectId interview_id with
    | None => (s, None)
    | Some interview =>
        let entry :=
          {| current_question_index := 0;
             questions := doc_questions interview;
             conversation := [];
             status := active;
             follow_up_count := 0;
             current_question_attempts := 0 |} in
        let s1 := store_entry interview_id entry s in
        match doc_questions interview with
        | [] => (s1, None) (* IndexError on questions[0], caught *)
        | first_question :: _ =>
            let entry1 :=
              append_event
                (event Ev_ai_question (question_text first_question) w
                   (Some (q_id first_question))) entry in
            (store_entry interview_id entry1 s1,
             Some {| sr_message := "Voice interview started";
                     sr_current_question := first_question;
                     sr_question_index := 0;
                     sr_total_questions := List.length (doc_questions interview) |})
        end
    end
  else (s, None).

Definition complete_interview (w : World) (interview_id : string) (s : System)
  : System * bool :=
  match active_interviews s !! interview_id with
  | Some entry =>
      if ObjectId_valid interview_id && set_ok w then
        ({| active_interviews := delete interview_id (active_interviews s);
            db := alter (set_completed (Some (conversation entry)) (now w))
                    (ObjectId interview_id) (db s) |}, true)
      else (s, false)
  | None => (s, false)
  end.

Definition _save_response_analysis (w : World) (interview_id : string)
    (current_question : Question) (user_response : string) (response_time : Z)
    (conversation_result : ConversationResult) (s : System) : System :=
  if ObjectId_valid interview_id && push_ok w then
    update_one interview_id
      (push_response
         {| r_question_id := q_id current_question;
            r_question_text := question_text current_question;
            r_user_response := user_response;
            r_response_time := response_time;
            r_analysis := analysis w;
            r_conversation_quality :=
              default "fair" (response_quality conversation_result);
            r_timestamp := now w |}) s
  else s.

(** [questions !! i] is [Some] exactly when [i < len(questions)]. *)
Definition _move_to_next_question (w : World) (interview_id : string)
    (interview_data : InterviewData) (response_data : ResponseData) (s : System)
  : InterviewData * ResponseData * System :=
  let d1 :=
    set_follow_up_count 0
      (set_index (current_question_index interview_data + 1) interview_data) in
  let next_index := current_question_index d1 in
  match questions d1 !! next_index with
  | Some next_question =>
      let d2 := append_event (event Ev_ai_transition transition_message w None) d1 in
      let d3 :=
        append_event
          (event Ev_ai_question (question_text next_question) w
             (Some (q_id next_question))) d2 in
      (d3, with_next next_question next_index transition_message response_data,
       store_entry interview_id d3 s)
  | None =>
      let d2 := set_status completed d1 in
      let d3 := append_event (event Ev_ai_completion completion_message w None) d2 in
      (d3, with_completion completion_message response_data,
       fst (complete_interview w interview_id (store_entry interview_id d3 s)))
  end.

(** The body of [process_voice_response] once the entry and the current
    question are found; it also returns the entry object as the turn leaves
    it, which teardown may already have removed from the table. *)
Definition process_turn (w : World) (interview_id user_response : string)
    (response_time : Z) (interview_data : InterviewData)
    (current_question : Question) (s : System)
  : InterviewData * ResponseData * System :=
  let qid := Some (q_id current_question) in
  let d1 := append_event (event Ev_user_response user_response w qid) interview_data in
  let conversation_result :=
    ConversationManager.process_user_input (gateway w) user_response
      (question_text current_question) in
  let act := action conversation_result in
  let reply := response conversation_result in
  let response_data :=
    {| rd_conversation := conversation d1;
       rd_ai_response := reply;
       rd_continue_same_question := None;
       rd_has_follow_up := None;
       rd_follow_up_question := None;
       rd_next_question := None;
       rd_question_index := None;
       rd_transition_message := None;
       rd_interview_completed := None;
       rd_completion_message := None |} in
  let d2 :=
    if negb (in_list act meta_actions)
    then append_event (event Ev_ai_response reply w qid) d1 else d1 in
  if in_list act meta_actions then
    let message_type :=
      if String.eqb act "repeat_question" then Ev_ai_repeat
      else Ev_ai_clarification in
    let d3 := append_event (event message_type reply w qid) d2 in
    (d3, with_follow_up true (Some reply) (Some true) response_data,
     store_entry interview_id d3 s)
  else if in_list act encourage_actions && continue_listening conversation_result then
    let d3 := set_follow_up_count (follow_up_count d2 + 1) d2 in
    let rd1 := with_follow_up true (Some reply) None response_data in
    if (2 <=? follow_up_count d3)%nat
    then _move_to_next_question w interview_id d3 rd1 s
    else (d3, rd1, store_entry interview_id d3 s)
  else if String.eqb act "skip_question" then
    _move_to_next_question w interview_id d2 response_data s
  else if in_list act ["continue"; "move_next"]
          || negb (continue_listening conversation_result) then
    let s1 :=
      _save_response_analysis w interview_id current_question user_response
        response_time conversation_result s in
    _move_to_next_question w interview_id d2 response_data s1
  else
    (d2, with_follow_up true (Some reply) None response_data,
     store_entry interview_id d2 s).

Definition process_voice_response (w : World) (interview_id user_response : string)
    (response_time : Z) (s : System) : System * TurnResult :=
  match active_interviews s !! interview_id with
  | None => (s, TurnError "Interview not found or not active")
  | Some interview_data =>
      match questions interview_data !! current_question_index interview_data with
      | None => (s, TurnError "No more questions available")
      | Some current_question =>
          let '(d, response_data, s') :=
            process_turn w interview_id user_response response_time
              interview_data current_question s in
          (s', TurnOk (with_conversation (conversation d) response_data))
      end
  end.

Definition get_conversation (w : World) (interview_id : string) (s : System)
  : list Event :=
  match active_interviews s !! interview_id with
  | Some entry => conversation entry
  | None =>
      if ObjectId_valid interview_id && find_ok w then
        match db s !! ObjectId interview_id with
        | Some interview => default [] (doc_conversation interview)
        | None => []
        end
      else []
  end.

End VoiceInterviewManager.

(** ** [routes.py]: the voice and completion routes *)

(** A value read from the JSON body of a request, as far as the routes tell
    values apart: a string, or anything else (a number, a list, null, ...)
    with the text of the exception that using it as a string raises. A key
    that is absent has the default of the route, the empty string. *)
Inductive BodyValue :=
| Text (s : string)
| NotText (error : string).

Coercion Text : string >-> BodyValue.

Inductive Http (A : Type) :=
| JSONResponse (content : A)
| HTTPException (status_code : nat) (detail : string).
Arguments JSONResponse {A} content.
Arguments HTTPException {A} status_code detail.

Module Routes.

(** A handler whose [try] ends in [except Exception as e: raise
    HTTPException(500, str(e))] with no [except HTTPException: raise] before
    it turns its own 404 into this answer. *)
Definition wrapped {A : Type} (w : World) (e : Exc) : Http A :=
  HTTPException 500 (exc_str w e).

Definition start_interview (w : World) (interview_id : string) (s : System)
  : System * Http string :=
  if ObjectId_valid interview_id && set_ok w then
    match db s !! ObjectId interview_id with
    | Some _ =>
        (update_one interview_id (set_in_progress (now w)) s,
         JSONResponse "Interview started")
    | None => (s, wrapped w (HTTPExc 404 "Interview not found"))
    end
  else (s, wrapped w StoreExc).

Definition complete_interview (w : World) (interview_id : string) (s : System)
  : System * Http string :=
  if ObjectId_valid interview_id && set_ok w then
    match db s !! ObjectId interview_id with
    | Some _ =>
        (update_one interview_id (set_completed None (now w)) s,
         JSONResponse "Interview completed")
    | None => (s, wrapped w (HTTPExc 404 "Interview not found"))
    end
  else (s, wrapped w StoreExc).

Definition start_voice_interview (w : World) (interview_id : string) (s : System)
  : System * Http StartResult :=
  match VoiceInterviewManager.start_voice_interview w interview_id s with
  | (s1, None) => (s1, wrapped w (HTTPExc 404 "Interview not found"))
  | (s1, Some result) =>
      if ObjectId_valid interview_id && set_ok w then
        (update_one interview_id (set_in_progress (now w)) s1, JSONResponse result)
      else (s1, wrapped w StoreExc)
  end.

(** [response] is [response_data.get("response", "")] and [response_time]
    is [response_data.get("response_time", 0)]. A response that is not a
    string raises when it is sliced or stripped, and the [except Exception]
    of the route answers 500 with the text of that exception. The response
    time is passed on to the stored record without being read; it is kept
    as an integer. *)
Definition process_voice_response (w : World) (interview_id : string)
    (response : BodyValue) (response_time : Z) (s : System)
  : System * Http ResponseData :=
  match response with
  | NotText error => (s, HTTPException 500 error)
  | Text user_response =>
      if Py.falsy (Py.strip user_response)
      then (s, HTTPException 400 "Empty response")
      else
        match VoiceInterviewManager.process_voice_response w interview_id
                user_response response_time s with
        | (s1, TurnError error) => (s1, HTTPException 400 error)
        | (s1, TurnOk result) => (s1, JSONResponse result)
        end
  end.

Definition get_conversation (w : World) (interview_id : string) (s : System)
  : Http (list Event) :=
  JSONResponse (VoiceInterviewManager.get_conversation w interview_id s).

Definition complete_voice_interview (w : World) (interview_id : string) (s : System)
  : System * Http string :=
  match VoiceInterviewManager.complete_interview w interview_id s with
  | (s1, true) => (s1, JSONResponse "Voice interview completed successfully")
  | (s1, false) => (s1, wrapped w (HTTPExc 404 "Interview not found"))
  end.

End Routes.

(** ** Requests and reachable states

    The requests that reach the interview manager or write the status of a
    stored session. The remaining routes do not touch the table of active
    interviews; of them only [submit_response] writes to a stored session,
    appending a response without going through the manager. *)

Inductive Request :=
| ReqStart (interview_id : string)
| ReqComplete (interview_id : string)
| ReqStartVoice (interview_id : string)
| ReqVoiceResponse (interview_id : string) (response : BodyValue)
    (response_time : Z)
| ReqCompleteVoice (interview_id : string).

Definition handle (w : World) (r : Request) (s : System) : System :=
  match r with
  | ReqStart i => fst (Routes.start_interview w i s)
  | ReqComplete i => fst (Routes.complete_interview w i s)
  | ReqStartVoice i => fst (Routes.start_voice_interview w i s)
  | ReqVoiceResponse i u t => fst (Routes.process_voice_response w i u t s)
  | ReqCompleteVoice i => fst (Routes.complete_voice_interview w i s)
  end.

(** The states of a process that starts with an empty table over any
    collection and then serves requests one at a time. *)
Inductive reachable : System -> Prop :=
| reach_boot (db0 : gmap string InterviewDoc) :
    reachable {| active_interviews := ∅; db := db0 |}
| reach_handle (w : World) (r : Request) (s : System) :
    reachable s -> reachable (handle w r s).

Fixpoint run (trace : list (World * Request)) (s : System) : System :=
  match trace with
  | [] => s
  | (w, r) :: rest => run rest (handle w r s)
  end.

(** * Vocabulary of the properties *)

Section Vocabulary.
Import ConversationManager VoiceInterviewManager.

(** ** Resolved results and dispatch branches *)

(** The three fields of a result that the controller and the record read. *)
Definition verdict (r : ConversationResult) : string * option string * bool :=
  (action r, response_quality r, continue_listening r).

(** The utterance, lowercased, contains one of the six uncertainty markers. *)
Definition uncertain (user_input : string) : Prop :=
  Exists (fun marker => Py.contains marker (Py.lower user_input) = true)
    ["i dont know"; "no idea"; "not sure"; "maybe"; "i think"; "probably"].

(** The sample utterance of the specification. *)
Definition unsure_utterance : string := "I don't know, maybe not sure".

(** The branch of the dispatch that a resolved result selects, in the order
    of the [if]/[elif] chain. *)
Inductive Branch := BMeta | BEncourage | BSkip | BFinish | BOther.

Definition branch (r : ConversationResult) : Branch :=
  if in_list (action r) meta_actions then BMeta
  else if in_list (action r) encourage_actions && continue_listening r then BEncourage
  else if String.eqb (action r) "skip_question" then BSkip
  else if in_list (action r) ["continue"; "move_next"] || negb (continue_listening r)
  then BFinish
  else BOther.

(** The result that a turn resolves for an utterance on a question. *)
Definition resolved (w : World) (user_response : string) (q : Question)
  : ConversationResult :=
  ConversationManager.process_user_input (gateway w) user_response (question_text q).

(** Whether the turn calls [_move_to_next_question]. *)
Definition advances (w : World) (user_response : string) (d : InterviewData)
    (q : Question) : bool :=
  match branch (resolved w user_response q) with
  | BMeta | BOther => false
  | BEncourage => (2 <=? follow_up_count d + 1)%nat
  | BSkip | BFinish => true
  end.

(** The store as [_move_to_next_question] finds it: after the record of the
    finishing branch is saved, and untouched on every other branch. *)
Definition store_before_move (w : World) (interview_id user_response : string)
    (response_time : Z) (q : Question) (s : System) : System :=
  match branch (resolved w user_response q) with
  | BFinish =>
      _save_response_analysis w interview_id q user_response response_time
        (resolved w user_response q) s
  | _ => s
  end.

(** ** Well-formed entries *)

(** What holds of every entry of the table between requests. *)
Definition entry_ok (interview_id : string) (d : InterviewData) : Prop :=
  current_question_index d <= List.length (questions d)
  /\ follow_up_count d <= 1
  /\ (status d = completed ->
      current_question_index d = List.length (questions d))
  /\ ObjectId_valid interview_id = true.

Definition table_ok (s : System) : Prop :=
  map_Forall entry_ok (active_interviews s).

(** ** A sample session

    A stored session of two questions, the collection that holds only it,
    and the same session once its voice interview is started. *)

Definition sample_id : string := "507f1f77bcf86cd799439011".

Definition hash_question : Question :=
  {| q_id := "technical_0";
     question_text := "What is a hash table?";
     question_type := "technical"; difficulty := "entry";
     expected_answer_points := ["Buckets"; "Collisions"];
     follow_up_questions := [] |}.

Definition team_question : Question :=
  {| q_id := "behavioral_0";
     question_text := "Tell me about a time you worked in a team";
     question_type := "behavioral"; difficulty := "entry";
     expected_answer_points := ["Situation"; "Task"; "Action"; "Result"];
     follow_up_questions := ["What would you do differently next time?"] |}.

Definition sample_doc : InterviewDoc :=
  {| doc_questions := [hash_question; team_question];
     doc_responses := [];
     doc_status := ready;
     doc_conversation := None;
     doc_started_at := None;
     doc_completed_at := None |}.

(** A call at clock reading [t] with the gateway down and the store up. *)
Definition calm (t : Z) : World :=
  {| gateway := gateway_down; now := t; analysis := "{}";
     find_ok := true; push_ok := true; set_ok := true;
     exc_str := fun e =>
       match e with HTTPExc _ detail => detail | StoreExc => "store error" end |}.

Definition boot : System :=
  {| active_interviews := ∅; db := {[ sample_id := sample_doc ]} |}.

Definition started : System := handle (calm 1) (ReqStartVoice sample_id) boot.

Definition started_entry : InterviewData :=
  {| current_question_index := 0;
     questions := [hash_question; team_question];
     conversation :=
       [{| ev_type := Ev_ai_question; ev_text := "What is a hash table?";
           ev_timestamp := 1; ev_question_id := Some "technical_0" |}];
     status := active;
     follow_up_count := 0;
     current_question_attempts := 0 |}.

(** A stored session without questions. *)
Definition empty_doc : InterviewDoc :=
  {| doc_questions := []; doc_responses := []; doc_status := ready;
     doc_conversation := None; doc_started_at := None;
     doc_completed_at := None |}.

Definition empty_boot : System :=
  {| active_interviews := ∅; db := {[ sample_id := empty_doc ]} |}.

(** ** Completion marks of stored sessions *)

Definition stamped (doc : InterviewDoc) : Prop :=
  doc_status doc = completed -> is_Some (doc_completed_at doc).

(** Every stored session whose status is completed has completed_at set. *)
Definition completed_are_stamped (s : System) : Prop :=
  forall k doc, db s !! k = Some doc -> stamped doc.

(** The two-way reading: completed_at is set exactly when the status is
    completed. *)
Definition stamped_iff_completed (s : System) : Prop :=
  forall k doc, db s !! k = Some doc ->
    (is_Some (doc_completed_at doc) <-> doc_status doc = completed).

(** ** Stalling *)

(** The ten action names that the dispatch of a turn tests for. *)
Definition all_actions : list string :=
  ["repeat_question"; "clarify_question"; "provide_example"; "adjust_pace";
   "encourage_elaboration"; "encourage_more"; "follow_up";
   "skip_question"; "continue"; "move_next"].

(** The session after [n] more requests to repeat the question. *)
Definition stalled (n : nat) : System :=
  run (replicate n (calm 2, ReqVoiceResponse sample_id "can you repeat that?" 5))
    started.

(** ** The log of saved records *)

(** The responses stored for a session, when the session is stored. *)
Definition responses_of (s : System) (interview_id : string)
  : option (list ResponseRecord) :=
  doc_responses <$> db s !! ObjectId interview_id.

(** The record that the finishing branch pushes. *)
Definition record_of (w : World) (q : Question) (u : string) (t : Z)
  : ResponseRecord :=
  {| r_question_id := q_id q;
     r_question_text := question_text q;
     r_user_response := u;
     r_response_time := t;
     r_analysis := analysis w;
     r_conversation_quality := default "fair" (response_quality (resolved w u q));
     r_timestamp := now w |}.

(** The question index for which a request appends a record to the
    responses of [interview_id], with that record, if it appends one. *)
Definition saved (w : World) (r : Request) (interview_id : string)
    (s : System) : option (nat * ResponseRecord) :=
  match r with
  | ReqVoiceResponse i (Text u) t =>
      if bool_decide (i = interview_id) && negb (Py.falsy (Py.strip u))
      then
        match active_interviews s !! interview_id with
        | Some d =>
            match questions d !! current_question_index d with
            | Some q =>
                match branch (resolved w u q) with
                | BFinish =>
                    if ObjectId_valid interview_id && push_ok w
                    then Some (current_question_index d, record_of w q u t)
                    else None
                | _ => None
                end
            | None => None
            end
        | None => None
        end
      else None
  | _ => None
  end.


(** The record that a request appends to the responses of the document with
    ObjectId [k], with the question index it is saved at: the request is a
    turn of a session whose id has that ObjectId. *)
Definition pushed (w : World) (r : Request) (k : string) (s : System)
  : option (nat * ResponseRecord) :=
  match r with
  | ReqVoiceResponse i _ _ =>
      if bool_decide (ObjectId i = k) then saved w r i s else None
  | _ => None
  end.





(** Stored responses with [new] appended. *)
Definition grow (new : list ResponseRecord)
    (old : option (list ResponseRecord)) : option (list ResponseRecord) :=
  (fun l => (l ++ new)%list) <$> old.


(** The sample answer of the specification: long and free of markers. *)
Definition long_answer : string :=
  "Paris is the capital of France and I used it daily in my last internship role with clear ownership".


(** The sample id in upper case: another key of the table, the same
    ObjectId. *)
Definition upper_id : string := "507F1F77BCF86CD799439011".


End Vocabulary.

(** * Vocabulary of the further properties *)

Section TurnShape.
Import VoiceInterviewManager.

(** The type of the AI event that a turn appends after the utterance. *)
Definition reply_type (r : ConversationResult) : EventType :=
  if in_list (action r) meta_actions then
    if String.eqb (action r) "repeat_question" then Ev_ai_repeat
    else Ev_ai_clarification
  else Ev_ai_response.

(** The events that [_move_to_next_question] appends for an entry [d]. *)
Definition advance_events (w : World) (d : InterviewData) : list Event :=
  match questions d !! (current_question_index d + 1) with
  | Some next_question =>
      [event Ev_ai_transition transition_message w None;
       event Ev_ai_question (question_text next_question) w
         (Some (q_id next_question))]
  | None => [event Ev_ai_completion completion_message w None]
  end.

(** The events of one turn, in order. *)
Definition turn_events (w : World) (u : string) (d : InterviewData)
    (q : Question) : list Event :=
  [event Ev_user_response u w (Some (q_id q));
   event (reply_type (resolved w u q)) (response (resolved w u q)) w
     (Some (q_id q))]
  ++ (if advances w u d q then advance_events w d else []).

(** The entry as a turn leaves it. *)
Definition entry_after (w : World) (u : string) (d : InterviewData)
    (q : Question) : InterviewData :=
  {| current_question_index :=
       if advances w u d q then current_question_index d + 1
       else current_question_index d;
     questions := questions d;
     conversation := conversation d ++ turn_events w u d q;
     status :=
       if advances w u d q then
         match questions d !! (current_question_index d + 1) with
         | Some _ => status d
         | None => completed
         end
       else status d;
     follow_up_count :=
       if advances w u d q then 0
       else match branch (resolved w u q) with
            | BEncourage => follow_up_count d + 1
            | _ => follow_up_count d
            end;
     current_question_attempts := current_question_attempts d |}.

(** The session that a request names. *)
Definition request_id (r : Request) : string :=
  match r with
  | ReqStart i | ReqComplete i | ReqStartVoice i | ReqCompleteVoice i => i
  | ReqVoiceResponse i _ _ => i
  end.

End TurnShape.

Section StoredSessions.

(** The questions stored for a session, when the session is stored. *)
Definition questions_of (s : System) (interview_id : string)
  : option (list Question) :=
  doc_questions <$> db s !! ObjectId interview_id.

(** Every active entry belongs to a stored session, carries that session's
    questions, and has its attempts field at 0. *)
Definition entries_stored (s : System) : Prop :=
  forall i d,
    active_interviews s !! i = Some d ->
    questions_of s i = Some (questions d) /\ current_question_attempts d = 0.


End StoredSessions.

Section MoreSamples.

(** A collection of two stored sessions. *)
Definition other_id : string := "507f191e810c19729de860ea".

Definition two_sessions : System :=
  {| active_interviews := ∅;
     db := {[ sample_id := sample_doc; other_id := sample_doc ]} |}.

(** The sample session after its first question is skipped: the session is
    on its last question. *)
Definition on_last : System :=
  handle (calm 2) (ReqVoiceResponse sample_id "skip" 5) started.

Definition on_last_entry : InterviewData :=
  (VoiceInterviewManager.process_turn (calm 2) sample_id "skip" 5 started_entry
     hash_question started).1.1.

End MoreSamples.

Section Classifier.
Import ConversationManager.

(** One of the five phrase lists of [process_user_input] matches. *)
Definition phrase_match (user_input : string) : bool :=
  let t := Py.strip (Py.lower user_input) in
  Py.any_in repeat_phrases t || Py.any_in clarify_phrases t
  || Py.any_in skip_phrases t || Py.any_in pace_phrases t
  || Py.any_in example_phrases t.

End Classifier.

(** * [ai_service.py]: the response analyzer *)

Module ResponseAnalyzer.

(** The dictionary built by [_fallback_analysis]. *)
Record FallbackAnalysis := {
  completeness_score : Z;
  accuracy_score : Z;
  clarity_score : Z;
  relevance_score : Z;
  depth_score : Z;
  missing_points : list string;
  strengths : list string;
  areas_for_improvement : list string;
  overall_feedback : string;
  follow_up_needed : bool;
  suggested_follow_up : string
}.

Definition _fallback_analysis (user_response : string) : FallbackAnalysis :=
  let response_length := List.length (Py.split user_response) in
  let '(completeness, clarity, depth) :=
    if (response_length <? 10)%nat then (3, 4, 2)%Z
    else if (response_length <? 30)%nat then (6, 7, 5)%Z
    else if (response_length <? 60)%nat then (8, 8, 7)%Z
    else (9, 8, 8)%Z in
  {| completeness_score := completeness;
     accuracy_score := 7;
     clarity_score := clarity;
     relevance_score := 7;
     depth_score := depth;
     missing_points := [];
     strengths := ["Provided thoughtful response"; "Good communication"];
     areas_for_improvement :=
       if (response_length <? 30)%nat
       then ["Could provide more specific examples"] else [];
     overall_feedback :=
       if (response_length <? 30)%nat
       then "Good response with room for more detail"
       else "Comprehensive and well-structured response";
     follow_up_needed := (response_length <? 20)%nat;
     suggested_follow_up :=
       if (response_length <? 20)%nat
       then "Could you elaborate on that with a specific example?" else "" |}.

(** What the gateway gives to [analyze_response]: an exception, or text in
    which [_parse_analysis_response] finds an object of type [J] or none. *)
Inductive Reply (J : Type) :=
| Raises
| Text (parsed : option J).
Arguments Raises {J}.
Arguments Text {J} parsed.

(** The analysis returned: the gateway's object as it is, or a fallback. *)
Inductive Analysis (J : Type) :=
| FromGateway (j : J)
| FromFallback (a : FallbackAnalysis).
Arguments FromGateway {J} j.
Arguments FromFallback {J} a.

Definition _parse_analysis_response {J : Type} (parsed : option J) : Analysis J :=
  match parsed with
  | Some j => FromGateway j
  | None => FromFallback (_fallback_analysis "")
  end.

Definition analyze_response {J : Type} (reply : Reply J)
    (question user_response : string) (expected_points : list string)
  : Analysis J :=
  match reply with
  | Raises => FromFallback (_fallback_analysis user_response)
  | Text parsed => _parse_analysis_response parsed
  end.

End ResponseAnalyzer.

(** * [routes.py]: reading a question, and the resume field extractors *)

Module MoreRoutes.

(** [l[i]] for a Python list and an integer that may be negative; [None]
    stands for IndexError. *)
Definition py_index {A : Type} (l : list A) (i : Z) : option A :=
  if (0 <=? i)%Z then l !! Z.to_nat i
  else if (- Z.of_nat (List.length l) <=? i)%Z
       then l !! Z.to_nat (Z.of_nat (List.length l) + i)
       else None.

(** The two answers of [get_current_question]. *)
Inductive QuestionAnswer :=
| NoMoreQuestions
| CurrentQuestion (question : Question) (question_number : Z)
    (total_questions : nat) (is_last : bool).

Definition get_current_question (w : World) (interview_id : string)
    (question_index : Z) (s : System) : Http QuestionAnswer :=
  if ObjectId_valid interview_id && find_ok w then
    match db s !! ObjectId interview_id with
    | None => Routes.wrapped w (HTTPExc 404 "Interview not found")
    | Some interview =>
        let questions := doc_questions interview in
        if (Z.of_nat (List.length questions) <=? question_index)%Z
        then JSONResponse NoMoreQuestions
        else
          match py_index questions question_index with
          | Some current_question =>
              JSONResponse
                (CurrentQuestion current_question (question_index + 1)
                   (List.length questions)
                   (question_index =? Z.of_nat (List.length questions) - 1)%Z)
          | None => HTTPException 500 "list index out of range"
          end
    end
  else Routes.wrapped w StoreExc.

(** [text.split('\n')] *)
Fixpoint split_lines (text : string) : list string :=
  match text with
  | EmptyString => [EmptyString]
  | String c rest =>
      if Ascii.eqb c "010"%char then EmptyString :: split_lines rest
      else match split_lines rest with
           | line :: lines => String c line :: lines
           | [] => [String c EmptyString]
           end
  end.

Definition experience_keywords : list string :=
  ["worked"; "developed"; "managed"; "led"; "created"; "designed";
   "implemented"; "built"; "maintained"; "deployed"].

Definition education_words : list string :=
  ["university"; "college"; "school"; "education"].

Definition edu_keywords : list string :=
  ["university"; "college"; "degree"; "bachelor"; "master"; "phd"; "diploma";
   "certification"; "institute"].

(** The test that [extract_experience] makes on a stripped line. *)
Definition is_experience (line_clean : string) : bool :=
  (30 <? String.length line_clean)%nat
  && Py.any_in experience_keywords (Py.lower line_clean)
  && negb (Py.any_in education_words (Py.lower line_clean)).

Definition extract_experience (text : string) : list string :=
  take 5 (filter (fun line => is_experience line = true)
            (Py.strip <$> split_lines text)).

(** The test that [extract_education] makes on a stripped line. *)
Definition is_education (line_clean : string) : bool :=
  (15 <? String.length line_clean)%nat
  && Py.any_in edu_keywords (Py.lower line_clean).

Definition extract_education (text : string) : list string :=
  take 3 (filter (fun line => is_education line = true)
            (Py.strip <$> split_lines text)).

End MoreRoutes.

(** * [routes.py]: the skill extractor *)

Module Skills.

Definition is_ascii_lower (c : ascii) : bool :=
  let n := N_of_ascii c in ((97 <=? n) && (n <=? 122))%N.

Definition is_ascii_upper (c : ascii) : bool :=
  let n := N_of_ascii c in ((65 <=? n) && (n <=? 90))%N.

(** [str.title] on ASCII text, the only text it is applied to here (the
    skill names below): a letter that follows no letter is made upper case,
    a letter that follows a letter lower case. *)
Fixpoint title_from (previous_is_cased : bool) (s : string) : string :=
  match s with
  | EmptyString => EmptyString
  | String c s' =>
      if is_ascii_lower c then
        String (if previous_is_cased then c
                else ascii_of_N (N_of_ascii c - 32))
               (title_from true s')
      else if is_ascii_upper c then
        String (if previous_is_cased then ascii_of_N (N_of_ascii c + 32)
                else c)
               (title_from true s')
      else String c (title_from false s')
  end.

Definition title (s : string) : string := title_from false s.

Definition programming_languages : list string :=
  ["python"; "javascript"; "java"; "c++"; "c#"; "ruby"; "php"; "swift";
   "kotlin"; "go"; "rust"; "typescript"].

Definition frameworks : list string :=
  ["react"; "angular"; "vue"; "django"; "flask"; "fastapi"; "express";
   "spring"; "laravel"; "rails"].

Definition databases : list string :=
  ["mysql"; "postgresql"; "mongodb"; "redis"; "sqlite"; "oracle"; "cassandra"].

Definition cloud_tools : list string :=
  ["aws"; "azure"; "gcp"; "docker"; "kubernetes"; "jenkins"; "git"; "gitlab";
   "github"].

Definition concepts : list string :=
  ["machine learning"; "data science"; "blockchain"; "api"; "microservices";
   "devops"; "agile"; "scrum"].

Definition all_skills : list string :=
  (programming_languages ++ frameworks ++ databases ++ cloud_tools
   ++ concepts)%list.

(** The list built by the loop, before [list(set(...))]. *)
Definition found_skills (text : string) : list string :=
  title <$> filter (fun skill =>
                      Py.contains (Py.lower skill) (Py.lower text) = true)
              all_skills.

(** [extract_skills]: the source returns [list(set(found_skills))], a list
    without repetition whose order is that of the set; the result is kept
    as the set. *)
Definition extract_skills (text : string) : gset string :=
  list_to_set (found_skills text).

(** Pairs of skill names of which the first holds the second. *)
Definition nested_skills : list (string * string) :=
  [("javascript", "java"); ("mongodb", "go"); ("django", "go");
   ("fastapi", "api"); ("gitlab", "git"); ("github", "git")].

(** [title] tells the skill names apart, and [lower] leaves them as they
    are: checked on the list. *)
Definition names_separate : bool :=
  forallb (fun k =>
             String.eqb (Py.lower k) k
             && forallb (fun k' =>
                           implb (String.eqb (title k) (title k'))
                                 (String.eqb k k'))
                  all_skills)
    all_skills.

End Skills.

(** * [ai_service.py]: the question generator *)

Module AIQuestionGenerator.

Inductive DifficultyLevel := ENTRY | MID | SENIOR.

Definition difficulty_value (d : DifficultyLevel) : string :=
  match d with ENTRY => "entry" | MID => "mid" | SENIOR => "senior" end.

Inductive QuestionType := TECHNICAL | BEHAVIORAL | EXPERIENCE | SITUATIONAL.

Definition type_value (t : QuestionType) : string :=
  match t with
  | TECHNICAL => "technical"
  | BEHAVIORAL => "behavioral"
  | EXPERIENCE => "experience"
  | SITUATIONAL => "situational"
  end.

Definition type_eqb (t t' : QuestionType) : bool :=
  match t, t' with
  | TECHNICAL, TECHNICAL | BEHAVIORAL, BEHAVIORAL
  | EXPERIENCE, EXPERIENCE | SITUATIONAL, SITUATIONAL => true
  | _, _ => false
  end.

(** [t in question_types] *)
Definition type_in (t : QuestionType) (question_types : list QuestionType)
  : bool :=
  existsb (type_eqb t) question_types.

(** One object of the array that the gateway is asked for, as far as it is
    read; a field is [None] when the key is absent. *)
Record QData := {
  qd_question : option string;
  qd_expected_points : option (list string);
  qd_follow_up : option string
}.

(** What one gateway call gives to the [try] block around it. [Raised]
    stands for an exception anywhere in that block: the call itself, or an
    item among those read that is not an object with fields of the types
    that [Question] accepts. [Parsed items] is the list that
    [_parse_json_response] returns, empty when the text holds no array. *)
Inductive Generated := Raised | Parsed (items : list QData).

Record QuestionGateway := {
  technical_reply : Generated;
  behavioral_reply : Generated;
  experience_reply : Generated
}.

(** [str(i)] for an index. *)
Definition str_nat (i : nat) : string :=
  NilZero.string_of_uint (Nat.to_uint i).

(** The [Question] built from item [i] of a parsed reply. *)
Definition from_item (id_prefix : string) (type : QuestionType)
    (d : DifficultyLevel) (i : nat) (q_data : QData) : Question :=
  {| q_id := id_prefix ++ str_nat i;
     question_text := default "" (qd_question q_data);
     question_type := type_value type;
     difficulty := difficulty_value d;
     expected_answer_points := default [] (qd_expected_points q_data);
     follow_up_questions := [default "" (qd_follow_up q_data)] |}.

Definition technical_templates (d : DifficultyLevel)
  : list (string -> string) :=
  match d with
  | ENTRY =>
      [fun skill => "What is " ++ skill ++ " and how have you used it?";
       fun skill =>
         "Can you explain a simple project you built with " ++ skill ++ "?"]
  | MID =>
      [fun skill =>
         "Describe a challenging problem you solved using " ++ skill;
       fun skill =>
         "How do you ensure code quality when working with " ++ skill ++ "?"]
  | SENIOR =>
      [fun skill =>
         "How would you architect a large-scale system using " ++ skill ++ "?";
       fun skill =>
         "What are the performance considerations when using " ++ skill ++ "?"]
  end.

(** The loop of [_fallback_technical_questions], from index [i] on. *)
Fixpoint technical_fallback_loop (templates : list (string -> string))
    (d : DifficultyLevel) (i : nat) (skills : list string) : list Question :=
  match skills with
  | [] => []
  | skill :: rest =>
      let following := technical_fallback_loop templates d (S i) rest in
      match templates !! i with
      | Some template =>
          {| q_id := "tech_fallback_" ++ str_nat i;
             question_text := template skill;
             question_type := type_value TECHNICAL;
             difficulty := difficulty_value d;
             expected_answer_points :=
               ["Understanding of " ++ skill; "Practical experience";
                "Problem-solving approach"];
             follow_up_questions :=
               ["What challenges did you face with " ++ skill ++ "?"] |}
          :: following
      | None => following
      end
  end.

Definition _fallback_technical_questions (skills : list string)
    (d : DifficultyLevel) : list Question :=
  technical_fallback_loop (technical_templates d) d 0 (take 2 skills).

Definition behavioral_templates (d : DifficultyLevel) : list string :=
  match d with
  | ENTRY =>
      ["Tell me about a time you learned something new quickly";
       "Describe a situation where you worked effectively in a team";
       "How do you handle feedback and criticism?"]
  | MID =>
      ["Tell me about a time you had to lead a project or initiative";
       "Describe a situation where you had to resolve a conflict";
       "How do you prioritize tasks when facing multiple deadlines?"]
  | SENIOR =>
      ["Tell me about a time you made a strategic decision that impacted your team";
       "Describe how you mentor and develop junior team members";
       "How do you handle situations where you disagree with senior management?"]
  end.

Definition _fallback_behavioral_questions (d : DifficultyLevel)
  : list Question :=
  imap (fun i template =>
          {| q_id := "behavioral_fallback_" ++ str_nat i;
             question_text := template;
             question_type := type_value BEHAVIORAL;
             difficulty := difficulty_value d;
             expected_answer_points := ["Situation"; "Task"; "Action"; "Result"];
             follow_up_questions :=
               ["What would you do differently next time?"] |})
       (behavioral_templates d).

Definition _fallback_experience_questions (experiences : list string)
    (d : DifficultyLevel) : list Question :=
  imap (fun i exp =>
          {| q_id := "exp_fallback_" ++ str_nat i;
             question_text :=
               "Can you walk me through your role and responsibilities in: "
               ++ String.substring 0 100 exp ++ "...";
             question_type := type_value EXPERIENCE;
             difficulty := difficulty_value d;
             expected_answer_points :=
               ["Role description"; "Key responsibilities";
                "Main achievements"];
             follow_up_questions :=
               ["What was the most challenging aspect of this role?"] |})
       (take 2 experiences).

Definition _generate_technical_questions (gw : QuestionGateway)
    (skills : list string) (d : DifficultyLevel) : list Question :=
  match skills with
  | [] => []
  | _ =>
      match technical_reply gw with
      | Parsed questions_data =>
          imap (from_item "tech_" TECHNICAL d) (take 3 questions_data)
      | Raised => _fallback_technical_questions skills d
      end
  end.

Definition _generate_behavioral_questions (gw : QuestionGateway)
    (d : DifficultyLevel) : list Question :=
  match behavioral_reply gw with
  | Parsed questions_data =>
      imap (from_item "behavioral_" BEHAVIORAL d) (take 3 questions_data)
  | Raised => _fallback_behavioral_questions d
  end.

Definition _generate_experience_questions (gw : QuestionGateway)
    (experiences : list string) (d : DifficultyLevel) : list Question :=
  match experiences with
  | [] => []
  | _ =>
      match experience_reply gw with
      | Parsed questions_data =>
          imap (from_item "exp_" EXPERIENCE d) (take 2 questions_data)
      | Raised => _fallback_experience_questions experiences d
      end
  end.

(** The fields of the resume document that the generator reads; a list is
    empty when the key is absent. *)
Record ResumeData := {
  skills : list string;
  experience : list string
}.

Record InterviewConfig := {
  config_difficulty : DifficultyLevel;
  duration_minutes : Z;
  question_types : list QuestionType;
  num_questions : Z
}.

(** [l[:n]] for an integer that may be negative. *)
Definition py_prefix {A : Type} (n : Z) (l : list A) : list A :=
  if (0 <=? n)%Z then take (Z.to_nat n) l
  else take (List.length l - Z.to_nat (- n)) l.

Definition generate_questions (gw : QuestionGateway)
    (resume_data : ResumeData) (config : InterviewConfig) : list Question :=
  let d := config_difficulty config in
  let tech_questions :=
    if type_in TECHNICAL (question_types config)
    then _generate_technical_questions gw (skills resume_data) d else [] in
  let behavioral_questions :=
    if type_in BEHAVIORAL (question_types config)
    then _generate_behavioral_questions gw d else [] in
  let exp_questions :=
    if type_in EXPERIENCE (question_types config)
    then _generate_experience_questions gw (experience resume_data) d
    else [] in
  py_prefix (num_questions config)
    (tech_questions ++ behavioral_questions ++ exp_questions)%list.

(** What holds of the questions of one type: identifiers drawn in order
    from [ids], at most [cap] questions, of that type and difficulty. *)
Definition part_ok (type : QuestionType) (d : DifficultyLevel) (cap : nat)
    (ids : list string) (part : list Question) : Prop :=
  (q_id <$> part) `sublist_of` ids
  /\ List.length part <= cap
  /\ Forall (fun q => question_type q = type_value type
                      /\ difficulty q = difficulty_value d) part.

(** Every identifier that a question can get, in the order of generation. *)
Definition all_ids : list string :=
  ["tech_0"; "tech_1"; "tech_2"; "tech_fallback_0"; "tech_fallback_1";
   "behavioral_0"; "behavioral_1"; "behavioral_2";
   "behavioral_fallback_0"; "behavioral_fallback_1"; "behavioral_fallback_2";
   "exp_0"; "exp_1"; "exp_fallback_0"; "exp_fallback_1"].

(** A gateway whose every call fails, and one whose every reply holds no
    array. *)
Definition failing : QuestionGateway :=
  {| technical_reply := Raised; behavioral_reply := Raised;
     experience_reply := Raised |}.

Definition silent : QuestionGateway :=
  {| technical_reply := Parsed []; behavioral_reply := Parsed [];
     experience_reply := Parsed [] |}.

(** The number of questions that the fallbacks give for a resume and a list
    of question types. *)
Definition fallback_count (resume_data : ResumeData)
    (types : list QuestionType) : nat :=
  (if type_in TECHNICAL types
   then Nat.min 2 (List.length (skills resume_data)) else 0)
  + (if type_in BEHAVIORAL types then 3 else 0)
  + (if type_in EXPERIENCE types
     then Nat.min 2 (List.length (experience resume_data)) else 0).

End AIQuestionGenerator.

(** * [routes.py]: creating a session from a resume *)

Module SessionRoutes.
Import AIQuestionGenerator.

(** The content of the answer of [generate_questions]. *)
Record GeneratedSession := {
  gs_interview_id : string;
  gs_questions : list Question;
  gs_total_questions : nat;
  gs_estimated_duration : Z
}.

(** The stored form of a new [InterviewSession]. *)
Definition new_session (questions : list Question) : InterviewDoc :=
  {| doc_questions := questions;
     doc_responses := [];
     doc_status := ready;
     doc_conversation := None;
     doc_started_at := None;
     doc_completed_at := None |}.

(** [resumes] is the collection [db.resumes]; [inserted_id] spells the
    ObjectId that [insert_one] gives to the new document, [None] when the
    insertion raises. The answer carries [str] of that ObjectId. *)
Definition generate_questions (w : World) (gw : QuestionGateway)
    (resumes : gmap string ResumeData) (inserted_id : option string)
    (resume_id : string) (config : InterviewConfig) (s : System)
  : System * Http GeneratedSession :=
  if ObjectId_valid resume_id && find_ok w then
    match resumes !! ObjectId resume_id with
    | None => (s, Routes.wrapped w (HTTPExc 404 "Resume not found"))
    | Some resume =>
        let questions := AIQuestionGenerator.generate_questions gw resume config in
        match inserted_id with
        | None => (s, Routes.wrapped w StoreExc)
        | Some id =>
            ({| active_interviews := active_interviews s;
                db := <[ObjectId id := new_session questions]> (db s) |},
             JSONResponse
               {| gs_interview_id := ObjectId id;
                  gs_questions := questions;
                  gs_total_questions := List.length questions;
                  gs_estimated_duration := duration_minutes config |})
        end
    end
  else (s, Routes.wrapped w StoreExc).

End SessionRoutes.

(** * Vocabulary of the turn outcomes *)

Section Outcomes.
Import VoiceInterviewManager.

(** The entry that [start_voice_interview] makes for a stored session: the
    transcript holds the first question when there is one. *)
Definition fresh_entry (w : World) (doc : InterviewDoc) : InterviewData :=
  {| current_question_index := 0;
     questions := doc_questions doc;
     conversation :=
       match doc_questions doc with
       | [] => []
       | first_question :: _ =>
           [event Ev_ai_question (question_text first_question) w
              (Some (q_id first_question))]
       end;
     status := active;
     follow_up_count := 0;
     current_question_attempts := 0 |}.

(** Where the status of an entry stands with respect to its index: the
    status is active or completed, and an entry at the end of its questions
    is completed unless it has no question at all. *)
Definition entry_settled (d : InterviewData) : Prop :=
  (status d = active \/ status d = completed)
  /\ (current_question_index d = List.length (questions d) ->
      status d = completed \/ questions d = []).

(** The sample session after one short answer: still on its first question,
    with the follow-up counter at 1. *)
Definition nudged : System :=
  handle (calm 2) (ReqVoiceResponse sample_id "ok" 5) started.

Definition nudged_entry : InterviewData :=
  entry_after (calm 2) "ok" started_entry hash_question.

(** The session without questions after its voice interview was asked to
    start. *)
Definition empty_started : System :=
  (Routes.start_voice_interview (calm 1) sample_id empty_boot).1.

(** The stored session is marked completed while its entry is on its first
    question. *)
Definition completed_early : System :=
  run [(calm 1, ReqStartVoice sample_id); (calm 2, ReqComplete sample_id)] boot.

End Outcomes.

(** * Properties *)

(** ** The string primitives on sample text *)

Example split_words :
  Py.split "  I don't know,  maybe not sure " =
  ["I"; "don't"; "know,"; "maybe"; "not"; "sure"].
Proof. reflexivity. Qed.

Example strip_both : Py.strip "  a b  " = "a b".
Proof. reflexivity. Qed.

Example lower_mixed : Py.lower "Can You REPEAT that?" = "can you repeat that?".
Proof. reflexivity. Qed.

Example contains_yes : Py.contains "repeat" "can you repeat that?" = true.
Proof. reflexivity. Qed.

Example contains_no : Py.contains "i dont know" "i don't know" = false.
Proof. reflexivity. Qed.

Lemma lstrip_all_space (s : string) : Py.all_space s -> Py.lstrip s = "".
Proof.
  induction s as [|c s IH]; intros Hs; [reflexivity|].
  simpl. rewrite (Hs c) by (simpl; auto).
  apply IH. intros c' Hc'. apply Hs. simpl. auto.
Qed.

Lemma strip_all_space (s : string) : Py.all_space s -> Py.strip s = "".
Proof. intros Hs. unfold Py.strip. now rewrite lstrip_all_space. Qed.

Lemma any_in_Exists (phrases : list string) (text : string) :
  Py.any_in phrases text = true <->
  Exists (fun phrase => Py.contains phrase text = true) phrases.
Proof.
  unfold Py.any_in. rewrite existsb_exists, Exists_exists.
  split; intros (x & Hx & Hc); exists x; split; auto;
    by apply list_elem_of_In.
Qed.

Lemma in_list_spec (a : string) (l : list string) :
  VoiceInterviewManager.in_list a l = true <-> a ∈ l.
Proof.
  unfold VoiceInterviewManager.in_list. rewrite existsb_exists. split.
  - intros (x & Hx & He). apply String.eqb_eq in He. subst.
    by apply list_elem_of_In.
  - intros H. exists a. split; [by apply list_elem_of_In|apply String.eqb_refl].
Qed.

(** ** The fallback heuristic *)

Section Fallback.
Import ConversationManager.

Lemma uncertain_spec (user_input : string) :
  Py.any_in wrong_indicators (Py.lower user_input) = true <-> uncertain user_input.
Proof. apply any_in_Exists. Qed.

(** C4. Whenever the resolver falls back, the result is fixed by the word
    count and the uncertainty markers: fewer than 5 words or a marker gives
    provide_feedback / poor / keep listening; otherwise fewer than 15 words
    gives encourage_more / fair / keep listening; otherwise continue / good /
    do not keep listening. The resolver falls back exactly when the gateway
    gives no judgment. *)
Theorem fallback_rule (g : Gateway) (user_input current_question : string) :
  let words := List.length (Py.split user_input) in
  let r := _fallback_intelligent_analysis user_input current_question in
  (answer_judgment g = None ->
   _analyze_answer_intelligently g user_input current_question = r)
  /\ (words < 5 \/ uncertain user_input ->
      verdict r = ("provide_feedback", Some "poor", true))
  /\ (~ (words < 5 \/ uncertain user_input) -> words < 15 ->
      verdict r = ("encourage_more", Some "fair", true))
  /\ (~ (words < 5 \/ uncertain user_input) -> ~ words < 15 ->
      verdict r = ("continue", Some "good", false)).
Proof.
  intros words r. split; [|split; [|split]].
  - intros Hg. unfold _analyze_answer_intelligently. by rewrite Hg.
  - intros H. subst r. unfold _fallback_intelligent_analysis. fold words.
    replace ((words <? 5)%nat || Py.any_in wrong_indicators (Py.lower user_input))
      with true; [reflexivity|].
    symmetry. apply orb_true_iff. destruct H as [H|H].
    + left. by apply Nat.ltb_lt.
    + right. by apply uncertain_spec.
  - intros H H15. subst r. unfold _fallback_intelligent_analysis. fold words.
    replace ((words <? 5)%nat || Py.any_in wrong_indicators (Py.lower user_input))
      with false.
    + apply Nat.ltb_lt in H15. by rewrite H15.
    + symmetry. apply orb_false_iff. split.
      * apply Nat.ltb_ge. lia.
      * apply not_true_is_false. rewrite uncertain_spec. tauto.
  - intros H H15. subst r. unfold _fallback_intelligent_analysis. fold words.
    replace ((words <? 5)%nat || Py.any_in wrong_indicators (Py.lower user_input))
      with false.
    + replace (words <? 15)%nat with false; [reflexivity|].
      symmetry. apply Nat.ltb_ge. lia.
    + symmetry. apply orb_false_iff. split.
      * apply Nat.ltb_ge. lia.
      * apply not_true_is_false. rewrite uncertain_spec. tauto.
Qed.

Lemma fallback_rule_witness :
  verdict (_analyze_answer_intelligently gateway_down "maybe it is a tree" "Q")
  = ("provide_feedback", Some "poor", true).
Proof.
  destruct (fallback_rule gateway_down "maybe it is a tree" "Q")
    as (Hfall & Hpoor & _).
  rewrite Hfall by reflexivity.
  apply Hpoor. right. unfold uncertain.
  do 3 apply Exists_cons_tl. apply Exists_cons_hd. reflexivity.
Defined.

(** C9, as stated, fails: processed as a turn with the gateway down, the
    sample utterance does not resolve to provide_feedback / poor. *)
Lemma unsure_turn_not_feedback :
  verdict (process_user_input gateway_down unsure_utterance
             "Tell me about a project you built")
  <> ("provide_feedback", Some "poor", true).
Proof. vm_compute. discriminate. Qed.

(** C9, amended. The sample utterance has six words and holds the skip
    phrases "i don't know" and "not sure", which [process_user_input] tests
    before any analysis: as a turn it resolves to skip_question, with keep
    listening and no quality label, whatever the gateway does. Only the
    fallback heuristic applied to it directly gives provide_feedback / poor /
    keep listening. *)
Theorem unsure_turn_skips (g : Gateway) (current_question : string) :
  List.length (Py.split unsure_utterance) = 6
  /\ verdict (process_user_input g unsure_utterance current_question)
     = ("skip_question", None, true)
  /\ verdict (_fallback_intelligent_analysis unsure_utterance current_question)
     = ("provide_feedback", Some "poor", true).
Proof. repeat split. Qed.

End Fallback.

(** ** Empty utterances *)

(** C8. A turn submission whose utterance is empty or all whitespace is
    answered with the 400 "Empty response" error, whose detail differs from
    both errors of the turn controller, and the system (transcripts,
    question indices, documents) is left exactly as it was. *)
Theorem empty_utterance_rejected (w : World) (interview_id user_response : string)
    (response_time : Z) (s : System) :
  Py.all_space user_response ->
  Routes.process_voice_response w interview_id user_response response_time s
  = (s, HTTPException 400 "Empty response")
  /\ (forall w' i u t s' s1 e,
        VoiceInterviewManager.process_voice_response w' i u t s'
        = (s1, TurnError e) -> e <> "Empty response").
Proof.
  intros Hs. split.
  - unfold Routes.process_voice_response. by rewrite strip_all_space.
  - intros w' i u t s' s1 e. unfold VoiceInterviewManager.process_voice_response.
    destruct (active_interviews s' !! i) as [d|]; [|intros [= _ <-]; discriminate].
    destruct (questions d !! current_question_index d);
      [|intros [= _ <-]; discriminate].
    destruct (VoiceInterviewManager.process_turn _ _ _ _ _ _ _) as [[? ?] ?].
    discriminate.
Qed.

(** ** One turn of the controller *)

Section Turn.
Import VoiceInterviewManager.

Lemma move_spec (w : World) (interview_id : string) (d : InterviewData)
    (rd : ResponseData) (s : System) :
  let '(d', rd', s') := _move_to_next_question w interview_id d rd s in
  current_question_index d' = current_question_index d + 1
  /\ follow_up_count d' = 0
  /\ questions d' = questions d
  /\ match questions d !! (current_question_index d + 1) with
     | Some next_question =>
         status d' = status d
         /\ conversation d' =
            (conversation d ++
               [event Ev_ai_transition transition_message w None;
                event Ev_ai_question (question_text next_question) w
                  (Some (q_id next_question))])%list
         /\ rd' = with_next next_question (current_question_index d + 1)
                    transition_message rd
         /\ s' = store_entry interview_id d' s
     | None =>
         status d' = completed
         /\ conversation d' =
            (conversation d
               ++ [event Ev_ai_completion completion_message w None])%list
         /\ rd' = with_completion completion_message rd
         /\ s' = fst (complete_interview w interview_id
                        (store_entry interview_id d' s))
     end.
Proof.
  unfold _move_to_next_question. simpl.
  destruct (questions d !! (current_question_index d + 1)) as [nq|]; simpl.
  - repeat split. by rewrite <- app_assoc.
  - repeat split.
Qed.

(** Case analysis on a call of [_move_to_next_question] through [move_spec]. *)
Ltac move_cases :=
  match goal with
  | |- context [VoiceInterviewManager._move_to_next_question ?w ?i ?d0 ?rd0 ?s0] =>
      let Hm := fresh "Hm" in
      let d' := fresh "d'" in
      let rd' := fresh "rd'" in
      let s' := fresh "s'" in
      pose proof (move_spec w i d0 rd0 s0) as Hm;
      destruct (VoiceInterviewManager._move_to_next_question w i d0 rd0 s0)
        as [[d' rd'] s'];
      cbn [current_question_index questions conversation status
           follow_up_count append_event set_follow_up_count] in Hm;
      destruct Hm as (? & ? & ? & Hm);
      split; [done|]; split; [done|]; split; [done|];
      match type of Hm with
      | match ?o with _ => _ end =>
          destruct o; destruct Hm as (? & Hc & -> & ->);
          repeat split; try done; rewrite Hc; apply last_snoc
      end
  end.

(** What a processed turn does to the entry, to the answer and to the
    system, by branch. *)
Lemma turn_spec (w : World) (interview_id user_response : string)
    (response_time : Z) (d : InterviewData) (q : Question) (s : System) :
  let '(d', rd, s') :=
    process_turn w interview_id user_response response_time d q s in
  questions d' = questions d
  /\ if advances w user_response d q then
       current_question_index d' = current_question_index d + 1
       /\ follow_up_count d' = 0
       /\ match questions d !! (current_question_index d + 1) with
          | Some next_question =>
              status d' = status d
              /\ rd_next_question rd = Some next_question
              /\ rd_question_index rd = Some (current_question_index d + 1)
              /\ rd_interview_completed rd = None
              /\ s' = store_entry interview_id d'
                        (store_before_move w interview_id user_response
                           response_time q s)
          | None =>
              status d' = completed
              /\ last (conversation d')
                 = Some (event Ev_ai_completion completion_message w None)
              /\ rd_interview_completed rd = Some true
              /\ rd_next_question rd = None
              /\ s' = fst (complete_interview w interview_id
                             (store_entry interview_id d'
                                (store_before_move w interview_id user_response
                                   response_time q s)))
          end
     else
       current_question_index d' = current_question_index d
       /\ status d' = status d
       /\ follow_up_count d' =
          match branch (resolved w user_response q) with
          | BEncourage => follow_up_count d + 1
          | _ => follow_up_count d
          end
       /\ rd_next_question rd = None
       /\ rd_interview_completed rd = None
       /\ s' = store_entry interview_id d' s.
Proof.
  unfold process_turn, advances, store_before_move, branch.
  fold (resolved w user_response q).
  set (r := resolved w user_response q).
  destruct (in_list (action r) meta_actions) eqn:Hmeta; cbn [negb].
  { repeat split. }
  destruct (in_list (action r) encourage_actions && continue_listening r)
    eqn:Henc.
  { cbn [follow_up_count set_follow_up_count append_event].
    destruct (2 <=? follow_up_count d + 1)%nat eqn:Hn; [|repeat split].
    move_cases. }
  destruct (String.eqb (action r) "skip_question") eqn:Hskip; [move_cases|].
  destruct (in_list (action r) ["continue"; "move_next"]
            || negb (continue_listening r)) eqn:Hfin; [move_cases|].
  repeat split.
Qed.

End Turn.

(** ** The invariant of the table of active interviews *)

Section Invariant.
Import VoiceInterviewManager.

Lemma table_ok_store (interview_id : string) (d : InterviewData) (s : System) :
  table_ok s -> entry_ok interview_id d -> table_ok (store_entry interview_id d s).
Proof. intros Hs Hd. unfold table_ok. simpl. by apply map_Forall_insert_2. Qed.

Lemma table_ok_same (s s' : System) :
  active_interviews s' = active_interviews s -> table_ok s -> table_ok s'.
Proof. unfold table_ok. by intros ->. Qed.

Lemma save_table (w : World) (interview_id : string) (q : Question)
    (u : string) (t : Z) (r : ConversationResult) (s : System) :
  active_interviews (_save_response_analysis w interview_id q u t r s)
  = active_interviews s.
Proof. unfold _save_response_analysis. by destruct (_ && _). Qed.

Lemma store_before_move_table (w : World) (interview_id u : string) (t : Z)
    (q : Question) (s : System) :
  active_interviews (store_before_move w interview_id u t q s)
  = active_interviews s.
Proof.
  unfold store_before_move. destruct (branch _); try done. apply save_table.
Qed.

Lemma table_ok_complete (w : World) (interview_id : string) (s : System) :
  table_ok s -> table_ok (fst (complete_interview w interview_id s)).
Proof.
  intros Hs. unfold complete_interview.
  destruct (active_interviews s !! interview_id); [|done].
  destruct (_ && _); [|done].
  unfold table_ok. simpl. by apply map_Forall_delete.
Qed.

Lemma lookup_lt_length {A : Type} (l : list A) (i : nat) (x : A) :
  l !! i = Some x -> i < List.length l.
Proof. apply lookup_lt_Some. Qed.

(** A processed turn keeps the entry well formed. *)
Lemma turn_entry_ok (w : World) (interview_id u : string) (t : Z)
    (d : InterviewData) (q : Question) (s : System) :
  entry_ok interview_id d ->
  questions d !! current_question_index d = Some q ->
  entry_ok interview_id (process_turn w interview_id u t d q s).1.1.
Proof.
  intros (Hle & Hf & Hst & Hid) Hq.
  apply lookup_lt_length in Hq.
  pose proof (turn_spec w interview_id u t d q s) as H.
  destruct (process_turn w interview_id u t d q s) as [[d' rd] s'].
  destruct H as (Hqs & H). simpl.
  destruct (advances w u d q) eqn:Hadv.
  - destruct H as (Hi & Hf' & H). unfold entry_ok. rewrite Hqs, Hi, Hf'.
    split; [lia|]. split; [lia|]. split; [|done].
    destruct (questions d !! (current_question_index d + 1)) as [nq|] eqn:Hn.
    + destruct H as (Hs' & _). rewrite Hs'. intros Hc. apply Hst in Hc. lia.
    + intros _. apply lookup_ge_None in Hn. lia.
  - destruct H as (Hi & Hs' & Hf' & _). unfold entry_ok.
    rewrite Hqs, Hi, Hs', Hf'. split; [lia|]. split; [|done].
    unfold advances in Hadv.
    destruct (branch (resolved w u q)); try lia; try discriminate.
    apply Nat.leb_gt in Hadv. lia.
Qed.

Lemma turn_table_ok (w : World) (interview_id u : string) (t : Z)
    (d : InterviewData) (q : Question) (s : System) :
  table_ok s -> entry_ok interview_id d ->
  questions d !! current_question_index d = Some q ->
  table_ok (process_turn w interview_id u t d q s).2.
Proof.
  intros Hs Hd Hq.
  pose proof (turn_entry_ok w interview_id u t d q s Hd Hq) as Hd'.
  pose proof (turn_spec w interview_id u t d q s) as H.
  destruct (process_turn w interview_id u t d q s) as [[d' rd] s'].
  simpl in *. destruct H as (_ & H).
  assert (table_ok (store_entry interview_id d'
                      (store_before_move w interview_id u t q s))) as Hstore.
  { apply table_ok_store; [|done].
    eapply table_ok_same; [apply store_before_move_table|done]. }
  destruct (advances w u d q).
  - destruct H as (_ & _ & H).
    destruct (questions d !! (current_question_index d + 1)).
    + destruct H as (_ & _ & _ & _ & ->). done.
    + destruct H as (_ & _ & _ & _ & ->). by apply table_ok_complete.
  - destruct H as (_ & _ & _ & _ & _ & ->). by apply table_ok_store.
Qed.

Lemma pvr_unfold (w : World) (interview_id u : string) (t : Z)
    (d : InterviewData) (q : Question) (s : System) :
  active_interviews s !! interview_id = Some d ->
  questions d !! current_question_index d = Some q ->
  process_voice_response w interview_id u t s =
  ((process_turn w interview_id u t d q s).2,
   TurnOk (with_conversation
             (conversation (process_turn w interview_id u t d q s).1.1)
             (process_turn w interview_id u t d q s).1.2)).
Proof.
  intros Hd Hq. unfold process_voice_response. rewrite Hd, Hq.
  by destruct (process_turn w interview_id u t d q s) as [[d' rd] s'].
Qed.

Lemma pvr_table_ok (w : World) (interview_id u : string) (t : Z) (s : System) :
  table_ok s -> table_ok (process_voice_response w interview_id u t s).1.
Proof.
  intros Hs. unfold process_voice_response.
  destruct (active_interviews s !! interview_id) as [d|] eqn:Hd; [|done].
  destruct (questions d !! current_question_index d) as [q|] eqn:Hq; [|done].
  pose proof (turn_table_ok w interview_id u t d q s Hs (Hs _ _ Hd) Hq) as H.
  by destruct (process_turn w interview_id u t d q s) as [[d' rd] s'].
Qed.

Lemma start_table_ok (w : World) (interview_id : string) (s : System) :
  table_ok s -> table_ok (start_voice_interview w interview_id s).1.
Proof.
  intros Hs. unfold start_voice_interview.
  destruct (ObjectId_valid interview_id && find_ok w) eqn:Hv; [|done].
  apply andb_true_iff in Hv as [Hv _].
  destruct (db s !! ObjectId interview_id) as [doc|]; [|done].
  destruct (doc_questions doc) as [|q0 qs] eqn:Hqs; simpl.
  - apply table_ok_store; [done|]. unfold entry_ok. simpl.
    repeat split; try done; simpl; lia.
  - apply table_ok_store.
    + apply table_ok_store; [done|]. unfold entry_ok. simpl.
      repeat split; try done; lia.
    + unfold entry_ok. simpl. repeat split; try done; lia.
Qed.

Lemma handle_table_ok (w : World) (r : Request) (s : System) :
  table_ok s -> table_ok (handle w r s).
Proof.
  intros Hs. destruct r as [i|i|i|i [u|e] t|i]; simpl.
  - unfold Routes.start_interview.
    destruct (_ && _); [|done]. by destruct (db s !! ObjectId i).
  - unfold Routes.complete_interview.
    destruct (_ && _); [|done]. by destruct (db s !! ObjectId i).
  - unfold Routes.start_voice_interview.
    pose proof (start_table_ok w i s Hs) as H.
    destruct (start_voice_interview w i s) as [s1 [res|]]; [|done].
    by destruct (_ && _).
  - unfold Routes.process_voice_response.
    destruct (Py.falsy _); [done|].
    pose proof (pvr_table_ok w i u t s Hs) as H.
    by destruct (process_voice_response w i u t s) as [s1 [e|rd]].
  - done.
  - unfold Routes.complete_voice_interview.
    pose proof (table_ok_complete w i s Hs) as H.
    by destruct (complete_interview w i s) as [s1 [|]].
Qed.

Lemma reachable_table_ok (s : System) : reachable s -> table_ok s.
Proof.
  induction 1 as [db0|w r s _ IH].
  - unfold table_ok. simpl. apply map_Forall_empty.
  - by apply handle_table_ok.
Qed.

Lemma reachable_run (trace : list (World * Request)) (s : System) :
  reachable s -> reachable (run trace s).
Proof.
  revert s. induction trace as [|[w r] rest IH]; intros s Hs; [done|].
  simpl. apply IH. by constructor.
Qed.

End Invariant.

(** ** Sample session *)

Lemma started_reachable : reachable started.
Proof. unfold started. apply reach_handle, reach_boot. Defined.

Lemma started_lookup : active_interviews started !! sample_id = Some started_entry.
Proof. reflexivity. Defined.

(** ** Teardown and the stored responses *)

Section Progress.
Import VoiceInterviewManager.

Lemma complete_db_responses (w : World) (interview_id : string) (s : System)
    (k : string) :
  doc_responses <$> (db (complete_interview w interview_id s).1 !! k)
  = doc_responses <$> (db s !! k).
Proof.
  unfold complete_interview.
  destruct (active_interviews s !! interview_id); [|done].
  destruct (_ && _); [|done]. simpl.
  rewrite lookup_alter. case_decide; [subst|done].
  by destruct (db s !! ObjectId interview_id).
Qed.

End Progress.

(** ** The encouraging and the skipping branch *)

Section FollowUp.
Import VoiceInterviewManager.

Lemma branch_encourage (r : ConversationResult) :
  action r ∈ ["encourage_elaboration"; "encourage_more"; "follow_up"] ->
  continue_listening r = true -> branch r = BEncourage.
Proof.
  intros Ha Hc. unfold branch. rewrite Hc.
  apply list_elem_of_In in Ha. simpl in Ha.
  destruct Ha as [<-|[<-|[<-|[]]]]; reflexivity.
Qed.

Lemma branch_skip (r : ConversationResult) :
  action r = "skip_question" -> branch r = BSkip.
Proof. intros Ha. unfold branch. rewrite Ha. reflexivity. Qed.

End FollowUp.

Lemma empty_utterance_rejected_witness :
  Routes.process_voice_response (calm 2) sample_id "   " 5 started
  = (started, HTTPException 400 "Empty response").
Proof.
  apply (empty_utterance_rejected (calm 2) sample_id "   " 5 started).
  intros c [<-|[<-|[<-|[]]]]; reflexivity.
Defined.



(** ** Completion and teardown *)

Section Teardown.
Import VoiceInterviewManager.

Lemma stamped_alter (f : InterviewDoc -> InterviewDoc) (i : string) (s : System) :
  (forall doc, stamped doc -> stamped (f doc)) ->
  completed_are_stamped s -> completed_are_stamped (update_one i f s).
Proof.
  intros Hf Hs j doc. unfold update_one. simpl. rewrite lookup_alter.
  case_decide; [subst|by apply Hs].
  destruct (db s !! ObjectId i) as [doc0|] eqn:Hj; [|done].
  intros [= <-]. apply Hf. by eapply Hs.
Qed.

Lemma stamped_same (s s' : System) :
  db s' = db s -> completed_are_stamped s -> completed_are_stamped s'.
Proof. unfold completed_are_stamped. by intros ->. Qed.

Lemma stamped_set_completed (c : option (list Event)) (t : Z) (doc : InterviewDoc) :
  stamped (set_completed c t doc).
Proof. intros _. simpl. by eexists. Qed.

Lemma stamped_set_in_progress (t : Z) (doc : InterviewDoc) :
  stamped (set_in_progress t doc).
Proof. intros H. discriminate H. Qed.

Lemma stamped_complete (w : World) (i : string) (s : System) :
  completed_are_stamped s -> completed_are_stamped (complete_interview w i s).1.
Proof.
  intros Hs. unfold complete_interview.
  destruct (active_interviews s !! i) as [d|]; [|done].
  destruct (_ && _); [|done]. simpl.
  apply (stamped_alter (set_completed (Some (conversation d)) (now w)) i s);
    [|done].
  intros doc _. apply stamped_set_completed.
Qed.

Lemma stamped_save (w : World) (i : string) (q : Question) (u : string) (t : Z)
    (r : ConversationResult) (s : System) :
  completed_are_stamped s ->
  completed_are_stamped (_save_response_analysis w i q u t r s).
Proof.
  intros Hs. unfold _save_response_analysis. destruct (_ && _); [|done].
  apply stamped_alter; [|done]. intros doc Hd. exact Hd.
Qed.

Lemma stamped_turn (w : World) (i u : string) (t : Z) (d : InterviewData)
    (q : Question) (s : System) :
  completed_are_stamped s ->
  completed_are_stamped (process_turn w i u t d q s).2.
Proof.
  intros Hs. pose proof (turn_spec w i u t d q s) as H.
  destruct (process_turn w i u t d q s) as [[d' rd] s']. simpl.
  destruct H as (_ & H).
  assert (completed_are_stamped (store_before_move w i u t q s)) as Hb.
  { unfold store_before_move. destruct (branch _); try done.
    by apply stamped_save. }
  destruct (advances w u d q).
  - destruct H as (_ & _ & H).
    destruct (questions d !! (current_question_index d + 1)).
    + destruct H as (_ & _ & _ & _ & ->). done.
    + destruct H as (_ & _ & _ & _ & ->). by apply stamped_complete.
  - destruct H as (_ & _ & _ & _ & _ & ->). done.
Qed.

Lemma stamped_handle (w : World) (r : Request) (s : System) :
  completed_are_stamped s -> completed_are_stamped (handle w r s).
Proof.
  intros Hs. destruct r as [i|i|i|i [u|e] t|i]; simpl.
  - unfold Routes.start_interview. destruct (_ && _); [|done].
    destruct (db s !! ObjectId i); [|done]. simpl.
    apply stamped_alter; [|done]. intros doc _. apply stamped_set_in_progress.
  - unfold Routes.complete_interview. destruct (_ && _); [|done].
    destruct (db s !! ObjectId i); [|done]. simpl.
    apply stamped_alter; [|done]. intros doc _. apply stamped_set_completed.
  - unfold Routes.start_voice_interview.
    assert (completed_are_stamped (start_voice_interview w i s).1) as H.
    { unfold start_voice_interview. destruct (_ && _); [|done].
      destruct (db s !! ObjectId i) as [doc|]; [|done].
      by destruct (doc_questions doc). }
    destruct (start_voice_interview w i s) as [s1 [res|]]; [|done].
    destruct (_ && _); [|done]. simpl.
    apply stamped_alter; [|done]. intros doc _. apply stamped_set_in_progress.
  - unfold Routes.process_voice_response. destruct (Py.falsy _); [done|].
    assert (completed_are_stamped (process_voice_response w i u t s).1) as H.
    { unfold process_voice_response.
      destruct (active_interviews s !! i) as [d|]; [|done].
      destruct (questions d !! current_question_index d) as [q|]; [|done].
      pose proof (stamped_turn w i u t d q s Hs) as H.
      by destruct (process_turn w i u t d q s) as [[d' rd] s']. }
    by destruct (process_voice_response w i u t s) as [s1 [e|rd]].
  - done.
  - unfold Routes.complete_voice_interview.
    pose proof (stamped_complete w i s Hs) as H.
    by destruct (complete_interview w i s) as [s1 [|]].
Qed.

Lemma stamped_run (trace : list (World * Request)) (s : System) :
  completed_are_stamped s -> completed_are_stamped (run trace s).
Proof.
  revert s. induction trace as [|[w r] rest IH]; intros s Hs; [done|].
  simpl. by apply IH, stamped_handle.
Qed.

(** C7, as stated, fails. The complete route marks a session completed
    while the controller still holds it at its first question; calling the
    route again rewrites completed_at; and a start route called after it
    leaves completed_at set on a session that is no longer completed. *)
Lemma completion_outside_controller :
  let s1 := run [(calm 1, ReqStartVoice sample_id);
                 (calm 2, ReqComplete sample_id)] boot in
  let s2 := handle (calm 3) (ReqComplete sample_id) s1 in
  let s3 := handle (calm 4) (ReqStart sample_id) s2 in
  ((fun doc => (doc_status doc, doc_completed_at doc)) <$> db s1 !! sample_id)
  = Some (completed, Some 2%Z)
  /\ ((fun d => (current_question_index d, status d))
        <$> active_interviews s1 !! sample_id) = Some (0, active)
  /\ (doc_completed_at <$> db s2 !! sample_id) = Some (Some 3%Z)
  /\ stamped_iff_completed boot
  /\ ~ stamped_iff_completed s3.
Proof.
  split; [reflexivity|]. split; [reflexivity|]. split; [reflexivity|]. split.
  - intros i doc H. unfold boot in H. simpl in H.
    apply lookup_singleton_Some in H as [_ <-].
    split; [intros [x Hx]; discriminate Hx|intros Hc; discriminate Hc].
  - intros H.
    assert (db (handle (calm 4) (ReqStart sample_id)
                  (handle (calm 3) (ReqComplete sample_id)
                     (run [(calm 1, ReqStartVoice sample_id);
                           (calm 2, ReqComplete sample_id)] boot)))
              !! sample_id
            = Some (set_in_progress 4
                      (set_completed None 3
                         (set_completed None 2
                            (set_in_progress 1 sample_doc))))) as Hdoc
      by reflexivity.
    destruct (H _ _ Hdoc) as [Hto _].
    assert (in_progress = completed) as Habs by (apply Hto; by eexists).
    discriminate Habs.
Qed.

(** C7, amended. In every state served from a collection in which every
    completed session has completed_at set, every completed session has
    completed_at set; teardown without a table entry returns False and
    changes nothing; a teardown that returns True has written status
    completed together with completed_at on the stored session and removed
    the entry, so the next teardown of that session returns False and
    changes nothing. *)
Theorem teardown_idempotent (s0 : System) (trace : list (World * Request)) :
  completed_are_stamped s0 ->
  let s := run trace s0 in
  completed_are_stamped s
  /\ (forall w i,
        active_interviews s !! i = None -> complete_interview w i s = (s, false))
  /\ (forall w w' i,
        (complete_interview w i s).2 = true ->
        let s1 := (complete_interview w i s).1 in
        active_interviews s1 !! i = None
        /\ (forall doc, db s !! ObjectId i = Some doc ->
              exists doc1, db s1 !! ObjectId i = Some doc1
                /\ doc_status doc1 = completed
                /\ doc_completed_at doc1 = Some (now w))
        /\ complete_interview w' i s1 = (s1, false)).
Proof.
  intros H0 s. split; [by apply stamped_run|]. split.
  - intros w i Hi. unfold complete_interview. by rewrite Hi.
  - intros w w' i. unfold complete_interview at 1 2 3.
    destruct (active_interviews s !! i) as [d|] eqn:Hd; [|discriminate].
    destruct (_ && _); [|discriminate]. intros _. simpl.
    split; [apply lookup_delete_eq|]. split.
    + intros doc Hdoc. eexists. rewrite lookup_alter_eq, Hdoc. simpl.
      split; [reflexivity|]. by split.
    + unfold complete_interview. simpl. by rewrite lookup_delete_eq.
Qed.

Lemma teardown_idempotent_witness :
  completed_are_stamped boot
  /\ complete_interview (calm 9) sample_id
       (complete_interview (calm 8) sample_id
          (run [(calm 1, ReqStartVoice sample_id)] boot)).1
     = ((complete_interview (calm 8) sample_id
           (run [(calm 1, ReqStartVoice sample_id)] boot)).1, false).
Proof.
  assert (completed_are_stamped boot) as Hb.
  { intros i doc H. unfold boot in H. simpl in H.
    apply lookup_singleton_Some in H as [_ <-].
    intros Hc. discriminate Hc. }
  split; [exact Hb|].
  destruct (teardown_idempotent boot [(calm 1, ReqStartVoice sample_id)] Hb)
    as (_ & _ & H).
  exact (proj2 (proj2 (H (calm 8) (calm 9) sample_id eq_refl))).
Defined.

End Teardown.

(** ** The branches that stay on the question *)

Section Stalling.
Import VoiceInterviewManager.

Lemma in_list_false (a : string) (l : list string) :
  a ∉ l -> in_list a l = false.
Proof. intros H. apply not_true_is_false. by rewrite in_list_spec. Qed.

Lemma branch_meta (r : ConversationResult) :
  action r ∈ ["repeat_question"; "clarify_question"; "provide_example";
              "adjust_pace"] -> branch r = BMeta.
Proof.
  intros Ha. unfold branch.
  replace (in_list (action r) meta_actions) with true; [done|].
  symmetry. by apply in_list_spec.
Qed.

Lemma branch_other (r : ConversationResult) :
  action r ∉ all_actions -> continue_listening r = true -> branch r = BOther.
Proof.
  intros Ha Hc. unfold branch, all_actions in *.
  assert (forall l, (forall a, In a l -> In a all_actions) ->
                    in_list (action r) l = false) as Hout.
  { intros l Hl. apply in_list_false. intros Hin. apply Ha.
    apply list_elem_of_In, Hl. by apply list_elem_of_In. }
  rewrite !Hout, Hc by (unfold all_actions; simpl; intros a; tauto).
  replace (String.eqb (action r) "skip_question") with false; [done|].
  symmetry. apply String.eqb_neq. intros He. apply Ha.
  apply list_elem_of_In. rewrite He. simpl. tauto.
Qed.

End Stalling.

(** ** Response records *)

Section Records.
Import VoiceInterviewManager.

Lemma update_one_responses (i : string) (f : InterviewDoc -> InterviewDoc)
    (s : System) (k : string) :
  (forall doc, doc_responses (f doc) = doc_responses doc) ->
  doc_responses <$> db (update_one i f s) !! k = doc_responses <$> db s !! k.
Proof.
  intros Hf. unfold update_one. simpl. rewrite lookup_alter.
  case_decide as Hk; [|done]. rewrite <- Hk.
  destruct (db s !! ObjectId i); simpl; [|done]. by rewrite Hf.
Qed.

Lemma responses_complete (w : World) (i : string) (s : System) (j : string) :
  responses_of (complete_interview w i s).1 j = responses_of s j.
Proof. apply complete_db_responses. Qed.

Lemma save_db_other (w : World) (i : string) (q : Question) (u : string)
    (t : Z) (r : ConversationResult) (s : System) (k : string) :
  ObjectId i <> k -> db (_save_response_analysis w i q u t r s) !! k = db s !! k.
Proof.
  intros Hne. unfold _save_response_analysis. destruct (_ && _); [|done].
  simpl. by rewrite lookup_alter_ne.
Qed.

Lemma complete_db_other (w : World) (i : string) (s : System) (k : string) :
  ObjectId i <> k -> db (complete_interview w i s).1 !! k = db s !! k.
Proof.
  intros Hne. unfold complete_interview.
  destruct (active_interviews s !! i); [|done].
  destruct (_ && _); [|done]. simpl. by rewrite lookup_alter_ne.
Qed.

Lemma complete_table_other (w : World) (i : string) (s : System) (j : string) :
  i <> j ->
  active_interviews (complete_interview w i s).1 !! j = active_interviews s !! j.
Proof.
  intros Hne. unfold complete_interview.
  destruct (active_interviews s !! i); [|done].
  destruct (_ && _); [|done]. simpl. by rewrite lookup_delete_ne.
Qed.

Lemma responses_save_same (w : World) (i : string) (q : Question) (u : string)
    (t : Z) (s : System) :
  responses_of (_save_response_analysis w i q u t (resolved w u q) s) i
  = if ObjectId_valid i && push_ok w
    then (fun l => (l ++ [record_of w q u t])%list) <$> responses_of s i
    else responses_of s i.
Proof.
  unfold _save_response_analysis. destruct (_ && _); [|done].
  unfold responses_of, update_one. simpl. rewrite lookup_alter_eq.
  by destruct (db s !! ObjectId i).
Qed.

(** The turn of a session leaves the entry of every other id string as it
    was. *)
Lemma turn_table_other (w : World) (i u : string) (t : Z) (d : InterviewData)
    (q : Question) (s : System) (j : string) :
  i <> j ->
  active_interviews (process_turn w i u t d q s).2 !! j = active_interviews s !! j.
Proof.
  intros Hne. pose proof (turn_spec w i u t d q s) as H.
  destruct (process_turn w i u t d q s) as [[d' rd] s']. simpl.
  destruct H as (_ & H).
  assert (active_interviews (store_before_move w i u t q s) !! j
          = active_interviews s !! j) as Htab
    by (by rewrite store_before_move_table).
  destruct (advances w u d q).
  - destruct H as (_ & _ & H).
    destruct (questions d !! (current_question_index d + 1)).
    + destruct H as (_ & _ & _ & _ & ->). simpl.
      by rewrite lookup_insert_ne.
    + destruct H as (_ & _ & _ & _ & ->).
      unfold complete_interview. simpl. rewrite lookup_insert_eq.
      destruct (_ && _); simpl.
      * by rewrite lookup_delete_ne, lookup_insert_ne.
      * by rewrite lookup_insert_ne.
  - destruct H as (_ & _ & _ & _ & _ & ->). simpl.
    by rewrite lookup_insert_ne.
Qed.

(** The turn of a session leaves every document with another ObjectId as it
    was. *)
Lemma turn_db_other (w : World) (i u : string) (t : Z) (d : InterviewData)
    (q : Question) (s : System) (k : string) :
  ObjectId i <> k -> db (process_turn w i u t d q s).2 !! k = db s !! k.
Proof.
  intros Hne. pose proof (turn_spec w i u t d q s) as H.
  destruct (process_turn w i u t d q s) as [[d' rd] s']. simpl.
  destruct H as (_ & H).
  assert (db (store_before_move w i u t q s) !! k = db s !! k) as Hb.
  { unfold store_before_move. destruct (branch _); try done.
    by apply save_db_other. }
  destruct (advances w u d q).
  - destruct H as (_ & _ & H).
    destruct (questions d !! (current_question_index d + 1)).
    + destruct H as (_ & _ & _ & _ & ->). done.
    + destruct H as (_ & _ & _ & _ & ->). by rewrite complete_db_other.
  - destruct H as (_ & _ & _ & _ & _ & ->). done.
Qed.

Lemma complete_after_store (w : World) (i : string) (d : InterviewData)
    (s : System) :
  active_interviews (complete_interview w i (store_entry i d s)).1 !! i
  = if ObjectId_valid i && set_ok w then None else Some d.
Proof.
  unfold complete_interview. simpl. rewrite lookup_insert_eq.
  destruct (ObjectId_valid i && set_ok w); simpl.
  - apply lookup_delete_eq.
  - apply lookup_insert_eq.
Qed.

(** The turn of this session: the responses of its document grow by the
    record of the current question on the finishing branch when the store
    takes the push, and not at all otherwise; the entry stays or is torn
    down; the index never goes back and moves up by one on the finishing
    branch. *)
Lemma turn_own (w : World) (i u : string) (t : Z) (d : InterviewData)
    (q : Question) (s : System) :
  let '(d', rd, s') := process_turn w i u t d q s in
  responses_of s' i
  = match branch (resolved w u q) with
    | BFinish =>
        if ObjectId_valid i && push_ok w
        then (fun l => (l ++ [record_of w q u t])%list) <$> responses_of s i
        else responses_of s i
    | _ => responses_of s i
    end
  /\ (active_interviews s' !! i = Some d' \/ active_interviews s' !! i = None)
  /\ questions d' = questions d
  /\ current_question_index d <= current_question_index d'
  /\ (branch (resolved w u q) = BFinish ->
      current_question_index d' = current_question_index d + 1).
Proof.
  pose proof (turn_spec w i u t d q s) as H.
  destruct (process_turn w i u t d q s) as [[d' rd] s'].
  destruct H as (Hqs & H).
  assert (responses_of (store_before_move w i u t q s) i
          = match branch (resolved w u q) with
            | BFinish =>
                if ObjectId_valid i && push_ok w
                then (fun l => (l ++ [record_of w q u t])%list) <$> responses_of s i
                else responses_of s i
            | _ => responses_of s i
            end) as Hres.
  { unfold store_before_move. destruct (branch _); try done.
    apply responses_save_same. }
  assert (forall s0,
            active_interviews (complete_interview w i (store_entry i d' s0)).1 !! i
            = Some d'
            \/ active_interviews (complete_interview w i (store_entry i d' s0)).1
                 !! i = None) as Hdone.
  { intros s0. rewrite !complete_after_store.
    destruct (ObjectId_valid i && set_ok w); [by right|by left]. }
  unfold advances in H.
  destruct (branch (resolved w u q)) eqn:Hb.
  - destruct H as (Hi & _ & _ & _ & _ & ->). simpl.
    rewrite lookup_insert_eq. repeat split; try done; try lia. by left.
  - destruct (2 <=? follow_up_count d + 1)%nat.
    + destruct H as (Hi & _ & H).
      destruct (questions d !! (current_question_index d + 1)).
      * destruct H as (_ & _ & _ & _ & ->). simpl. rewrite lookup_insert_eq.
        repeat split; try done; try lia. by left.
      * destruct H as (_ & _ & _ & _ & ->). rewrite responses_complete.
        repeat split; try done; try lia.
    + destruct H as (Hi & _ & _ & _ & _ & ->). simpl.
      rewrite lookup_insert_eq. repeat split; try done; try lia. by left.
  - destruct H as (Hi & _ & H).
    destruct (questions d !! (current_question_index d + 1)).
    + destruct H as (_ & _ & _ & _ & ->). simpl. rewrite lookup_insert_eq.
      repeat split; try done; try lia. by left.
    + destruct H as (_ & _ & _ & _ & ->). rewrite responses_complete.
      repeat split; try done; try lia.
  - destruct H as (Hi & _ & H).
    destruct (questions d !! (current_question_index d + 1)).
    + destruct H as (_ & _ & _ & _ & ->). simpl. rewrite lookup_insert_eq.
      repeat split; try done; try lia. by left.
    + destruct H as (_ & _ & _ & _ & ->). rewrite responses_complete.
      repeat split; try done; try lia.
  - destruct H as (Hi & _ & _ & _ & _ & ->). simpl.
    rewrite lookup_insert_eq. repeat split; try done; try lia. by left.
Qed.

End Records.

Section RecordLog.
Import VoiceInterviewManager.



Lemma start_db_responses (w : World) (i : string) (s : System) (k : string) :
  doc_responses <$> db (Routes.start_voice_interview w i s).1 !! k
  = doc_responses <$> db s !! k.
Proof.
  unfold Routes.start_voice_interview.
  assert (db (start_voice_interview w i s).1 = db s) as H.
  { unfold start_voice_interview. destruct (_ && _); [|done].
    destruct (db s !! ObjectId i) as [doc|]; [|done].
    by destruct (doc_questions doc). }
  destruct (start_voice_interview w i s) as [s1 [res|]]; simpl in *;
    [|by rewrite H].
  destruct (_ && _); simpl; [|by rewrite H].
  rewrite <- H. by apply (update_one_responses i _ s1 k).
Qed.

Lemma start_table_other (w : World) (i : string) (s : System) (j : string) :
  i <> j ->
  active_interviews (Routes.start_voice_interview w i s).1 !! j
  = active_interviews s !! j.
Proof.
  intros Hne. unfold Routes.start_voice_interview.
  assert (active_interviews (start_voice_interview w i s).1 !! j
          = active_interviews s !! j) as H.
  { unfold start_voice_interview. destruct (_ && _); [|done].
    destruct (db s !! ObjectId i) as [doc|]; [|done].
    destruct (doc_questions doc); simpl; by rewrite !lookup_insert_ne. }
  destruct (start_voice_interview w i s) as [s1 [res|]]; [|done].
  by destruct (_ && _).
Qed.

(** What a voice turn with a non-empty utterance pushes to the document
    [k]. *)
Lemma pushed_turn (w : World) (i u : string) (t : Z) (k : string) (s : System) :
  Py.falsy (Py.strip u) = false ->
  pushed w (ReqVoiceResponse i u t) k s
  = if bool_decide (ObjectId i = k) then
      match active_interviews s !! i with
      | Some d =>
          match questions d !! current_question_index d with
          | Some q =>
              match branch (resolved w u q) with
              | BFinish =>
                  if ObjectId_valid i && push_ok w
                  then Some (current_question_index d, record_of w q u t)
                  else None
              | _ => None
              end
          | None => None
          end
      | None => None
      end
    else None.
Proof.
  intros Hf. unfold pushed, saved.
  by rewrite (bool_decide_eq_true_2 (i = i)), Hf by done.
Qed.

(** Every request changes the responses of a document by exactly the record
    that [pushed] names. *)
Lemma handle_responses (w : World) (r : Request) (k : string) (s : System) :
  doc_responses <$> db (handle w r s) !! k
  = match pushed w r k s with
    | Some kr => grow [kr.2] (doc_responses <$> db s !! k)
    | None => doc_responses <$> db s !! k
    end.
Proof.
  destruct r as [i|i|i|i [u|e] t|i]; cbn [handle pushed].
  - unfold Routes.start_interview. destruct (_ && _); [|done].
    destruct (db s !! ObjectId i); [|done]. simpl.
    by apply update_one_responses.
  - unfold Routes.complete_interview. destruct (_ && _); [|done].
    destruct (db s !! ObjectId i); [|done]. simpl.
    by apply update_one_responses.
  - apply start_db_responses.
  - unfold Routes.process_voice_response.
    destruct (Py.falsy (Py.strip u)) eqn:Hf.
    { unfold saved. rewrite Hf, andb_false_r. by case_bool_decide. }
    pose proof (pushed_turn w i u t k s Hf) as Hp. cbn [pushed] in Hp.
    rewrite Hp. clear Hp.
    assert (doc_responses <$> db (process_voice_response w i u t s).1 !! k
            = match
                (if bool_decide (ObjectId i = k) then
                   match active_interviews s !! i with
                   | Some d =>
                       match questions d !! current_question_index d with
                       | Some q =>
                           match branch (resolved w u q) with
                           | BFinish =>
                               if ObjectId_valid i && push_ok w
                               then Some (current_question_index d,
                                          record_of w q u t)
                               else None
                           | _ => None
                           end
                       | None => None
                       end
                   | None => None
                   end
                 else None)
              with
              | Some kr => grow [kr.2] (doc_responses <$> db s !! k)
              | None => doc_responses <$> db s !! k
              end) as H.
    { case_bool_decide as Hk.
      - subst k. unfold process_voice_response.
        destruct (active_interviews s !! i) as [d|]; [|done].
        destruct (questions d !! current_question_index d) as [q|]; [|done].
        pose proof (turn_own w i u t d q s) as H.
        destruct (process_turn w i u t d q s) as [[d' rd] s'].
        destruct H as (H & _). unfold responses_of in H. simpl. rewrite H.
        destruct (branch (resolved w u q)); try done.
        by destruct (_ && _).
      - unfold process_voice_response.
        destruct (active_interviews s !! i) as [d|]; [|done].
        destruct (questions d !! current_question_index d) as [q|]; [|done].
        pose proof (turn_db_other w i u t d q s k Hk) as H.
        destruct (process_turn w i u t d q s) as [[d' rd] s']. simpl in *.
        by rewrite H. }
    by destruct (process_voice_response w i u t s) as [s1 [e|rd]].
  - simpl. by case_bool_decide.
  - unfold Routes.complete_voice_interview.
    pose proof (complete_db_responses w i s k) as H.
    by destruct (complete_interview w i s) as [s1 [|]].
Qed.


End RecordLog.

Section OnePerQuestion.
Import VoiceInterviewManager.











End OnePerQuestion.

(** * Further properties of the manager and the routes *)

Section TurnShapeFacts.
Import VoiceInterviewManager.

Lemma move_entry (w : World) (interview_id : string) (d : InterviewData)
    (rd : ResponseData) (s : System) :
  (_move_to_next_question w interview_id d rd s).1.1 =
  {| current_question_index := current_question_index d + 1;
     questions := questions d;
     conversation := conversation d ++ advance_events w d;
     status := match questions d !! (current_question_index d + 1) with
               | Some _ => status d
               | None => completed
               end;
     follow_up_count := 0;
     current_question_attempts := current_question_attempts d |}.
Proof.
  unfold _move_to_next_question, advance_events. simpl.
  destruct (questions d !! (current_question_index d + 1)); simpl.
  - unfold append_event. simpl. f_equal. by rewrite <- app_assoc.
  - reflexivity.
Qed.

(** The entry after a processed turn, in closed form. *)
(** Equality of two entry records that differ in how the transcript is
    bracketed. *)
Ltac entry_eq :=
  unfold append_event, set_follow_up_count, advance_events;
  cbn [current_question_index questions conversation status follow_up_count
       current_question_attempts fst];
  f_equal; rewrite <- ?app_assoc; reflexivity.

Lemma turn_entry (w : World) (interview_id u : string) (t : Z)
    (d : InterviewData) (q : Question) (s : System) :
  (process_turn w interview_id u t d q s).1.1 = entry_after w u d q.
Proof.
  unfold process_turn, entry_after, turn_events, advances, reply_type, branch.
  fold (resolved w u q). set (r := resolved w u q).
  destruct (in_list (action r) meta_actions) eqn:Hmeta; cbn [negb].
  { entry_eq. }
  destruct (in_list (action r) encourage_actions && continue_listening r)
    eqn:Henc.
  { cbn [follow_up_count set_follow_up_count append_event].
    destruct (2 <=? follow_up_count d + 1)%nat eqn:Hn.
    - rewrite move_entry. entry_eq.
    - entry_eq. }
  destruct (String.eqb (action r) "skip_question") eqn:Hskip.
  { rewrite move_entry. entry_eq. }
  destruct (in_list (action r) ["continue"; "move_next"]
            || negb (continue_listening r)) eqn:Hfin.
  { rewrite move_entry. entry_eq. }
  entry_eq.
Qed.

(** X1. A processed turn only appends to the transcript: first the user's
    utterance, then one AI reply (ai_repeat for repeat_question,
    ai_clarification for the other meta actions, ai_response otherwise),
    both tagged with the current question, then, when the turn advances,
    the transition and the next question, or the completion event after the
    last question. The conversation returned to the caller is that
    transcript. *)
Theorem turn_appends_in_order (w : World) (interview_id u : string) (t : Z)
    (d : InterviewData) (q : Question) (s : System) :
  active_interviews s !! interview_id = Some d ->
  questions d !! current_question_index d = Some q ->
  exists rd s',
    process_voice_response w interview_id u t s = (s', TurnOk rd)
    /\ rd_conversation rd
       = (conversation d
            ++ [event Ev_user_response u w (Some (q_id q));
                event (reply_type (resolved w u q)) (response (resolved w u q))
                  w (Some (q_id q))]
            ++ (if advances w u d q then advance_events w d else []))%list
    /\ (forall d', active_interviews s' !! interview_id = Some d' ->
          conversation d' = rd_conversation rd).
Proof.
  intros Hd Hq. rewrite (pvr_unfold w interview_id u t d q s Hd Hq).
  eexists _, _. split; [reflexivity|].
  pose proof (turn_entry w interview_id u t d q s) as He.
  pose proof (turn_own w interview_id u t d q s) as Ho.
  destruct (process_turn w interview_id u t d q s) as [[d1 rd] s'].
  simpl in *. subst d1. split; [reflexivity|].
  intros d' Hd'. destruct Ho as (_ & [Htab|Htab] & _); congruence.
Qed.

Lemma turn_appends_in_order_witness :
  exists rd s',
    process_voice_response (calm 2) sample_id "can you repeat that?" 5 started
    = (s', TurnOk rd)
    /\ List.length (rd_conversation rd) = 3.
Proof.
  destruct (turn_appends_in_order (calm 2) sample_id "can you repeat that?" 5
              started_entry hash_question started started_lookup eq_refl)
    as (rd & s' & Hp & Hc & _).
  exists rd, s'. split; [exact Hp|]. rewrite Hc. reflexivity.
Defined.

End TurnShapeFacts.

Section Isolation.
Import VoiceInterviewManager.

Lemma handle_table_frame (w : World) (r : Request) (s : System) (j : string) :
  request_id r <> j ->
  active_interviews (handle w r s) !! j = active_interviews s !! j.
Proof.
  intros Hne. destruct r as [i|i|i|i [u|e] t|i]; simpl in Hne; cbn [handle].
  - unfold Routes.start_interview. destruct (_ && _); [|done].
    by destruct (db s !! ObjectId i).
  - unfold Routes.complete_interview. destruct (_ && _); [|done].
    by destruct (db s !! ObjectId i).
  - by apply start_table_other.
  - unfold Routes.process_voice_response.
    destruct (Py.falsy (Py.strip u)); [done|].
    assert (active_interviews (process_voice_response w i u t s).1 !! j
            = active_interviews s !! j) as H.
    { unfold process_voice_response.
      destruct (active_interviews s !! i) as [d|]; [|done].
      destruct (questions d !! current_question_index d) as [q|]; [|done].
      pose proof (turn_table_other w i u t d q s j Hne) as Ht.
      by destruct (process_turn w i u t d q s) as [[d' rd] s']. }
    by destruct (process_voice_response w i u t s) as [s1 [e|rd]].
  - done.
  - unfold Routes.complete_voice_interview.
    pose proof (complete_table_other w i s j Hne) as Ht.
    by destruct (complete_interview w i s) as [s1 [|]].
Qed.

Lemma handle_db_frame (w : World) (r : Request) (s : System) (k : string) :
  ObjectId (request_id r) <> k -> db (handle w r s) !! k = db s !! k.
Proof.
  intros Hne. destruct r as [i|i|i|i [u|e] t|i]; simpl in Hne; cbn [handle].
  - unfold Routes.start_interview. destruct (_ && _); [|done].
    destruct (db s !! ObjectId i); [|done]. simpl. by rewrite lookup_alter_ne.
  - unfold Routes.complete_interview. destruct (_ && _); [|done].
    destruct (db s !! ObjectId i); [|done]. simpl. by rewrite lookup_alter_ne.
  - unfold Routes.start_voice_interview.
    assert (db (start_voice_interview w i s).1 = db s) as Hdb.
    { unfold start_voice_interview. destruct (_ && _); [|done].
      destruct (db s !! ObjectId i) as [doc|]; [|done].
      by destruct (doc_questions doc). }
    destruct (start_voice_interview w i s) as [s1 [res|]]; simpl in *;
      [|by rewrite Hdb].
    destruct (_ && _); simpl; [|by rewrite Hdb].
    by rewrite lookup_alter_ne, Hdb.
  - unfold Routes.process_voice_response.
    destruct (Py.falsy (Py.strip u)); [done|].
    assert (db (process_voice_response w i u t s).1 !! k = db s !! k) as H.
    { unfold process_voice_response.
      destruct (active_interviews s !! i) as [d|]; [|done].
      destruct (questions d !! current_question_index d) as [q|]; [|done].
      pose proof (turn_db_other w i u t d q s k Hne) as Hdb.
      by destruct (process_turn w i u t d q s) as [[d' rd] s']. }
    by destruct (process_voice_response w i u t s) as [s1 [e|rd]].
  - done.
  - unfold Routes.complete_voice_interview.
    pose proof (complete_db_other w i s k Hne) as Hdb.
    by destruct (complete_interview w i s) as [s1 [|]].
Qed.

(** X2. A request leaves every table entry under another id string as it
    was, and every stored document with another ObjectId as it was. The
    two keys differ: a request under another spelling of an id, such as the
    id in upper case, has its own table entry but writes to the same
    document. *)
Theorem sessions_are_isolated (w : World) (r : Request) (s : System) :
  (forall j, request_id r <> j ->
     active_interviews (handle w r s) !! j = active_interviews s !! j)
  /\ (forall k, ObjectId (request_id r) <> k ->
        db (handle w r s) !! k = db s !! k)
  /\ (upper_id <> sample_id
      /\ (doc_status <$> db two_sessions !! ObjectId sample_id) = Some ready
      /\ (doc_status
            <$> db (handle (calm 2) (ReqComplete upper_id) two_sessions)
                  !! ObjectId sample_id) = Some completed).
Proof.
  split; [intros j; apply handle_table_frame|].
  split; [intros k; apply handle_db_frame|].
  by repeat split.
Qed.

Lemma sessions_are_isolated_witness :
  db (handle (calm 2) (ReqComplete other_id) two_sessions) !! ObjectId sample_id
  = db two_sessions !! ObjectId sample_id
  /\ (doc_status
        <$> db (handle (calm 2) (ReqComplete other_id) two_sessions)
              !! ObjectId other_id) = Some completed.
Proof.
  split; [|reflexivity].
  apply (proj1 (proj2 (sessions_are_isolated (calm 2) (ReqComplete other_id)
                         two_sessions))).
  vm_compute. discriminate.
Defined.

End Isolation.

Section Stored.
Import VoiceInterviewManager.

Lemma questions_update_one (i : string) (f : InterviewDoc -> InterviewDoc)
    (s : System) (j : string) :
  (forall doc, doc_questions (f doc) = doc_questions doc) ->
  questions_of (update_one i f s) j = questions_of s j.
Proof.
  intros Hf. unfold questions_of, update_one. simpl. rewrite lookup_alter.
  case_decide as Hk; [|done]. rewrite <- Hk.
  destruct (db s !! ObjectId i); simpl; [|done]. by rewrite Hf.
Qed.

Lemma questions_complete (w : World) (i : string) (s : System) (j : string) :
  questions_of (complete_interview w i s).1 j = questions_of s j.
Proof.
  unfold complete_interview.
  destruct (active_interviews s !! i) as [d|]; [|done].
  destruct (_ && _); [|done].
  by apply (questions_update_one i
              (set_completed (Some (conversation d)) (now w)) s j).
Qed.

Lemma questions_save (w : World) (i : string) (q : Question) (u : string)
    (t : Z) (r : ConversationResult) (s : System) (j : string) :
  questions_of (_save_response_analysis w i q u t r s) j = questions_of s j.
Proof.
  unfold _save_response_analysis. destruct (_ && _); [|done].
  by apply questions_update_one.
Qed.

Lemma questions_turn (w : World) (i u : string) (t : Z) (d : InterviewData)
    (q : Question) (s : System) (j : string) :
  questions_of (process_turn w i u t d q s).2 j = questions_of s j.
Proof.
  pose proof (turn_spec w i u t d q s) as H.
  destruct (process_turn w i u t d q s) as [[d' rd] s']. simpl.
  destruct H as (_ & H).
  assert (questions_of (store_before_move w i u t q s) j = questions_of s j)
    as Hb.
  { unfold store_before_move. destruct (branch _); try done.
    apply questions_save. }
  destruct (advances w u d q).
  - destruct H as (_ & _ & H).
    destruct (questions d !! (current_question_index d + 1)).
    + destruct H as (_ & _ & _ & _ & ->). done.
    + destruct H as (_ & _ & _ & _ & ->). by rewrite questions_complete.
  - destruct H as (_ & _ & _ & _ & _ & ->). done.
Qed.

(** No request changes the questions of a stored session. *)
Lemma questions_handle (w : World) (r : Request) (s : System) (j : string) :
  questions_of (handle w r s) j = questions_of s j.
Proof.
  destruct r as [i|i|i|i [u|e] t|i]; cbn [handle].
  - unfold Routes.start_interview. destruct (_ && _); [|done].
    destruct (db s !! ObjectId i); [|done]. by apply questions_update_one.
  - unfold Routes.complete_interview. destruct (_ && _); [|done].
    destruct (db s !! ObjectId i); [|done]. by apply questions_update_one.
  - unfold Routes.start_voice_interview.
    assert (questions_of (start_voice_interview w i s).1 j = questions_of s j)
      as H.
    { unfold start_voice_interview. destruct (_ && _); [|done].
      destruct (db s !! ObjectId i) as [doc|]; [|done].
      by destruct (doc_questions doc). }
    destruct (start_voice_interview w i s) as [s1 [res|]]; [|done].
    destruct (_ && _); [|done]. simpl in *.
    by rewrite questions_update_one.
  - unfold Routes.process_voice_response.
    destruct (Py.falsy (Py.strip u)); [done|].
    assert (questions_of (process_voice_response w i u t s).1 j
            = questions_of s j) as H.
    { unfold process_voice_response.
      destruct (active_interviews s !! i) as [d|]; [|done].
      destruct (questions d !! current_question_index d) as [q|]; [|done].
      pose proof (questions_turn w i u t d q s j) as H.
      by destruct (process_turn w i u t d q s) as [[d' rd] s']. }
    by destruct (process_voice_response w i u t s) as [s1 [e|rd]].
  - done.
  - unfold Routes.complete_voice_interview.
    pose proof (questions_complete w i s j) as H.
    by destruct (complete_interview w i s) as [s1 [|]].
Qed.

(** How the entry of the session that a request names comes about. *)
Lemma handle_own_entry (w : World) (r : Request) (s : System)
    (d' : InterviewData) :
  active_interviews (handle w r s) !! request_id r = Some d' ->
  (exists d, active_interviews s !! request_id r = Some d
             /\ questions d' = questions d
             /\ current_question_attempts d' = current_question_attempts d)
  \/ (questions_of s (request_id r) = Some (questions d')
      /\ current_question_attempts d' = 0).
Proof.
  destruct r as [i|i|i|i [u|e] t|i]; cbn [handle request_id].
  - intros H. left. exists d'. split; [|done]. revert H.
    unfold Routes.start_interview. destruct (_ && _); [|done].
    by destruct (db s !! ObjectId i).
  - intros H. left. exists d'. split; [|done]. revert H.
    unfold Routes.complete_interview. destruct (_ && _); [|done].
    by destruct (db s !! ObjectId i).
  - unfold Routes.start_voice_interview, start_voice_interview, questions_of.
    destruct (ObjectId_valid i && find_ok w).
    2:{ intros H. left. by exists d'. }
    destruct (db s !! ObjectId i) as [doc|] eqn:Hdoc.
    2:{ intros H. left. by exists d'. }
    destruct (doc_questions doc) as [|q0 qs] eqn:Hqs.
    + simpl. rewrite lookup_insert_eq. intros [= <-]. right. simpl.
      by rewrite Hqs.
    + destruct (ObjectId_valid i && set_ok w); simpl;
        rewrite lookup_insert_eq; intros [= <-]; right; simpl; by rewrite Hqs.
  - unfold Routes.process_voice_response.
    destruct (Py.falsy (Py.strip u)).
    { intros H. left. by exists d'. }
    unfold process_voice_response.
    destruct (active_interviews s !! i) as [d|] eqn:Hd.
    2:{ simpl. rewrite Hd. discriminate. }
    destruct (questions d !! current_question_index d) as [q|] eqn:Hq.
    2:{ simpl. rewrite Hd. intros [= <-]. left. by exists d. }
    pose proof (turn_entry w i u t d q s) as He.
    pose proof (turn_own w i u t d q s) as Ho.
    destruct (process_turn w i u t d q s) as [[d1 rd] s']. simpl in *.
    destruct Ho as (_ & [Htab|Htab] & _); rewrite Htab; [|discriminate].
    intros [= <-]. left. exists d. subst d1. by repeat split.
  - intros H. left. by exists d'.
  - unfold Routes.complete_voice_interview, complete_interview.
    destruct (active_interviews s !! i) as [d|] eqn:Hd.
    2:{ simpl. rewrite Hd. discriminate. }
    destruct (_ && _); simpl.
    + rewrite lookup_delete_eq. discriminate.
    + rewrite Hd. intros [= <-]. left. by exists d.
Qed.

Lemma entries_stored_handle (w : World) (r : Request) (s : System) :
  entries_stored s -> entries_stored (handle w r s).
Proof.
  intros Hs j d' Hd'. rewrite questions_handle.
  destruct (decide (request_id r = j)) as [<-|Hne].
  - destruct (handle_own_entry w r s d' Hd') as [(d & Hd & Hq & Ha)|[Hq Ha]].
    + destruct (Hs _ _ Hd) as [Hqs Hz]. rewrite Hq, Ha. by split.
    + by split.
  - rewrite (handle_table_frame w r s j Hne) in Hd'. by apply Hs.
Qed.

Lemma reachable_entries_stored (s : System) : reachable s -> entries_stored s.
Proof.
  induction 1 as [db0|w r s _ IH].
  - intros i d0 H. simpl in H. by rewrite lookup_empty in H.
  - by apply entries_stored_handle.
Qed.

Lemma active_sessions_are_stored_aux (s : System) :
  reachable s ->
  forall i d, active_interviews s !! i = Some d ->
    exists doc, db s !! ObjectId i = Some doc.
Proof.
  intros Hr i d Hd.
  destruct (reachable_entries_stored s Hr _ _ Hd) as [Hq _].
  unfold questions_of in Hq.
  destruct (db s !! ObjectId i) as [doc|]; [|discriminate].
  by exists doc.
Qed.

(** X3. In every reachable state each active entry belongs to a stored
    session and holds exactly that session's question list: the questions
    of a session never change once it is stored, neither in the store nor
    in the table. The attempts field of an entry is never written: it is 0
    in every reachable state. *)
Theorem active_sessions_are_stored (s : System) (interview_id : string)
    (d : InterviewData) :
  reachable s ->
  active_interviews s !! interview_id = Some d ->
  (exists doc, db s !! ObjectId interview_id = Some doc
               /\ doc_questions doc = questions d)
  /\ current_question_attempts d = 0
  /\ (forall w r, questions_of (handle w r s) interview_id
                  = Some (questions d)).
Proof.
  intros Hr Hd.
  destruct (reachable_entries_stored s Hr _ _ Hd) as [Hq Ha].
  split; [|split; [done|]].
  - unfold questions_of in Hq.
    destruct (db s !! ObjectId interview_id) as [doc|]; [|discriminate].
    exists doc. split; [done|]. by injection Hq.
  - intros w r. by rewrite questions_handle.
Qed.

Lemma active_sessions_are_stored_witness :
  current_question_attempts started_entry = 0.
Proof.
  exact (proj1 (proj2 (active_sessions_are_stored started sample_id
                         started_entry started_reachable started_lookup))).
Defined.

End Stored.

Section Transcript.
Import VoiceInterviewManager.

(** X4. Teardown keeps the transcript readable: for an active session of a
    reachable state, [get_conversation] gives the entry's transcript; a
    teardown that the store accepts succeeds, removes the entry, and
    [get_conversation] then reads the same transcript back from the stored
    session. *)
Theorem teardown_keeps_transcript (s : System) (interview_id : string)
    (d : InterviewData) (w w' : World) :
  reachable s ->
  active_interviews s !! interview_id = Some d ->
  set_ok w = true ->
  find_ok w' = true ->
  get_conversation w' interview_id s = conversation d
  /\ (complete_interview w interview_id s).2 = true
  /\ active_interviews (complete_interview w interview_id s).1 !! interview_id
     = None
  /\ get_conversation w' interview_id (complete_interview w interview_id s).1
     = conversation d.
Proof.
  intros Hr Hd Hset Hfind.
  destruct (reachable_table_ok s Hr _ _ Hd) as (_ & _ & _ & Hv).
  destruct (active_sessions_are_stored_aux s Hr _ _ Hd) as (doc & Hdoc).
  split.
  { unfold get_conversation. by rewrite Hd. }
  unfold complete_interview. rewrite Hd, Hv, Hset. simpl.
  split; [done|]. split; [apply lookup_delete_eq|].
  unfold get_conversation. simpl.
  rewrite lookup_delete_eq, Hv, Hfind, lookup_alter_eq, Hdoc. reflexivity.
Qed.

Lemma teardown_keeps_transcript_witness :
  get_conversation (calm 9) sample_id
    (complete_interview (calm 8) sample_id started).1
  = conversation started_entry.
Proof.
  exact (proj2 (proj2 (proj2
           (teardown_keeps_transcript started sample_id started_entry
              (calm 8) (calm 9) started_reachable started_lookup
              eq_refl eq_refl)))).
Defined.


End Transcript.

Lemma on_last_reachable : reachable on_last.
Proof. unfold on_last. apply reach_handle, started_reachable. Defined.

Lemma on_last_lookup : active_interviews on_last !! sample_id = Some on_last_entry.
Proof. reflexivity. Defined.


Section Answer.
Import VoiceInterviewManager.

Lemma move_answer (w : World) (interview_id : string) (d : InterviewData)
    (rd : ResponseData) (s : System) :
  (_move_to_next_question w interview_id d rd s).1.2 =
  match questions d !! (current_question_index d + 1) with
  | Some next_question =>
      with_next next_question (current_question_index d + 1)
        transition_message rd
  | None => with_completion completion_message rd
  end.
Proof.
  unfold _move_to_next_question. simpl.
  by destruct (questions d !! (current_question_index d + 1)).
Qed.

(** X6. The answer to a processed turn has one of three shapes. If the turn
    stays on its question it reports a pending follow-up whose text is the
    AI reply, and neither a next question nor a completion. If it advances
    to a further question it reports that question, its index, the
    transition message and no pending follow-up. If it advances past the
    last question it reports the completion with its message and no next
    question. The AI reply is reported in all three. *)
Theorem turn_answer_shape (w : World) (interview_id u : string) (t : Z)
    (d : InterviewData) (q : Question) (s : System) :
  active_interviews s !! interview_id = Some d ->
  questions d !! current_question_index d = Some q ->
  exists rd s',
    process_voice_response w interview_id u t s = (s', TurnOk rd)
    /\ rd_ai_response rd = response (resolved w u q)
    /\ if advances w u d q then
         match questions d !! (current_question_index d + 1) with
         | Some next_question =>
             rd_next_question rd = Some next_question
             /\ rd_question_index rd = Some (current_question_index d + 1)
             /\ rd_transition_message rd = Some transition_message
             /\ rd_has_follow_up rd = Some false
             /\ rd_interview_completed rd = None
             /\ rd_completion_message rd = None
         | None =>
             rd_interview_completed rd = Some true
             /\ rd_completion_message rd = Some completion_message
             /\ rd_next_question rd = None
             /\ rd_question_index rd = None
             /\ rd_transition_message rd = None
         end
       else
         rd_has_follow_up rd = Some true
         /\ rd_follow_up_question rd = Some (response (resolved w u q))
         /\ rd_next_question rd = None
         /\ rd_question_index rd = None
         /\ rd_interview_completed rd = None
         /\ rd_completion_message rd = None.
Proof.
  intros Hd Hq. rewrite (pvr_unfold w interview_id u t d q s Hd Hq).
  eexists _, _. split; [reflexivity|].
  unfold process_turn, advances, branch.
  fold (resolved w u q). set (r := resolved w u q).
  destruct (in_list (action r) meta_actions) eqn:Hmeta; cbn [negb].
  { repeat split. }
  destruct (in_list (action r) encourage_actions && continue_listening r)
    eqn:Henc.
  { cbn [follow_up_count set_follow_up_count append_event].
    destruct (2 <=? follow_up_count d + 1)%nat eqn:Hn; [|repeat split].
    rewrite move_answer.
    cbn [current_question_index questions set_follow_up_count append_event].
    by destruct (questions d !! (current_question_index d + 1)). }
  destruct (String.eqb (action r) "skip_question") eqn:Hskip.
  { rewrite move_answer. cbn [current_question_index questions append_event].
    by destruct (questions d !! (current_question_index d + 1)). }
  destruct (in_list (action r) ["continue"; "move_next"]
            || negb (continue_listening r)) eqn:Hfin.
  { rewrite move_answer. cbn [current_question_index questions append_event].
    by destruct (questions d !! (current_question_index d + 1)). }
  repeat split.
Qed.

Lemma turn_answer_shape_witness :
  exists rd s',
    process_voice_response (calm 2) sample_id "skip" 5 started = (s', TurnOk rd)
    /\ rd_next_question rd = Some team_question.
Proof.
  destruct (turn_answer_shape (calm 2) sample_id "skip" 5 started_entry
              hash_question started started_lookup eq_refl)
    as (rd & s' & Hp & _ & H).
  exists rd, s'. split; [exact Hp|]. exact (proj1 H).
Defined.

End Answer.

Section StartAndErrors.
Import VoiceInterviewManager.

(** X7. Starting the voice interview succeeds exactly when the id is a
    well-formed object id, the lookup does not fail, and the session is
    stored with at least one question. On success the answer carries the
    first question, index 0 and the number of questions, and the table
    entry is a fresh one (index 0, counter 0, a transcript holding only the
    first question) whatever entry the session had before; the collection
    is left alone. *)
Theorem start_succeeds_iff (w : World) (interview_id : string) (s : System) :
  (is_Some (start_voice_interview w interview_id s).2 <->
   ObjectId_valid interview_id = true /\ find_ok w = true
   /\ exists doc, db s !! ObjectId interview_id = Some doc
                  /\ doc_questions doc <> [])
  /\ (forall res,
        (start_voice_interview w interview_id s).2 = Some res ->
        exists doc first_question,
          db s !! ObjectId interview_id = Some doc
          /\ doc_questions doc !! 0 = Some first_question
          /\ res = {| sr_message := "Voice interview started";
                      sr_current_question := first_question;
                      sr_question_index := 0;
                      sr_total_questions := List.length (doc_questions doc) |}
          /\ active_interviews (start_voice_interview w interview_id s).1
               !! interview_id
             = Some {| current_question_index := 0;
                       questions := doc_questions doc;
                       conversation :=
                         [event Ev_ai_question (question_text first_question) w
                            (Some (q_id first_question))];
                       status := active;
                       follow_up_count := 0;
                       current_question_attempts := 0 |}
          /\ db (start_voice_interview w interview_id s).1 = db s).
Proof.
  unfold start_voice_interview.
  destruct (ObjectId_valid interview_id) eqn:Hv; simpl.
  2:{ split; [|discriminate]. split; [intros [x Hx]; discriminate Hx|].
      intros (H & _). discriminate H. }
  destruct (find_ok w) eqn:Hf; simpl.
  2:{ split; [|discriminate]. split; [intros [x Hx]; discriminate Hx|].
      intros (_ & H & _). discriminate H. }
  destruct (db s !! ObjectId interview_id) as [doc|] eqn:Hdoc.
  2:{ split; [|discriminate]. split; [intros [x Hx]; discriminate Hx|].
      intros (_ & _ & doc & H & _). discriminate H. }
  destruct (doc_questions doc) as [|q0 qs] eqn:Hqs; simpl.
  { split; [|discriminate]. split; [intros [x Hx]; discriminate Hx|].
    intros (_ & _ & doc' & H & Hne). injection H as <-. by rewrite Hqs in Hne. }
  split.
  - split; [|by eexists]. intros _. repeat split; try done.
    exists doc. split; [done|]. by rewrite Hqs.
  - intros res [= <-]. exists doc, q0. rewrite Hqs. repeat split.
    by rewrite lookup_insert_eq.
Qed.



End StartAndErrors.

Lemma start_succeeds_iff_witness :
  is_Some (VoiceInterviewManager.start_voice_interview (calm 1) sample_id boot).2.
Proof.
  apply (proj1 (start_succeeds_iff (calm 1) sample_id boot)).
  split; [reflexivity|]. split; [reflexivity|].
  exists sample_doc. split; [reflexivity|discriminate].
Defined.

Section ClassifierFacts.
Import ConversationManager.

Lemma string_cons_app (c : ascii) (a b : string) :
  String c a ++ b = String c (a ++ b).
Proof. reflexivity. Qed.

Lemma string_nil_app (b : string) : "" ++ b = b.
Proof. reflexivity. Qed.

Lemma prefix_spec (p t : string) :
  String.prefix p t = true <-> exists b, t = p ++ b.
Proof.
  revert t. induction p as [|c p IH]; intros t.
  - destruct t; simpl; split; try done; intros _; eexists;
      by rewrite string_nil_app.
  - destruct t as [|c' t]; simpl.
    + split; [discriminate|]. intros [b Hb].
      rewrite string_cons_app in Hb. discriminate Hb.
    + destruct (ascii_dec c c') as [->|Hne].
      * rewrite IH. split; intros [b Hb]; exists b;
          rewrite string_cons_app in *; congruence.
      * split; [discriminate|]. intros [b Hb].
        rewrite string_cons_app in Hb. congruence.
Qed.

Lemma string_app_assoc (a b c : string) : (a ++ b) ++ c = a ++ (b ++ c).
Proof.
  induction a as [|x a IH]; [by rewrite !string_nil_app|].
  by rewrite !string_cons_app, IH.
Qed.

(** [needle in hay] holds exactly when the hay is some text, the needle,
    and some more text. *)
Lemma contains_spec (p t : string) :
  Py.contains p t = true <-> exists a b, t = a ++ p ++ b.
Proof.
  induction t as [|c t IH].
  - change (Py.contains p "") with (String.prefix p "" || false).
    rewrite orb_false_r, prefix_spec. split.
    + intros [b Hb]. exists "", b. by rewrite string_nil_app.
    + intros (a & b & H). destruct a.
      * rewrite string_nil_app in H. by exists b.
      * rewrite string_cons_app in H. discriminate H.
  - change (Py.contains p (String c t))
      with (String.prefix p (String c t) || Py.contains p t).
    rewrite orb_true_iff, prefix_spec, IH. split.
    + intros [[b Hb]|(a & b & ->)].
      * exists "", b. by rewrite string_nil_app.
      * exists (String c a), b. by rewrite string_cons_app.
    + intros (a & b & H). destruct a as [|x a].
      * rewrite string_nil_app in H. left. by exists b.
      * rewrite string_cons_app in H. right. exists a, b. congruence.
Qed.

(** A text that contains a phrase contains every part of the phrase. *)
Lemma contains_trans (p p' t : string) :
  Py.contains p p' = true -> Py.contains p' t = true -> Py.contains p t = true.
Proof.
  rewrite !contains_spec. intros (c & e & ->) (a & b & ->).
  exists (a ++ c), (e ++ b). by rewrite !string_app_assoc.
Qed.

Lemma any_in_subsumed (phrases core : list string) (t : string) :
  (forall p, In p core -> In p phrases) ->
  (forall p, In p phrases -> exists p0, In p0 core /\ Py.contains p0 p = true) ->
  Py.any_in phrases t = Py.any_in core t.
Proof.
  intros Hsub Hcov. apply eq_true_iff_eq. unfold Py.any_in.
  rewrite !existsb_exists. split.
  - intros (p & Hp & Hc). destruct (Hcov p Hp) as (p0 & Hp0 & Hc0).
    exists p0. split; [done|]. by eapply contains_trans.
  - intros (p & Hp & Hc). exists p. split; [by apply Hsub|done].
Qed.

(** X9. Five phrases of the classifier can never decide an intent. In the
    repeat list "say that again", "repeat question" and "can you repeat"
    match only texts that "again" or "repeat" already match; in the example
    list "give me an example" is covered by "example", and "what do you
    mean by" is covered by the clarify phrase "what do you mean", which is
    tested earlier. So a candidate who asks "what do you mean by ..." gets
    the question repeated or clarified, never an example. *)
Theorem redundant_phrases (t : string) :
  Py.any_in repeat_phrases t
  = Py.any_in ["repeat"; "again"; "what was the question"] t
  /\ (Py.any_in clarify_phrases t = false ->
      Py.any_in example_phrases t = Py.any_in ["example"; "for instance"] t)
  /\ (forall g u q,
        t = Py.strip (Py.lower u) ->
        Py.contains "what do you mean by" t = true ->
        action (process_user_input g u q)
          ∈ ["repeat_question"; "clarify_question"]).
Proof.
  split; [|split].
  - apply any_in_subsumed.
    + simpl. intuition.
    + intros p Hp. simpl in Hp.
      destruct Hp as [<-|[<-|[<-|[<-|[<-|[<-|[]]]]]]];
        [exists "repeat"|exists "again"|exists "again"|exists "repeat"
        |exists "what was the question"|exists "repeat"];
        (split; [simpl; tauto|reflexivity]).
  - intros Hclar.
    assert (Py.contains "what do you mean by" t = false) as Hby.
    { apply not_true_is_false. intros Hc.
      assert (Py.any_in clarify_phrases t = true) as Habs; [|congruence].
      apply any_in_Exists. do 2 apply Exists_cons_tl. apply Exists_cons_hd.
      by apply (contains_trans _ "what do you mean by"). }
    unfold Py.any_in, example_phrases. simpl. rewrite Hby, !orb_false_r.
    destruct (Py.contains "example" t) eqn:He; simpl; [done|].
    replace (Py.contains "give me an example" t) with false; [done|].
    symmetry. apply not_true_is_false. intros Hc.
    assert (Py.contains "example" t = true) as Habs; [|congruence].
    by apply (contains_trans _ "give me an example").
  - intros g u q -> Hc. unfold process_user_input.
    destruct (Py.any_in repeat_phrases _).
    { apply list_elem_of_In. simpl. tauto. }
    replace (Py.any_in clarify_phrases (Py.strip (Py.lower u))) with true.
    { apply list_elem_of_In. simpl. tauto. }
    symmetry. apply any_in_Exists. do 2 apply Exists_cons_tl.
    apply Exists_cons_hd. by apply (contains_trans _ "what do you mean by").
Qed.

Lemma redundant_phrases_witness :
  action (process_user_input gateway_down "What do you mean by scalable?"
            "Tell me about scaling")
    ∈ ["repeat_question"; "clarify_question"].
Proof.
  refine (proj2 (proj2 (redundant_phrases
                          (Py.strip (Py.lower "What do you mean by scalable?"))))
            gateway_down _ _ eq_refl _).
  reflexivity.
Defined.

(** X10. An utterance of fewer than three words never reaches the answer
    analysis: its result does not depend on what the gateway would judge,
    its action is one of the five meta actions or encourage_elaboration,
    and it always asks to keep listening. *)
Theorem short_utterance_not_analysed (g : Gateway) (u q : string) :
  List.length (Py.split u) < 3 ->
  action (process_user_input g u q)
    ∈ ["repeat_question"; "clarify_question"; "skip_question"; "adjust_pace";
       "provide_example"; "encourage_elaboration"]
  /\ continue_listening (process_user_input g u q) = true
  /\ (forall g',
        clarify_text g' = clarify_text g ->
        example_text g' = example_text g ->
        process_user_input g' u q = process_user_input g u q).
Proof.
  intros Hshort. apply Nat.ltb_lt in Hshort.
  unfold process_user_input, _clarify_question, _provide_example.
  rewrite Hshort.
  destruct (Py.any_in repeat_phrases _).
  { repeat split. apply list_elem_of_In. simpl. tauto. }
  destruct (Py.any_in clarify_phrases _).
  { repeat split; [apply list_elem_of_In; simpl; tauto|].
    intros g' -> _. done. }
  destruct (Py.any_in skip_phrases _).
  { repeat split. apply list_elem_of_In. simpl. tauto. }
  destruct (Py.any_in pace_phrases _).
  { repeat split. apply list_elem_of_In. simpl. tauto. }
  destruct (Py.any_in example_phrases _).
  { repeat split; [apply list_elem_of_In; simpl; tauto|].
    intros g' _ ->. done. }
  repeat split. apply list_elem_of_In. simpl. tauto.
Qed.

Lemma short_utterance_not_analysed_witness :
  continue_listening (process_user_input gateway_down "yes please" "Q") = true.
Proof.
  refine (proj1 (proj2 (short_utterance_not_analysed gateway_down "yes please"
                          "Q" _))).
  simpl. lia.
Defined.

End ClassifierFacts.

Section Offline.
Import ConversationManager VoiceInterviewManager.

Lemma resolved_offline_long (w : World) (u : string) (q : Question) :
  answer_judgment (gateway w) = None ->
  phrase_match u = false ->
  15 <= List.length (Py.split u) ->
  Py.any_in wrong_indicators (Py.lower u) = false ->
  resolved w u q
  = _fallback_intelligent_analysis u (question_text q)
  /\ verdict (resolved w u q) = ("continue", Some "good", false)
  /\ branch (resolved w u q) = BFinish.
Proof.
  intros Hg Hp Hlen Hunc. unfold phrase_match in Hp. cbv zeta in Hp.
  apply orb_false_iff in Hp as [Hp Hex].
  apply orb_false_iff in Hp as [Hp Hpace].
  apply orb_false_iff in Hp as [Hp Hskip].
  apply orb_false_iff in Hp as [Hrep Hclar].
  assert (resolved w u q = _fallback_intelligent_analysis u (question_text q))
    as Hres.
  { unfold resolved, process_user_input.
    rewrite Hrep, Hclar, Hskip, Hpace, Hex.
    replace (List.length (Py.split u) <? 3)%nat with false
      by (symmetry; apply Nat.ltb_ge; lia).
    unfold _analyze_answer_intelligently. by rewrite Hg. }
  split; [done|]. rewrite Hres.
  unfold _fallback_intelligent_analysis. rewrite Hunc.
  replace (List.length (Py.split u) <? 5)%nat with false
    by (symmetry; apply Nat.ltb_ge; lia).
  replace (List.length (Py.split u) <? 15)%nat with false
    by (symmetry; apply Nat.ltb_ge; lia).
  split; reflexivity.
Qed.

(** X11. With the gateway failing, an answer of at least 15 words that
    matches no phrase list and holds no uncertainty marker finishes the
    question in one turn: the turn appends one record for the current
    question, with the answer, the response time and quality "good", to the
    stored responses (when the store takes the push), and advances the
    index by one. *)
Theorem offline_long_answer_finishes (s : System) (interview_id : string)
    (d : InterviewData) (q : Question) (w : World) (u : string) (t : Z) :
  reachable s ->
  active_interviews s !! interview_id = Some d ->
  questions d !! current_question_index d = Some q ->
  answer_judgment (gateway w) = None ->
  phrase_match u = false ->
  15 <= List.length (Py.split u) ->
  Py.any_in wrong_indicators (Py.lower u) = false ->
  push_ok w = true ->
  exists rd s' rec,
    process_voice_response w interview_id u t s = (s', TurnOk rd)
    /\ responses_of s' interview_id = grow [rec] (responses_of s interview_id)
    /\ r_question_id rec = q_id q
    /\ r_user_response rec = u
    /\ r_response_time rec = t
    /\ r_conversation_quality rec = "good"
    /\ advances w u d q = true
    /\ (forall d', active_interviews s' !! interview_id = Some d' ->
          current_question_index d' = current_question_index d + 1).
Proof.
  intros Hr Hd Hq Hg Hp Hlen Hunc Hpush.
  destruct (reachable_table_ok s Hr _ _ Hd) as (_ & _ & _ & Hv).
  destruct (resolved_offline_long w u q Hg Hp Hlen Hunc) as (_ & Hver & Hb).
  rewrite (pvr_unfold w interview_id u t d q s Hd Hq).
  pose proof (turn_own w interview_id u t d q s) as Ho.
  destruct (process_turn w interview_id u t d q s) as [[d1 rd] s'].
  cbn [fst snd]. rewrite Hb, Hv, Hpush in Ho.
  destruct Ho as (Hres & Htab & _ & _ & Hfin).
  eexists _, s', (record_of w q u t). split; [reflexivity|].
  split; [exact Hres|]. repeat split.
  - unfold record_of. simpl. injection Hver as _ Hq' _. by rewrite Hq'.
  - unfold advances. by rewrite Hb.
  - intros d' Hd'. destruct Htab as [Htab|Htab]; [|congruence].
    rewrite Htab in Hd'. injection Hd' as <-. by apply Hfin.
Qed.

Lemma offline_long_answer_finishes_witness :
  exists rd s' rec,
    process_voice_response (calm 2) sample_id long_answer 30 started
    = (s', TurnOk rd)
    /\ responses_of s' sample_id = grow [rec] (responses_of started sample_id)
    /\ r_conversation_quality rec = "good".
Proof.
  destruct (offline_long_answer_finishes started sample_id started_entry
              hash_question (calm 2) long_answer 30 started_reachable
              started_lookup eq_refl eq_refl eq_refl)
    as (rd & s' & rec & Hp & Hres & _ & _ & _ & Hq & _).
  - vm_compute. lia.
  - reflexivity.
  - reflexivity.
  - exists rd, s', rec. split; [exact Hp|]. split; [exact Hres|exact Hq].
Defined.

End Offline.

(** * Properties of the response analyzer *)

Section AnalyzerFacts.
Import ResponseAnalyzer.

(** X12. The fallback analysis depends on the word count of the answer
    only, and never scores a longer answer lower: completeness, clarity and
    depth are non-decreasing in the word count and lie between 2 and 9,
    accuracy and relevance are always 7. A follow-up is asked for exactly
    when the answer has fewer than 20 words, exactly then a follow-up text
    is suggested, and whenever a follow-up is asked for an area for
    improvement is named. *)
Theorem fallback_analysis_monotone (a b : string) :
  let words s := List.length (Py.split s) in
  let fa := _fallback_analysis a in
  let fb := _fallback_analysis b in
  (words a = words b -> fa = fb)
  /\ (words a <= words b ->
      (completeness_score fa <= completeness_score fb)%Z
      /\ (clarity_score fa <= clarity_score fb)%Z
      /\ (depth_score fa <= depth_score fb)%Z)
  /\ (2 <= depth_score fa <= completeness_score fa)%Z
  /\ (completeness_score fa <= 9)%Z
  /\ (2 <= clarity_score fa <= 9)%Z
  /\ accuracy_score fa = 7%Z /\ relevance_score fa = 7%Z
  /\ (follow_up_needed fa = true <-> words a < 20)
  /\ (suggested_follow_up fa <> "" <-> words a < 20)
  /\ (areas_for_improvement fa <> [] <-> words a < 30)
  /\ (follow_up_needed fa = true -> areas_for_improvement fa <> []).
Proof.
  intros words fa fb. subst fa fb. unfold _fallback_analysis.
  fold (words a). fold (words b).
  split; [by intros ->|]. split.
  { intros Hle.
    destruct (words a <? 10)%nat eqn:A10; destruct (words a <? 30)%nat eqn:A30;
      destruct (words a <? 60)%nat eqn:A60;
      destruct (words b <? 10)%nat eqn:B10; destruct (words b <? 30)%nat eqn:B30;
      destruct (words b <? 60)%nat eqn:B60; simpl;
      repeat match goal with
             | H : (_ <? _)%nat = true |- _ => apply Nat.ltb_lt in H
             | H : (_ <? _)%nat = false |- _ => apply Nat.ltb_ge in H
             end; lia. }
  destruct (words a <? 10)%nat eqn:A10; destruct (words a <? 20)%nat eqn:A20;
    destruct (words a <? 30)%nat eqn:A30; destruct (words a <? 60)%nat eqn:A60;
    simpl;
    repeat match goal with
           | H : (_ <? _)%nat = true |- _ => apply Nat.ltb_lt in H
           | H : (_ <? _)%nat = false |- _ => apply Nat.ltb_ge in H
           end;
    try lia;
    repeat split; try lia; try done; try (intros; lia); try (intros; congruence).
Qed.

Lemma fallback_analysis_monotone_witness :
  (completeness_score (_fallback_analysis "short answer")
   <= completeness_score (_fallback_analysis long_answer))%Z.
Proof.
  refine (proj1 (proj1 (proj2 (fallback_analysis_monotone "short answer"
                                 long_answer)) _)).
  vm_compute. lia.
Defined.

(** X13. When the gateway answers with text that holds no object, the
    analysis is the fallback of the empty answer, the same for every
    answer: completeness 3, clarity 4, depth 2 and a follow-up asked for.
    Only when the gateway call itself fails is the answer's own length
    scored. An object found in the text is returned as it is. *)
Theorem unparseable_analysis_ignores_answer (J : Type) (question u : string)
    (points : list string) :
  analyze_response (@Text J None) question u points
  = FromFallback (_fallback_analysis "")
  /\ completeness_score (_fallback_analysis "") = 3%Z
  /\ clarity_score (_fallback_analysis "") = 4%Z
  /\ depth_score (_fallback_analysis "") = 2%Z
  /\ follow_up_needed (_fallback_analysis "") = true
  /\ analyze_response (@Raises J) question u points
     = FromFallback (_fallback_analysis u)
  /\ (60 <= List.length (Py.split u) ->
      completeness_score (_fallback_analysis u) = 9%Z
      /\ follow_up_needed (_fallback_analysis u) = false)
  /\ (forall j : J, analyze_response (Text (Some j)) question u points
                    = FromGateway j).
Proof.
  assert (60 <= List.length (Py.split u) ->
          (List.length (Py.split u) <? 10)%nat = false
          /\ (List.length (Py.split u) <? 20)%nat = false
          /\ (List.length (Py.split u) <? 30)%nat = false
          /\ (List.length (Py.split u) <? 60)%nat = false) as Hlong.
  { intros Hlen. repeat split; apply Nat.ltb_ge; lia. }
  split; [reflexivity|]. split; [reflexivity|]. split; [reflexivity|].
  split; [reflexivity|]. split; [reflexivity|]. split; [reflexivity|].
  split; [|reflexivity].
  intros Hlen. destruct (Hlong Hlen) as (H10 & H20 & H30 & H60).
  unfold _fallback_analysis. rewrite H10, H20, H30, H60. by split.
Qed.

Lemma unparseable_analysis_ignores_answer_witness :
  analyze_response (@Text unit None) "Q" long_answer []
  = analyze_response (@Text unit None) "Q" "" [].
Proof.
  rewrite (proj1 (unparseable_analysis_ignores_answer unit "Q" long_answer [])).
  rewrite (proj1 (unparseable_analysis_ignores_answer unit "Q" "" [])).
  reflexivity.
Defined.

End AnalyzerFacts.

(** * Properties of the further routes *)

Section QuestionLookup.
Import MoreRoutes.

(** X14. Reading question [i] of a stored session of [n] questions: for
    [0 <= i < n] the answer is question [i], numbered [i + 1], marked last
    exactly when [i = n - 1]; for [i >= n] the answer is "no more
    questions"; a negative [i] down to [-n] is not refused but answers with
    the question counted from the end, a question number of at most 0 and
    the last mark unset; below [-n] the answer is a 500. *)
Theorem question_lookup_bounds (w : World) (interview_id : string) (i : Z)
    (s : System) (doc : InterviewDoc) :
  ObjectId_valid interview_id = true ->
  find_ok w = true ->
  db s !! ObjectId interview_id = Some doc ->
  let n := List.length (doc_questions doc) in
  let answer := get_current_question w interview_id i s in
  ((0 <= i < Z.of_nat n)%Z ->
   exists q, doc_questions doc !! Z.to_nat i = Some q
     /\ answer = JSONResponse
                   (CurrentQuestion q (i + 1) n
                      (bool_decide (i = Z.of_nat n - 1)%Z)))
  /\ ((Z.of_nat n <= i)%Z -> answer = JSONResponse NoMoreQuestions)
  /\ ((- Z.of_nat n <= i < 0)%Z ->
      exists q, doc_questions doc !! Z.to_nat (Z.of_nat n + i) = Some q
        /\ answer = JSONResponse (CurrentQuestion q (i + 1) n false)
        /\ (i + 1 <= 0)%Z)
  /\ ((i < - Z.of_nat n)%Z ->
      answer = HTTPException 500 "list index out of range").
Proof.
  intros Hv Hf Hdoc n answer. subst answer.
  unfold get_current_question. rewrite Hv, Hf, Hdoc. cbn [andb].
  fold n. repeat split.
  - intros Hi.
    replace (Z.of_nat n <=? i)%Z with false by (symmetry; apply Z.leb_gt; lia).
    unfold py_index.
    replace (0 <=? i)%Z with true by (symmetry; apply Z.leb_le; lia).
    destruct (lookup_lt_is_Some_2 (doc_questions doc) (Z.to_nat i)) as [q Hq];
      [fold n; lia|].
    exists q. split; [done|]. rewrite Hq. do 2 f_equal.
    case_bool_decide; [by apply Z.eqb_eq|by apply Z.eqb_neq].
  - intros Hi.
    by replace (Z.of_nat n <=? i)%Z with true by (symmetry; apply Z.leb_le; lia).
  - intros Hi.
    replace (Z.of_nat n <=? i)%Z with false by (symmetry; apply Z.leb_gt; lia).
    unfold py_index. fold n.
    replace (0 <=? i)%Z with false by (symmetry; apply Z.leb_gt; lia).
    replace (- Z.of_nat n <=? i)%Z with true by (symmetry; apply Z.leb_le; lia).
    destruct (lookup_lt_is_Some_2 (doc_questions doc)
                (Z.to_nat (Z.of_nat n + i))) as [q Hq]; [fold n; lia|].
    exists q. split; [done|]. rewrite Hq. split; [|lia]. do 2 f_equal.
    apply Z.eqb_neq. lia.
  - intros Hi.
    replace (Z.of_nat n <=? i)%Z with false by (symmetry; apply Z.leb_gt; lia).
    unfold py_index. fold n.
    replace (0 <=? i)%Z with false by (symmetry; apply Z.leb_gt; lia).
    by replace (- Z.of_nat n <=? i)%Z with false
      by (symmetry; apply Z.leb_gt; lia).
Qed.

Lemma question_lookup_bounds_witness :
  get_current_question (calm 1) sample_id (-1) boot
  = JSONResponse (CurrentQuestion team_question 0 2 false).
Proof.
  destruct (question_lookup_bounds (calm 1) sample_id (-1) boot sample_doc
              eq_refl eq_refl eq_refl) as (_ & _ & H & _).
  destruct H as (q & Hq & Ha & _); [simpl; lia|].
  rewrite Ha. simpl in Hq. injection Hq as <-. reflexivity.
Defined.

End QuestionLookup.

Section Extractors.
Import MoreRoutes.

Lemma rstrip_idem (s : string) : Py.rstrip (Py.rstrip s) = Py.rstrip s.
Proof.
  induction s as [|c s IH]; [done|].
  cbn [Py.rstrip]. destruct (Py.rstrip s) as [|d r] eqn:Hr.
  - destruct (Py.isspace c) eqn:Hc; [done|]. cbn [Py.rstrip]. by rewrite Hc.
  - cbn [Py.rstrip] in *. by rewrite IH.
Qed.

Lemma lstrip_head (s : string) :
  Py.lstrip s = EmptyString
  \/ exists c r, Py.lstrip s = String c r /\ Py.isspace c = false.
Proof.
  induction s as [|c s IH]; [by left|].
  cbn [Py.lstrip]. destruct (Py.isspace c) eqn:Hc; [done|].
  right. by exists c, s.
Qed.

Lemma rstrip_head (c : ascii) (r : string) :
  Py.isspace c = false -> exists r', Py.rstrip (String c r) = String c r'.
Proof.
  intros Hc. cbn [Py.rstrip]. destruct (Py.rstrip r) as [|d r'].
  - rewrite Hc. by exists EmptyString.
  - by exists (String d r').
Qed.

Lemma strip_idem (s : string) : Py.strip (Py.strip s) = Py.strip s.
Proof.
  unfold Py.strip. destruct (lstrip_head s) as [->|(c & r & -> & Hc)]; [done|].
  destruct (rstrip_head c r Hc) as [r' Hr]. rewrite Hr at 1.
  cbn [Py.lstrip]. rewrite Hc, <- Hr. apply rstrip_idem.
Qed.

Lemma split_lines_nonempty (text : string) : split_lines text <> [].
Proof.
  destruct text as [|c text]; [done|]. cbn [split_lines].
  destruct (Ascii.eqb c "010"); [done|]. by destruct (split_lines text).
Qed.

Lemma split_lines_app (a b : string) :
  split_lines (a ++ String "010" b) = (split_lines a ++ split_lines b)%list.
Proof.
  induction a as [|c a IH].
  - by rewrite string_nil_app.
  - rewrite string_cons_app. cbn [split_lines]. rewrite IH.
    destruct (Ascii.eqb c "010"); [done|].
    pose proof (split_lines_nonempty a) as Hne.
    by destruct (split_lines a).
Qed.

Lemma take_app_take {A : Type} (n : nat) (l1 l2 : list A) :
  take n (l1 ++ l2)%list = take n (take n l1 ++ take n l2)%list.
Proof.
  destruct (decide (n <= List.length l1)) as [Hle|Hgt].
  - rewrite take_app_le by done.
    rewrite take_app_le by (rewrite length_take; lia).
    rewrite take_take. f_equal. lia.
  - rewrite (take_ge l1) by lia. rewrite !take_app_ge by lia.
    rewrite take_take. do 2 f_equal. lia.
Qed.

Lemma picked_lines (k : nat) (P : string -> bool) (text e : string) :
  e ∈ take k (filter (fun line => P line = true) (Py.strip <$> split_lines text)) ->
  (exists line, line ∈ split_lines text /\ e = Py.strip line)
  /\ Py.strip e = e /\ P e = true.
Proof.
  intros He. apply elem_of_take in He as (i & He & _).
  apply list_elem_of_lookup_2, list_elem_of_filter in He as [HP He].
  apply list_elem_of_fmap in He as (line & -> & Hl).
  repeat split; [by exists line|apply strip_idem|done].
Qed.

Lemma picked_app (k : nat) (P : string -> bool) (a b : string) :
  take k (filter (fun line => P line = true)
            (Py.strip <$> split_lines (a ++ String "010" b)))
  = take k (take k (filter (fun line => P line = true)
                      (Py.strip <$> split_lines a))
            ++ take k (filter (fun line => P line = true)
                         (Py.strip <$> split_lines b)))%list.
Proof. by rewrite split_lines_app, fmap_app, filter_app, take_app_take. Qed.

(** X15. What the two extractors return: at most five experience lines and
    at most three education lines. Every experience line is a line of the
    text with the surrounding whitespace removed, is longer than 30
    characters, holds an experience keyword and no education word, in any
    letter case; every education line is a stripped line of the text longer
    than 15 characters that holds an education keyword. *)
Theorem extracted_lines_sound (text : string) :
  List.length (extract_experience text) <= 5
  /\ List.length (extract_education text) <= 3
  /\ (forall e, e ∈ extract_experience text ->
        (exists line, line ∈ split_lines text /\ e = Py.strip line)
        /\ Py.strip e = e
        /\ 30 < String.length e
        /\ Py.any_in experience_keywords (Py.lower e) = true
        /\ Py.any_in education_words (Py.lower e) = false)
  /\ (forall e, e ∈ extract_education text ->
        (exists line, line ∈ split_lines text /\ e = Py.strip line)
        /\ Py.strip e = e
        /\ 15 < String.length e
        /\ Py.any_in edu_keywords (Py.lower e) = true).
Proof.
  split; [unfold extract_experience; rewrite length_take; lia|].
  split; [unfold extract_education; rewrite length_take; lia|].
  split.
  - intros e He. apply picked_lines in He as (Hl & Hs & HP).
    unfold is_experience in HP.
    apply andb_true_iff in HP as [HP Hedu].
    apply andb_true_iff in HP as [Hlen Hkey].
    apply Nat.ltb_lt in Hlen. apply negb_true_iff in Hedu. done.
  - intros e He. apply picked_lines in He as (Hl & Hs & HP).
    unfold is_education in HP.
    apply andb_true_iff in HP as [Hlen Hkey].
    apply Nat.ltb_lt in Hlen. done.
Qed.

(** X16. The extractors read a text part by part and stop at their cap: for
    a text made of two parts joined by a line break the result is the first
    five (three) of the results of the parts, in that order; so once the
    first part has given five experience lines, nothing that follows it is
    looked at. *)
Theorem extraction_composes (a b : string) :
  extract_experience (a ++ String "010" b)
  = take 5 (extract_experience a ++ extract_experience b)%list
  /\ extract_education (a ++ String "010" b)
     = take 3 (extract_education a ++ extract_education b)%list
  /\ (List.length (extract_experience a) = 5 ->
      extract_experience (a ++ String "010" b) = extract_experience a)
  /\ (List.length (extract_education a) = 3 ->
      extract_education (a ++ String "010" b) = extract_education a).
Proof.
  assert (extract_experience (a ++ String "010" b)
          = take 5 (extract_experience a ++ extract_experience b)%list) as He
    by apply picked_app.
  assert (extract_education (a ++ String "010" b)
          = take 3 (extract_education a ++ extract_education b)%list) as Hd
    by apply picked_app.
  repeat split; [done|done| |].
  - intros Hlen. rewrite He, take_app_le by lia. apply take_ge. lia.
  - intros Hlen. rewrite Hd, take_app_le by lia. apply take_ge. lia.
Qed.

End Extractors.

(** * Properties of the skill extractor *)

Section SkillFacts.
Import Skills.

Lemma names_separate_spec (k k' : string) :
  k ∈ all_skills -> k' ∈ all_skills ->
  Py.lower k = k /\ (title k = title k' -> k = k').
Proof.
  intros Hk Hk'.
  assert (names_separate = true) as H by (vm_compute; reflexivity).
  unfold names_separate in H. rewrite forallb_forall in H.
  apply list_elem_of_In in Hk, Hk'.
  specialize (H k Hk). apply andb_true_iff in H as [Hl H].
  apply String.eqb_eq in Hl. split; [done|].
  rewrite forallb_forall in H. specialize (H k' Hk').
  intros Ht. apply String.eqb_eq in Ht. rewrite Ht in H. simpl in H.
  by apply String.eqb_eq.
Qed.

Lemma skill_found (text k : string) :
  k ∈ all_skills ->
  title k ∈ extract_skills text <-> Py.contains k (Py.lower text) = true.
Proof.
  intros Hk. unfold extract_skills, found_skills.
  rewrite elem_of_list_to_set, list_elem_of_fmap. split.
  - intros (k' & Ht & Hin). apply list_elem_of_filter in Hin as [Hc Hk'].
    destruct (names_separate_spec k' k Hk' Hk) as [Hl Hinj].
    rewrite Hl in Hc. by rewrite (Hinj (eq_sym Ht)) in Hc.
  - intros Hc. exists k. split; [done|]. apply list_elem_of_filter.
    split; [|done]. destruct (names_separate_spec k k Hk Hk) as [Hl _].
    by rewrite Hl.
Qed.

(** X17. A skill of the list is reported, under its title-cased name,
    exactly when its name occurs anywhere in the lower-cased text, and
    nothing else is reported. Occurrence is by substring, so a name nested
    in another one is reported along with it: every text that yields
    Javascript also yields Java, Mongodb and Django yield Go, Fastapi yields
    Api, Gitlab and Github yield Git. *)
Theorem skills_found_by_substring (text : string) :
  (forall k, k ∈ all_skills ->
     title k ∈ extract_skills text <-> Py.contains k (Py.lower text) = true)
  /\ (forall s, s ∈ extract_skills text ->
        exists k, k ∈ all_skills /\ s = title k)
  /\ (forall outer inner, (outer, inner) ∈ nested_skills ->
        outer ∈ all_skills /\ inner ∈ all_skills
        /\ (title outer ∈ extract_skills text ->
            title inner ∈ extract_skills text)).
Proof.
  split; [intros k Hk; by apply skill_found|]. split.
  - intros s Hs. unfold extract_skills, found_skills in Hs.
    rewrite elem_of_list_to_set, list_elem_of_fmap in Hs.
    destruct Hs as (k & -> & Hin). apply list_elem_of_filter in Hin as [_ Hk].
    by exists k.
  - intros outer inner Hpair.
    assert (outer ∈ all_skills /\ inner ∈ all_skills
            /\ Py.contains inner outer = true) as (Ho & Hi & Hsub).
    { apply list_elem_of_In in Hpair. simpl in Hpair.
      repeat (destruct Hpair as [[= <- <-]|Hpair];
              [split; [|split]; [apply list_elem_of_In; simpl; tauto
                                |apply list_elem_of_In; simpl; tauto
                                |vm_compute; reflexivity]|]).
      done. }
    split; [done|]. split; [done|].
    rewrite !skill_found by done. intros Hc.
    by apply (contains_trans inner outer).
Qed.

End SkillFacts.

(** * Properties of the question generator *)

Section GeneratorFacts.
Import AIQuestionGenerator.

Ltac sublist_search :=
  repeat first [apply sublist_nil_l | apply sublist_skip | apply sublist_cons].

Ltac part_solve :=
  split; [vm_compute; sublist_search
         |split; [simpl; lia|repeat constructor]].

Lemma technical_part (gw : QuestionGateway) (sk : list string)
    (d : DifficultyLevel) :
  part_ok TECHNICAL d 3
    ["tech_0"; "tech_1"; "tech_2"; "tech_fallback_0"; "tech_fallback_1"]
    (_generate_technical_questions gw sk d).
Proof.
  unfold _generate_technical_questions.
  destruct sk as [|s1 sk]; [part_solve|].
  destruct (technical_reply gw) as [|[|a [|b [|c data]]]].
  - unfold _fallback_technical_questions.
    destruct sk as [|s2 sk]; destruct d; part_solve.
  - part_solve.
  - part_solve.
  - part_solve.
  - part_solve.
Qed.

Lemma behavioral_part (gw : QuestionGateway) (d : DifficultyLevel) :
  part_ok BEHAVIORAL d 3
    ["behavioral_0"; "behavioral_1"; "behavioral_2"; "behavioral_fallback_0";
     "behavioral_fallback_1"; "behavioral_fallback_2"]
    (_generate_behavioral_questions gw d).
Proof.
  unfold _generate_behavioral_questions.
  destruct (behavioral_reply gw) as [|[|a [|b [|c data]]]].
  - destruct d; part_solve.
  - part_solve.
  - part_solve.
  - part_solve.
  - part_solve.
Qed.

Lemma experience_part (gw : QuestionGateway) (ex : list string)
    (d : DifficultyLevel) :
  part_ok EXPERIENCE d 2
    ["exp_0"; "exp_1"; "exp_fallback_0"; "exp_fallback_1"]
    (_generate_experience_questions gw ex d).
Proof.
  unfold _generate_experience_questions.
  destruct ex as [|e1 ex]; [part_solve|].
  destruct (experience_reply gw) as [|[|a [|b data]]].
  - unfold _fallback_experience_questions.
    destruct ex as [|e2 ex]; part_solve.
  - part_solve.
  - part_solve.
  - part_solve.
Qed.

Lemma part_requested (type : QuestionType) (d : DifficultyLevel) (cap : nat)
    (ids : list string) (types : list QuestionType) (part : list Question) :
  part_ok type d cap ids part ->
  part_ok type d cap ids (if type_in type types then part else [])
  /\ Forall (fun q => type_in type types = true)
       (if type_in type types then part else []).
Proof.
  intros H. destruct (type_in type types).
  - split; [done|]. by apply Forall_forall.
  - split; [|constructor]. split; [apply sublist_nil_l|].
    split; [simpl; lia|constructor].
Qed.

Lemma py_prefix_take {A : Type} (n : Z) (l : list A) :
  exists k, py_prefix n l = take k l /\ ((0 <= n)%Z -> k = Z.to_nat n).
Proof.
  unfold py_prefix. destruct (0 <=? n)%Z eqn:Hn.
  - by exists (Z.to_nat n).
  - exists (List.length l - Z.to_nat (- n)). split; [done|].
    apply Z.leb_gt in Hn. lia.
Qed.

Lemma all_ids_NoDup : NoDup all_ids.
Proof. apply (bool_decide_unpack _). vm_compute. reflexivity. Qed.

(** X18. Whatever the gateway replies, the generated questions have
    pairwise distinct identifiers, are at most eight, and at most
    [num_questions] when that is not negative; each one carries the
    requested difficulty and one of the requested types, and none is
    situational. *)
Theorem generated_questions_wellformed (gw : QuestionGateway)
    (resume_data : ResumeData) (config : InterviewConfig) :
  let generated := generate_questions gw resume_data config in
  NoDup (q_id <$> generated)
  /\ List.length generated <= 8
  /\ ((0 <= num_questions config)%Z ->
      List.length generated <= Z.to_nat (num_questions config))
  /\ Forall (fun q =>
               difficulty q = difficulty_value (config_difficulty config)
               /\ exists type,
                    type_in type (question_types config) = true
                    /\ type <> SITUATIONAL
                    /\ question_type q = type_value type) generated.
Proof.
  intros generated. subst generated. unfold generate_questions.
  set (d := config_difficulty config). set (types := question_types config).
  destruct (part_requested _ _ _ _ types _
              (technical_part gw (skills resume_data) d))
    as ((Ti & Tl & Tf) & Tr).
  destruct (part_requested _ _ _ _ types _ (behavioral_part gw d))
    as ((Bi & Bl & Bf) & Br).
  destruct (part_requested _ _ _ _ types _
              (experience_part gw (experience resume_data) d))
    as ((Ei & El & Ef) & Er).
  set (T := if type_in TECHNICAL types then _ else _) in *.
  set (B := if type_in BEHAVIORAL types then _ else _) in *.
  set (E := if type_in EXPERIENCE types then _ else _) in *.
  destruct (py_prefix_take (num_questions config) (T ++ B ++ E)%list)
    as (k & -> & Hk).
  split; [|split; [|split]].
  - rewrite fmap_take. eapply sublist_NoDup; [apply all_ids_NoDup|].
    etrans; [apply sublist_take|]. rewrite !fmap_app.
    change all_ids with
      (["tech_0"; "tech_1"; "tech_2"; "tech_fallback_0"; "tech_fallback_1"]
       ++ ["behavioral_0"; "behavioral_1"; "behavioral_2";
           "behavioral_fallback_0"; "behavioral_fallback_1";
           "behavioral_fallback_2"]
       ++ ["exp_0"; "exp_1"; "exp_fallback_0"; "exp_fallback_1"])%list.
    by repeat apply sublist_app.
  - rewrite length_take, !length_app. lia.
  - intros Hn. rewrite length_take, (Hk Hn). lia.
  - apply Forall_take. repeat apply Forall_app_2.
    + eapply Forall_impl; [apply Forall_and; split; [apply Tf|apply Tr]|].
      intros q [[Hty Hd] Hin]. split; [done|]. by exists TECHNICAL.
    + eapply Forall_impl; [apply Forall_and; split; [apply Bf|apply Br]|].
      intros q [[Hty Hd] Hin]. split; [done|]. by exists BEHAVIORAL.
    + eapply Forall_impl; [apply Forall_and; split; [apply Ef|apply Er]|].
      intros q [[Hty Hd] Hin]. split; [done|]. by exists EXPERIENCE.
Qed.

End GeneratorFacts.

Section FallbackFacts.
Import AIQuestionGenerator.

Lemma py_prefix_length {A : Type} (n : Z) (l : list A) :
  List.length (py_prefix n l)
  = if (0 <=? n)%Z then Nat.min (Z.to_nat n) (List.length l)
    else List.length l - Z.to_nat (- n).
Proof.
  unfold py_prefix. destruct (0 <=? n)%Z; rewrite length_take; lia.
Qed.

Lemma technical_fallback_length (sk : list string) (d : DifficultyLevel) :
  List.length (_generate_technical_questions failing sk d)
  = Nat.min 2 (List.length sk).
Proof.
  unfold _generate_technical_questions, _fallback_technical_questions.
  destruct sk as [|s1 [|s2 sk]]; [done| |]; by destruct d.
Qed.

Lemma experience_fallback_length (ex : list string) (d : DifficultyLevel) :
  List.length (_generate_experience_questions failing ex d)
  = Nat.min 2 (List.length ex).
Proof.
  unfold _generate_experience_questions, _fallback_experience_questions.
  destruct ex as [|e1 ex]; [done|]. simpl experience_reply. cbv iota.
  rewrite length_imap, length_take. done.
Qed.

(** X19. The fallback questions are used only when a gateway call fails,
    not when its reply cannot be read. When every reply holds no array, no
    question is generated at all, whatever the resume and the
    configuration. When every call fails, each requested type gives its
    fallback questions: one technical question for each of the first two
    skills, three behavioral questions, one experience question for each of
    the first two experience lines; a non-negative [num_questions] keeps
    that many from the front, a negative one drops that many from the
    end. *)
Theorem fallback_only_on_failure (resume_data : ResumeData)
    (config : InterviewConfig) :
  generate_questions silent resume_data config = []
  /\ List.length (generate_questions failing resume_data config)
     = (if (0 <=? num_questions config)%Z
        then Nat.min (Z.to_nat (num_questions config))
               (fallback_count resume_data (question_types config))
        else fallback_count resume_data (question_types config)
             - Z.to_nat (- num_questions config)).
Proof.
  split.
  - unfold generate_questions, _generate_technical_questions,
      _generate_behavioral_questions, _generate_experience_questions.
    simpl. destruct (skills resume_data), (experience resume_data);
      destruct (type_in TECHNICAL _), (type_in BEHAVIORAL _),
        (type_in EXPERIENCE _); simpl;
      unfold py_prefix; destruct (0 <=? _)%Z; simpl; by rewrite ?take_nil.
  - unfold generate_questions. rewrite py_prefix_length.
    assert (List.length
              ((if type_in TECHNICAL (question_types config)
                then _generate_technical_questions failing
                       (skills resume_data) (config_difficulty config)
                else [])
               ++ (if type_in BEHAVIORAL (question_types config)
                   then _generate_behavioral_questions failing
                          (config_difficulty config)
                   else [])
               ++ (if type_in EXPERIENCE (question_types config)
                   then _generate_experience_questions failing
                          (experience resume_data) (config_difficulty config)
                   else []))%list
            = fallback_count resume_data (question_types config)) as ->;
      [|done].
    rewrite !length_app. unfold fallback_count.
    destruct (type_in TECHNICAL _), (type_in BEHAVIORAL _),
      (type_in EXPERIENCE _);
      rewrite ?technical_fallback_length, ?experience_fallback_length;
      simpl; try (destruct (config_difficulty config); simpl); lia.
Qed.

End FallbackFacts.

(** * Creating a session and starting it *)

Section SessionFacts.
Import AIQuestionGenerator.

(** X20. Creating a session never looks at how many questions were
    generated: when the resume is found and the insertion succeeds, the new
    document holds exactly the generated questions with status ready, the
    answer reports their number, and nothing else in the table or the
    collection changes. Starting that session by voice then succeeds with
    the first generated question when there is one, and is refused with a
    500 when the generated list is empty. *)
Theorem generated_session_starts (w : World) (gw : QuestionGateway)
    (resumes : gmap string ResumeData) (id resume_id : string)
    (config : InterviewConfig) (s : System) (resume : ResumeData) :
  ObjectId_valid resume_id = true ->
  find_ok w = true ->
  resumes !! ObjectId resume_id = Some resume ->
  ObjectId_valid id = true ->
  let generated := generate_questions gw resume config in
  let created :=
    SessionRoutes.generate_questions w gw resumes (Some id) resume_id config s in
  created.2
  = JSONResponse
      {| SessionRoutes.gs_interview_id := ObjectId id;
         SessionRoutes.gs_questions := generated;
         SessionRoutes.gs_total_questions := List.length generated;
         SessionRoutes.gs_estimated_duration := duration_minutes config |}
  /\ db created.1 !! ObjectId id = Some (SessionRoutes.new_session generated)
  /\ (forall k, k <> ObjectId id -> db created.1 !! k = db s !! k)
  /\ active_interviews created.1 = active_interviews s
  /\ (forall w2, find_ok w2 = true -> set_ok w2 = true ->
        (Routes.start_voice_interview w2 id created.1).2
        = match generated with
          | [] => HTTPException 500
                    (exc_str w2 (HTTPExc 404 "Interview not found"))
          | first_question :: _ =>
              JSONResponse
                {| sr_message := "Voice interview started";
                   sr_current_question := first_question;
                   sr_question_index := 0;
                   sr_total_questions := List.length generated |}
          end).
Proof.
  intros Hv Hf Hres Hid generated created. subst created.
  unfold SessionRoutes.generate_questions. rewrite Hv, Hf, Hres.
  cbn [andb fst snd]. fold generated.
  split; [done|]. split; [simpl; by rewrite lookup_insert_eq|].
  split; [intros j Hj; simpl; by rewrite lookup_insert_ne|].
  split; [done|].
  intros w2 Hf2 Hs2.
  unfold Routes.start_voice_interview,
    VoiceInterviewManager.start_voice_interview.
  rewrite Hid, Hf2, Hs2. cbn [andb db]. rewrite lookup_insert_eq.
  cbn [SessionRoutes.new_session doc_questions].
  by destruct generated.
Qed.

Lemma generated_session_starts_witness :
  (Routes.start_voice_interview (calm 2) "000000000000000000000000"
     (SessionRoutes.generate_questions (calm 1) silent
        {[ sample_id := {| skills := ["python"]; experience := [] |} ]}
        (Some "000000000000000000000000") sample_id
        {| config_difficulty := ENTRY; duration_minutes := 20;
           question_types := [TECHNICAL; BEHAVIORAL]; num_questions := 5 |}
        boot).1).2
  = HTTPException 500 "Interview not found".
Proof.
  assert (({[ sample_id := {| skills := ["python"]; experience := [] |} ]}
             : gmap string ResumeData) !! sample_id
          = Some {| skills := ["python"]; experience := [] |}) as Hres
    by reflexivity.
  destruct (generated_session_starts (calm 1) silent _
              "000000000000000000000000" sample_id
              {| config_difficulty := ENTRY; duration_minutes := 20;
                 question_types := [TECHNICAL; BEHAVIORAL];
                 num_questions := 5 |}
              boot _ eq_refl eq_refl Hres eq_refl) as (_ & _ & _ & _ & H).
  exact (H (calm 2) eq_refl eq_refl).
Defined.

End SessionFacts.

(** * The turn controller: what a turn leaves in the table and in the answer *)

Section TurnOutcome.
Import VoiceInterviewManager.

(** A processed turn, seen from the caller: the answer, and the entry that
    the table holds for the session afterwards. *)
Lemma turn_outcome (w : World) (i u : string) (t : Z) (d : InterviewData)
    (q : Question) (s : System) :
  active_interviews s !! i = Some d ->
  questions d !! current_question_index d = Some q ->
  exists rd s',
    process_voice_response w i u t s = (s', TurnOk rd)
    /\ rd_conversation rd = conversation (entry_after w u d q)
    /\ if advances w u d q then
         match questions d !! (current_question_index d + 1) with
         | Some next_question =>
             active_interviews s' !! i = Some (entry_after w u d q)
             /\ rd_next_question rd = Some next_question
             /\ rd_question_index rd = Some (current_question_index d + 1)
             /\ rd_interview_completed rd = None
         | None =>
             rd_interview_completed rd = Some true
             /\ rd_next_question rd = None
             /\ s' = (complete_interview w i
                        (store_entry i (entry_after w u d q)
                           (store_before_move w i u t q s))).1
             /\ active_interviews s' !! i
                = (if ObjectId_valid i && set_ok w then None
                   else Some (entry_after w u d q))
         end
       else
         active_interviews s' !! i = Some (entry_after w u d q)
         /\ rd_next_question rd = None
         /\ rd_interview_completed rd = None.
Proof.
  intros Hd Hq. rewrite (pvr_unfold w i u t d q s Hd Hq).
  pose proof (turn_spec w i u t d q s) as H.
  pose proof (turn_entry w i u t d q s) as He.
  destruct (process_turn w i u t d q s) as [[d1 rd] s'].
  cbn [fst snd] in *. subst d1. destruct H as (_ & H).
  eexists _, _. split; [reflexivity|]. split; [reflexivity|].
  destruct (advances w u d q).
  - destruct H as (_ & _ & H).
    destruct (questions d !! (current_question_index d + 1)) as [nq|].
    + destruct H as (_ & Hn & Hi & Hc & ->). simpl.
      rewrite lookup_insert_eq. done.
    + destruct H as (_ & _ & Hc & Hn & ->). simpl rd_interview_completed.
      simpl rd_next_question. rewrite complete_after_store. done.
  - destruct H as (_ & _ & _ & Hn & Hc & ->). simpl.
    rewrite lookup_insert_eq. done.
Qed.

(** How an entry of the table comes about: it was there before the request,
    or it is what a processed turn of its session left, or it is the fresh
    entry of a start of its voice interview. *)
Lemma handle_entry_cases (w : World) (r : Request) (s : System) (i : string)
    (d' : InterviewData) :
  active_interviews (handle w r s) !! i = Some d' ->
  active_interviews s !! i = Some d'
  \/ (exists (u : string) t d q,
        r = ReqVoiceResponse i u t
        /\ active_interviews s !! i = Some d
        /\ questions d !! current_question_index d = Some q
        /\ d' = entry_after w u d q)
  \/ (r = ReqStartVoice i
      /\ exists doc, db s !! ObjectId i = Some doc /\ d' = fresh_entry w doc).
Proof.
  destruct (decide (request_id r = i)) as [<-|Hne].
  2:{ rewrite (handle_table_frame w r s i Hne). by left. }
  destruct r as [i|i|i|i [u|e] t|i]; cbn [handle request_id].
  - unfold Routes.start_interview. destruct (_ && _); [|by left].
    destruct (db s !! ObjectId i); by left.
  - unfold Routes.complete_interview. destruct (_ && _); [|by left].
    destruct (db s !! ObjectId i); by left.
  - unfold Routes.start_voice_interview, start_voice_interview.
    destruct (ObjectId_valid i && find_ok w); [|by left].
    destruct (db s !! ObjectId i) as [doc|] eqn:Hdoc; [|by left].
    intros H. right. right. split; [done|]. exists doc. split; [done|].
    revert H. unfold fresh_entry.
    destruct (doc_questions doc) as [|q0 qs].
    + simpl. rewrite lookup_insert_eq. by intros [= <-].
    + destruct (ObjectId_valid i && set_ok w); simpl;
        rewrite lookup_insert_eq; by intros [= <-].
  - unfold Routes.process_voice_response.
    destruct (Py.falsy (Py.strip u)); [by left|].
    destruct (active_interviews s !! i) as [d|] eqn:Hd.
    2:{ unfold process_voice_response. rewrite Hd. simpl. congruence. }
    destruct (questions d !! current_question_index d) as [q|] eqn:Hq.
    2:{ unfold process_voice_response. rewrite Hd, Hq. simpl.
        intros H. left. congruence. }
    destruct (turn_outcome w i u t d q s Hd Hq) as (rd & s' & -> & _ & H).
    cbn [fst]. intros Hd'. right. left. exists u, t, d, q.
    split; [done|]. split; [done|]. split; [done|].
    destruct (advances w u d q).
    + destruct (questions d !! (current_question_index d + 1)).
      * destruct H as (H & _). congruence.
      * destruct H as (_ & _ & _ & H). rewrite H in Hd'.
        destruct (_ && _); congruence.
    + destruct H as (H & _). congruence.
  - by left.
  - unfold Routes.complete_voice_interview, complete_interview.
    destruct (active_interviews s !! i) as [d|] eqn:Hd.
    2:{ simpl. congruence. }
    destruct (_ && _); simpl.
    + rewrite lookup_delete_eq. discriminate.
    + intros H. left. congruence.
Qed.

Lemma settled_after (w : World) (u : string) (d : InterviewData)
    (q : Question) :
  questions d !! current_question_index d = Some q ->
  entry_settled d -> entry_settled (entry_after w u d q).
Proof.
  intros Hq [Hst Hend]. apply lookup_lt_Some in Hq.
  unfold entry_settled, entry_after. simpl.
  destruct (advances w u d q).
  - destruct (questions d !! (current_question_index d + 1)) as [nq|] eqn:Hn.
    + split; [done|]. apply lookup_lt_Some in Hn. lia.
    + split; [by right|]. intros _. by left.
  - split; [done|]. lia.
Qed.

Lemma handle_settled (w : World) (r : Request) (s : System) :
  map_Forall (fun _ d => entry_settled d) (active_interviews s) ->
  map_Forall (fun _ d => entry_settled d) (active_interviews (handle w r s)).
Proof.
  intros Hs i d' Hd'.
  destruct (handle_entry_cases w r s i d' Hd')
    as [Hd|[(u & t & d & q & _ & Hd & Hq & ->)|(_ & doc & _ & ->)]].
  - by apply (Hs i).
  - apply settled_after; [done|]. by apply (Hs i).
  - split; [by left|]. simpl. intros H. right.
    destruct (doc_questions doc); [done|discriminate].
Qed.

Lemma reachable_settled (s : System) (i : string) (d : InterviewData) :
  reachable s -> active_interviews s !! i = Some d -> entry_settled d.
Proof.
  intros Hr. revert i d. induction Hr as [db0|w r s _ IH].
  - intros i d H. simpl in H. by rewrite lookup_empty in H.
  - intros i d. by apply (handle_settled w r s IH).
Qed.

End TurnOutcome.

(** * Index and completion *)

Section Completion.
Import VoiceInterviewManager.

(** C1, as stated, fails in its "exactly when". A start of the voice
    interview of a stored session without questions leaves an entry whose
    index equals the number of its questions (both 0) and whose status is
    active, in a reachable state. And the stored status of a session is set
    to completed by the complete route while the entry of the session is on
    its first question. *)
Lemma index_at_end_not_completed :
  (reachable empty_started
   /\ exists d, active_interviews empty_started !! sample_id = Some d
        /\ current_question_index d = List.length (questions d)
        /\ status d = active)
  /\ (reachable completed_early
      /\ (doc_status <$> db completed_early !! ObjectId sample_id)
         = Some completed
      /\ exists d, active_interviews completed_early !! sample_id = Some d
           /\ current_question_index d = 0
           /\ List.length (questions d) = 2
           /\ status d = active).
Proof.
  split.
  - split.
    + apply (reach_handle (calm 1) (ReqStartVoice sample_id) empty_boot).
      apply reach_boot.
    + eexists. split; [reflexivity|]. by split.
  - split.
    + apply (reachable_run _ boot). apply reach_boot.
    + split; [reflexivity|]. eexists. split; [reflexivity|]. by repeat split.
Qed.

(** C1, amended. In every reachable state every entry of the table has its
    question index at most the number of its questions; its status is
    completed only if the index has reached that number, and an entry whose
    index has reached it is completed unless it has no question at all (the
    entry that a start on a session without questions leaves); below that
    number the status is active. No turn is processed at the end of the
    questions: the call is refused and the state kept. A processed turn
    that advances past the last question reports the completion, ends the
    transcript with the completion event, leaves the entry completed with
    the index at the number of questions and calls teardown on it, which
    removes the entry when the store accepts the write; every other
    processed turn leaves the entry in the table, active, with an index
    below the number of questions. *)
Theorem index_bounded_and_completion (s : System) (interview_id : string)
    (d : InterviewData) :
  reachable s ->
  active_interviews s !! interview_id = Some d ->
  current_question_index d <= List.length (questions d)
  /\ (status d = completed ->
      current_question_index d = List.length (questions d))
  /\ (current_question_index d = List.length (questions d) ->
      status d = completed \/ questions d = [])
  /\ (current_question_index d < List.length (questions d) ->
      status d = active)
  /\ (current_question_index d = List.length (questions d) ->
      forall w (u : string) t,
        process_voice_response w interview_id u t s
        = (s, TurnError "No more questions available"))
  /\ (forall w (u : string) t q,
        questions d !! current_question_index d = Some q ->
        exists rd s',
          process_voice_response w interview_id u t s = (s', TurnOk rd)
          /\ if advances w u d q
                && bool_decide (current_question_index d + 1
                                = List.length (questions d))
             then
               rd_interview_completed rd = Some true
               /\ last (rd_conversation rd)
                  = Some (event Ev_ai_completion completion_message w None)
               /\ s' = (complete_interview w interview_id
                          (store_entry interview_id (entry_after w u d q)
                             (store_before_move w interview_id u t q s))).1
               /\ status (entry_after w u d q) = completed
               /\ current_question_index (entry_after w u d q)
                  = List.length (questions (entry_after w u d q))
               /\ active_interviews s' !! interview_id
                  = (if set_ok w then None else Some (entry_after w u d q))
             else
               exists d',
                 active_interviews s' !! interview_id = Some d'
                 /\ current_question_index d'
                    = (if advances w u d q then current_question_index d + 1
                       else current_question_index d)
                 /\ current_question_index d' < List.length (questions d')
                 /\ status d' = active
                 /\ rd_interview_completed rd = None).
Proof.
  intros Hr Hd.
  destruct (reachable_table_ok s Hr _ _ Hd) as (Hle & Hf & Hst & Hid).
  destruct (reachable_settled s interview_id d Hr Hd) as [Hact Hend].
  assert (current_question_index d < List.length (questions d) ->
          status d = active) as Hbelow.
  { intros Hlt. destruct Hact as [Ha|Hc]; [done|]. apply Hst in Hc. lia. }
  split; [done|]. split; [done|]. split; [done|]. split; [done|]. split.
  - intros Heq w u t. unfold process_voice_response. rewrite Hd.
    destruct (questions d !! current_question_index d) eqn:Hq; [|done].
    apply lookup_lt_Some in Hq. lia.
  - intros w u t q Hq.
    destruct (turn_outcome w interview_id u t d q s Hd Hq)
      as (rd & s' & Hp & Hconv & H).
    exists rd, s'. split; [done|].
    pose proof (lookup_lt_Some _ _ _ Hq) as Hlt.
    destruct (advances w u d q) eqn:Hadv; cbn [andb].
    + destruct (questions d !! (current_question_index d + 1)) as [nq|] eqn:Hn.
      * pose proof (lookup_lt_Some _ _ _ Hn) as Hn'.
        rewrite bool_decide_eq_false_2 by lia.
        destruct H as (Htab & _ & _ & Hc).
        exists (entry_after w u d q). split; [done|].
        unfold entry_after. rewrite Hadv, Hn. simpl.
        split; [done|]. split; [lia|]. split; [by apply Hbelow|done].
      * pose proof (proj1 (lookup_ge_None _ _) Hn) as Hn'.
        rewrite bool_decide_eq_true_2 by lia.
        destruct H as (Hc & _ & Hs' & Htab).
        rewrite Hid in Htab. cbn [andb] in Htab.
        split; [done|]. split.
        { rewrite Hconv. unfold entry_after, turn_events, advance_events.
          rewrite Hadv, Hn. simpl. by rewrite last_app. }
        split; [done|].
        unfold entry_after at 1 2 3. rewrite Hadv, Hn. simpl.
        split; [done|]. split; [lia|done].
    + destruct H as (Htab & _ & Hc).
      exists (entry_after w u d q). split; [done|].
      unfold entry_after. rewrite Hadv. simpl.
      split; [done|]. split; [done|]. split; [by apply Hbelow|done].
Qed.

Lemma index_bounded_and_completion_witness :
  exists rd s',
    process_voice_response (calm 3) sample_id "skip" 7 on_last = (s', TurnOk rd)
    /\ rd_interview_completed rd = Some true
    /\ active_interviews s' !! sample_id = None.
Proof.
  destruct (index_bounded_and_completion on_last sample_id on_last_entry
              on_last_reachable on_last_lookup) as (_ & _ & _ & _ & _ & H).
  destruct (H (calm 3) "skip" 7%Z team_question eq_refl)
    as (rd & s' & Hp & Hrest).
  assert (advances (calm 3) "skip" on_last_entry team_question
          && bool_decide (current_question_index on_last_entry + 1
                          = List.length (questions on_last_entry)) = true)
    as Hcond by reflexivity.
  rewrite Hcond in Hrest. destruct Hrest as (Hc & _ & _ & _ & _ & Htab).
  exists rd, s'. split; [exact Hp|]. split; [exact Hc|exact Htab].
Defined.

End Completion.

(** * Follow-ups and skips *)

Section CapAndSkip.
Import VoiceInterviewManager.

Lemma nudged_reachable : reachable nudged.
Proof. unfold nudged. apply reach_handle, started_reachable. Defined.

Lemma nudged_lookup : active_interviews nudged !! sample_id = Some nudged_entry.
Proof. reflexivity. Defined.

(** What an advancing turn leaves, by whether a further question exists. *)
Lemma advancing_outcome (w : World) (i u : string) (t : Z)
    (d : InterviewData) (q : Question) (s : System) :
  active_interviews s !! i = Some d ->
  questions d !! current_question_index d = Some q ->
  advances w u d q = true ->
  exists rd s',
    process_voice_response w i u t s = (s', TurnOk rd)
    /\ match questions d !! (current_question_index d + 1) with
       | Some next_question =>
           (exists d', active_interviews s' !! i = Some d'
              /\ current_question_index d' = current_question_index d + 1
              /\ follow_up_count d' = 0
              /\ questions d' = questions d)
           /\ rd_next_question rd = Some next_question
           /\ rd_question_index rd = Some (current_question_index d + 1)
           /\ rd_interview_completed rd = None
       | None =>
           rd_interview_completed rd = Some true
           /\ rd_next_question rd = None
           /\ active_interviews s' !! i
              = (if ObjectId_valid i && set_ok w then None
                 else Some (entry_after w u d q))
           /\ current_question_index (entry_after w u d q)
              = current_question_index d + 1
           /\ follow_up_count (entry_after w u d q) = 0
           /\ status (entry_after w u d q) = completed
       end.
Proof.
  intros Hd Hq Hadv.
  destruct (turn_outcome w i u t d q s Hd Hq) as (rd & s' & Hp & _ & H).
  exists rd, s'. split; [done|]. rewrite Hadv in H.
  destruct (questions d !! (current_question_index d + 1)) as [nq|] eqn:Hn.
  - destruct H as (Htab & Hnq & Hi & Hc). split; [|done].
    exists (entry_after w u d q). split; [done|].
    unfold entry_after. rewrite Hadv. done.
  - destruct H as (Hc & Hnq & _ & Htab).
    unfold entry_after at 2 3 4. rewrite Hadv, Hn. done.
Qed.

(** C2. A turn whose resolved action is encourage_elaboration,
    encourage_more or follow_up with keep-listening set adds one to the
    follow-up counter of the session. With the counter at 0 the entry stays
    in the table on its question with the counter at 1. With the counter at
    1 the sum reaches 2 and the same turn advances: the entry in the table
    is on the next question with the counter back at 0 and the answer
    carries that question, or, after the last question, the answer reports
    the completion and the entry is torn down. In reachable states the
    counter of every entry is at most 1 before and after the turn, so it
    never exceeds 2 before an advancement. *)
Theorem follow_up_cap (s : System) (interview_id : string) (d : InterviewData)
    (q : Question) (w : World) (u : string) (t : Z) :
  reachable s ->
  active_interviews s !! interview_id = Some d ->
  questions d !! current_question_index d = Some q ->
  action (resolved w u q)
    ∈ ["encourage_elaboration"; "encourage_more"; "follow_up"] ->
  continue_listening (resolved w u q) = true ->
  follow_up_count d <= 1
  /\ exists rd s',
       process_voice_response w interview_id u t s = (s', TurnOk rd)
       /\ (follow_up_count d = 0 ->
           (exists d', active_interviews s' !! interview_id = Some d'
              /\ follow_up_count d' = 1
              /\ current_question_index d' = current_question_index d
              /\ questions d' = questions d)
           /\ rd_next_question rd = None
           /\ rd_interview_completed rd = None)
       /\ (follow_up_count d = 1 ->
           match questions d !! (current_question_index d + 1) with
           | Some next_question =>
               (exists d', active_interviews s' !! interview_id = Some d'
                  /\ current_question_index d' = current_question_index d + 1
                  /\ follow_up_count d' = 0
                  /\ questions d' = questions d)
               /\ rd_next_question rd = Some next_question
               /\ rd_question_index rd = Some (current_question_index d + 1)
               /\ rd_interview_completed rd = None
           | None =>
               rd_interview_completed rd = Some true
               /\ rd_next_question rd = None
               /\ active_interviews s' !! interview_id
                  = (if set_ok w then None else Some (entry_after w u d q))
               /\ current_question_index (entry_after w u d q)
                  = current_question_index d + 1
               /\ follow_up_count (entry_after w u d q) = 0
               /\ status (entry_after w u d q) = completed
           end)
       /\ (forall d', active_interviews s' !! interview_id = Some d' ->
             follow_up_count d' <= 1).
Proof.
  intros Hr Hd Hq Ha Hc.
  destruct (reachable_table_ok s Hr _ _ Hd) as (_ & Hf & _ & Hid).
  split; [done|].
  assert (advances w u d q = (2 <=? follow_up_count d + 1)%nat) as Hadv.
  { unfold advances. by rewrite (branch_encourage _ Ha Hc). }
  destruct (turn_outcome w interview_id u t d q s Hd Hq)
    as (rd & s' & Hp & _ & H).
  exists rd, s'. split; [done|].
  split; [|split].
  - intros H0. rewrite Hadv, H0 in H. cbn in H.
    destruct H as (Htab & Hn & Hcomp). split; [|done].
    exists (entry_after w u d q). split; [done|].
    unfold entry_after. rewrite Hadv, H0, (branch_encourage _ Ha Hc). done.
  - intros H1.
    assert (advances w u d q = true) as Hadv1 by (by rewrite Hadv, H1).
    destruct (advancing_outcome w interview_id u t d q s Hd Hq Hadv1)
      as (rd2 & s2 & Hp2 & H2).
    rewrite Hp in Hp2. injection Hp2 as <- <-.
    destruct (questions d !! (current_question_index d + 1)); [done|].
    by rewrite Hid in H2.
  - intros d' Hd'.
    assert (d' = entry_after w u d q) as ->.
    { destruct (advances w u d q).
      - destruct (questions d !! (current_question_index d + 1)).
        + destruct H as (Htab & _). congruence.
        + destruct H as (_ & _ & _ & Htab). rewrite Htab in Hd'.
          destruct (_ && _); congruence.
      - destruct H as (Htab & _). congruence. }
    unfold entry_after. cbn [follow_up_count]. rewrite Hadv.
    destruct (2 <=? follow_up_count d + 1)%nat eqn:Hn; [lia|].
    apply Nat.leb_gt in Hn. rewrite (branch_encourage _ Ha Hc). lia.
Qed.

Lemma follow_up_cap_witness :
  follow_up_count nudged_entry = 1
  /\ exists rd s',
       process_voice_response (calm 3) sample_id "ok" 6 nudged = (s', TurnOk rd)
       /\ rd_next_question rd = Some team_question
       /\ exists d', active_interviews s' !! sample_id = Some d'
            /\ current_question_index d' = 1
            /\ follow_up_count d' = 0.
Proof.
  split; [reflexivity|].
  assert (action (resolved (calm 3) "ok" hash_question)
            ∈ ["encourage_elaboration"; "encourage_more"; "follow_up"]) as Ha.
  { apply list_elem_of_In. simpl. left. reflexivity. }
  destruct (follow_up_cap nudged sample_id nudged_entry hash_question
              (calm 3) "ok" 6 nudged_reachable nudged_lookup eq_refl Ha
              eq_refl) as (_ & rd & s' & Hp & _ & H1 & _).
  exists rd, s'. split; [exact Hp|].
  destruct (H1 eq_refl) as ((d' & Hd' & Hi & Hf & _) & Hn & _).
  split; [exact Hn|]. exists d'. split; [exact Hd'|]. split; [exact Hi|exact Hf].
Defined.

(** C3. A turn whose resolved action is skip_question advances the session
    by exactly one question whatever its follow-up counter was: the entry in
    the table is on the next question with the counter at 0 and the answer
    carries that question and its index, or, after the last question, the
    answer reports the completion and the entry, with the index one further
    and the counter at 0, is torn down. No response record is appended to
    any stored session. *)
Theorem skip_advances (s : System) (interview_id : string) (d : InterviewData)
    (q : Question) (w : World) (u : string) (t : Z) :
  active_interviews s !! interview_id = Some d ->
  questions d !! current_question_index d = Some q ->
  action (resolved w u q) = "skip_question" ->
  exists rd s',
    process_voice_response w interview_id u t s = (s', TurnOk rd)
    /\ match questions d !! (current_question_index d + 1) with
       | Some next_question =>
           (exists d', active_interviews s' !! interview_id = Some d'
              /\ current_question_index d' = current_question_index d + 1
              /\ follow_up_count d' = 0
              /\ questions d' = questions d)
           /\ rd_next_question rd = Some next_question
           /\ rd_question_index rd = Some (current_question_index d + 1)
           /\ rd_interview_completed rd = None
       | None =>
           rd_interview_completed rd = Some true
           /\ rd_next_question rd = None
           /\ active_interviews s' !! interview_id
              = (if ObjectId_valid interview_id && set_ok w then None
                 else Some (entry_after w u d q))
           /\ current_question_index (entry_after w u d q)
              = current_question_index d + 1
           /\ follow_up_count (entry_after w u d q) = 0
           /\ status (entry_after w u d q) = completed
       end
    /\ (forall k, doc_responses <$> db s' !! k = doc_responses <$> db s !! k).
Proof.
  intros Hd Hq Ha.
  assert (advances w u d q = true) as Hadv.
  { unfold advances. by rewrite (branch_skip _ Ha). }
  destruct (advancing_outcome w interview_id u t d q s Hd Hq Hadv)
    as (rd & s' & Hp & H).
  exists rd, s'. split; [done|]. split; [done|].
  intros k. rewrite (pvr_unfold w interview_id u t d q s Hd Hq) in Hp.
  pose proof (turn_spec w interview_id u t d q s) as Hs.
  destruct (process_turn w interview_id u t d q s) as [[d1 rd1] s1].
  cbn [fst snd] in Hp. injection Hp as <- _.
  destruct Hs as (_ & Hs). rewrite Hadv in Hs.
  unfold store_before_move in Hs. rewrite (branch_skip _ Ha) in Hs.
  destruct Hs as (_ & _ & Hs).
  destruct (questions d !! (current_question_index d + 1)).
  - destruct Hs as (_ & _ & _ & _ & ->). done.
  - destruct Hs as (_ & _ & _ & _ & ->). by rewrite complete_db_responses.
Qed.

Lemma skip_advances_witness :
  follow_up_count nudged_entry = 1
  /\ exists rd s',
       process_voice_response (calm 3) sample_id "skip" 6 nudged
       = (s', TurnOk rd)
       /\ rd_question_index rd = Some 1
       /\ exists d', active_interviews s' !! sample_id = Some d'
            /\ current_question_index d' = 1
            /\ follow_up_count d' = 0.
Proof.
  split; [reflexivity|].
  destruct (skip_advances nudged sample_id nudged_entry hash_question
              (calm 3) "skip" 6 nudged_lookup eq_refl eq_refl)
    as (rd & s' & Hp & H & _).
  exists rd, s'. split; [exact Hp|].
  destruct H as ((d' & Hd' & Hi & Hf & _) & _ & Hq & _).
  split; [exact Hq|]. exists d'. split; [exact Hd'|]. split; [exact Hi|exact Hf].
Defined.

End CapAndSkip.

(** * Turns that do not advance *)

Section Unbounded.
Import VoiceInterviewManager.

(** What a turn that stays on its question leaves. *)
Lemma staying_outcome (w : World) (i u : string) (t : Z)
    (d : InterviewData) (q : Question) (s : System) :
  active_interviews s !! i = Some d ->
  questions d !! current_question_index d = Some q ->
  advances w u d q = false ->
  exists rd s',
    process_voice_response w i u t s = (s', TurnOk rd)
    /\ (exists d', active_interviews s' !! i = Some d'
          /\ current_question_index d' = current_question_index d
          /\ follow_up_count d'
             = match branch (resolved w u q) with
               | BEncourage => follow_up_count d + 1
               | _ => follow_up_count d
               end
          /\ status d' = status d
          /\ questions d' = questions d
          /\ List.length (conversation d') = List.length (conversation d) + 2)
    /\ rd_next_question rd = None
    /\ rd_interview_completed rd = None.
Proof.
  intros Hd Hq Hadv.
  destruct (turn_outcome w i u t d q s Hd Hq) as (rd & s' & Hp & _ & H).
  exists rd, s'. split; [done|]. rewrite Hadv in H.
  destruct H as (Htab & Hn & Hc). split; [|done].
  exists (entry_after w u d q). split; [done|].
  unfold entry_after, turn_events. rewrite Hadv. cbn.
  repeat split. rewrite length_app. simpl. lia.
Qed.

Lemma repeat_stays (d : InterviewData) (q : Question) :
  advances (calm 2) "can you repeat that?" d q = false
  /\ branch (resolved (calm 2) "can you repeat that?" q) = BMeta.
Proof.
  assert (branch (resolved (calm 2) "can you repeat that?" q) = BMeta) as Hb.
  { apply branch_meta. apply list_elem_of_In. left. reflexivity. }
  split; [|done]. unfold advances. by rewrite Hb.
Qed.

Lemma repeat_keeps_place (s : System) (d : InterviewData) :
  active_interviews s !! sample_id = Some d ->
  current_question_index d < List.length (questions d) ->
  exists d',
    active_interviews
      (handle (calm 2) (ReqVoiceResponse sample_id "can you repeat that?" 5) s)
      !! sample_id = Some d'
    /\ current_question_index d' = current_question_index d
    /\ follow_up_count d' = follow_up_count d
    /\ status d' = status d
    /\ questions d' = questions d
    /\ List.length (conversation d') = List.length (conversation d) + 2
    /\ responses_of
         (handle (calm 2) (ReqVoiceResponse sample_id "can you repeat that?" 5) s)
         sample_id = responses_of s sample_id.
Proof.
  intros Hd Hlt. destruct (lookup_lt_is_Some_2 _ _ Hlt) as [q Hq].
  destruct (repeat_stays d q) as [Hadv Hb].
  destruct (staying_outcome (calm 2) sample_id "can you repeat that?" 5 d q s
              Hd Hq Hadv) as (rd & s' & Hp & (d' & Hd' & Hi & Hf & Hst & Hqs & Hl) & _).
  assert (handle (calm 2)
            (ReqVoiceResponse sample_id "can you repeat that?" 5) s = s') as Hh.
  { cbn [handle]. unfold Routes.process_voice_response.
    change (Py.falsy (Py.strip "can you repeat that?")) with false. cbv iota.
    by rewrite Hp. }
  exists d'. rewrite Hb in Hf. rewrite <- Hh in Hd'.
  repeat split; try done.
  unfold responses_of. rewrite handle_responses.
  unfold pushed. rewrite bool_decide_eq_true_2 by done.
  unfold saved. rewrite bool_decide_eq_true_2 by done.
  change (Py.falsy (Py.strip "can you repeat that?")) with false.
  cbn [negb andb]. by rewrite Hd, Hq, Hb.
Qed.

Lemma stalled_keeps_place (n : nat) (s : System) (d : InterviewData) :
  active_interviews s !! sample_id = Some d ->
  current_question_index d < List.length (questions d) ->
  exists d',
    active_interviews
      (run (replicate n
              (calm 2, ReqVoiceResponse sample_id "can you repeat that?" 5)) s)
      !! sample_id = Some d'
    /\ current_question_index d' = current_question_index d
    /\ follow_up_count d' = follow_up_count d
    /\ status d' = status d
    /\ questions d' = questions d
    /\ List.length (conversation d') = List.length (conversation d) + 2 * n
    /\ responses_of
         (run (replicate n
                 (calm 2, ReqVoiceResponse sample_id "can you repeat that?" 5))
            s) sample_id = responses_of s sample_id.
Proof.
  revert s d. induction n as [|n IH]; intros s d Hd Hlt.
  { exists d. repeat split; try done; simpl; lia. }
  destruct (repeat_keeps_place s d Hd Hlt)
    as (d1 & Hd1 & Hi1 & Hf1 & Hs1 & Hq1 & Hl1 & Hr1).
  cbn [replicate run].
  destruct (IH _ d1 Hd1) as (d' & Hd' & Hi' & Hf' & Hs' & Hq' & Hl' & Hr');
    [rewrite Hi1, Hq1; lia|].
  exists d'. split; [done|]. split; [congruence|]. split; [congruence|].
  split; [congruence|]. split; [congruence|]. split; [lia|].
  by rewrite Hr'.
Qed.

(** C6, as stated, fails: no number of turns forces an advancement. For
    every [n], after [n] requests to repeat the question, each of them a
    processed turn that adds its two events to the transcript, the session
    is still active on its first question with the follow-up counter at 0
    and no response stored; so no bound exists on the number of turns after
    which the session is still active on its first question. *)
Lemma stalling_is_unbounded :
  (forall n, exists d,
     active_interviews (stalled n) !! sample_id = Some d
     /\ current_question_index d = 0
     /\ List.length (questions d) = 2
     /\ status d = active
     /\ follow_up_count d = 0
     /\ List.length (conversation d) = 1 + 2 * n
     /\ responses_of (stalled n) sample_id = Some [])
  /\ ~ (exists bound, forall n d,
          active_interviews (stalled n) !! sample_id = Some d ->
          current_question_index d = 0 ->
          status d = active ->
          n <= bound).
Proof.
  assert (forall n, exists d,
            active_interviews (stalled n) !! sample_id = Some d
            /\ current_question_index d = 0
            /\ List.length (questions d) = 2
            /\ status d = active
            /\ follow_up_count d = 0
            /\ List.length (conversation d) = 1 + 2 * n
            /\ responses_of (stalled n) sample_id = Some []) as Hall.
  { intros n.
    destruct (stalled_keeps_place n started started_entry started_lookup)
      as (d & Hd & Hi & Hf & Hs & Hq & Hl & Hr); [simpl; lia|].
    exists d. split; [exact Hd|].
    rewrite Hi, Hf, Hs, Hq, Hl. unfold stalled. rewrite Hr. by repeat split. }
  split; [exact Hall|].
  intros [bound Hb].
  destruct (Hall (S bound)) as (d & Hd & Hi & _ & Hs & _).
  specialize (Hb (S bound) d Hd Hi Hs). lia.
Qed.

(** C6, amended. The cap bounds the encouraging turns only. A turn whose
    action is encourage_elaboration, encourage_more or follow_up with
    keep-listening set leaves the entry on its question with the counter at
    1 when the counter was 0, and advances when the counter was 1: the entry
    in the table is then on the next question with the counter at 0, or,
    after the last question, the completion is reported and the entry torn
    down. A turn whose action is repeat_question, clarify_question,
    provide_example or adjust_pace, and a turn with keep-listening set whose
    action is none of the ten the dispatch names (provide_feedback, the
    fallback's answer to a short or unsure utterance, is one), leaves the
    entry in the table with the question index, the counter and the status
    as they were, and stores no response. *)
Theorem cap_bounds_encouragement_only (s : System) (interview_id : string)
    (d : InterviewData) (q : Question) (w : World) (u : string) (t : Z) :
  reachable s ->
  active_interviews s !! interview_id = Some d ->
  questions d !! current_question_index d = Some q ->
  let r := resolved w u q in
  exists rd s',
    process_voice_response w interview_id u t s = (s', TurnOk rd)
    /\ (action r ∈ ["encourage_elaboration"; "encourage_more"; "follow_up"] ->
        continue_listening r = true ->
        (follow_up_count d = 0
         /\ exists d', active_interviews s' !! interview_id = Some d'
              /\ follow_up_count d' = 1
              /\ current_question_index d' = current_question_index d)
        \/ (follow_up_count d = 1
            /\ match questions d !! (current_question_index d + 1) with
               | Some next_question =>
                   (exists d', active_interviews s' !! interview_id = Some d'
                      /\ current_question_index d'
                         = current_question_index d + 1
                      /\ follow_up_count d' = 0
                      /\ questions d' = questions d)
                   /\ rd_next_question rd = Some next_question
                   /\ rd_question_index rd = Some (current_question_index d + 1)
                   /\ rd_interview_completed rd = None
               | None =>
                   rd_interview_completed rd = Some true
                   /\ rd_next_question rd = None
                   /\ active_interviews s' !! interview_id
                      = (if set_ok w then None
                         else Some (entry_after w u d q))
                   /\ current_question_index (entry_after w u d q)
                      = current_question_index d + 1
                   /\ follow_up_count (entry_after w u d q) = 0
                   /\ status (entry_after w u d q) = completed
               end))
    /\ (action r ∈ ["repeat_question"; "clarify_question"; "provide_example";
                    "adjust_pace"]
        \/ ((action r ∉ all_actions) /\ continue_listening r = true) ->
        (exists d', active_interviews s' !! interview_id = Some d'
           /\ current_question_index d' = current_question_index d
           /\ follow_up_count d' = follow_up_count d
           /\ status d' = status d
           /\ questions d' = questions d)
        /\ rd_next_question rd = None
        /\ rd_interview_completed rd = None
        /\ (forall k, doc_responses <$> db s' !! k = doc_responses <$> db s !! k)).
Proof.
  intros Hr Hd Hq r.
  destruct (reachable_table_ok s Hr _ _ Hd) as (_ & Hf & _ & Hid).
  destruct (turn_outcome w interview_id u t d q s Hd Hq)
    as (rd & s' & Hp & _ & H).
  exists rd, s'. split; [done|]. split.
  - intros Ha Hc.
    assert (advances w u d q = (2 <=? follow_up_count d + 1)%nat) as Hadv.
    { unfold advances. fold r. by rewrite (branch_encourage _ Ha Hc). }
    destruct (decide (follow_up_count d = 0)) as [H0|H0].
    + left. split; [done|].
      destruct (staying_outcome w interview_id u t d q s Hd Hq)
        as (rd2 & s2 & Hp2 & (d' & Hd' & Hi & Hf' & _) & _);
        [by rewrite Hadv, H0|].
      rewrite Hp in Hp2. injection Hp2 as <- <-.
      exists d'. split; [done|]. fold r in Hf'.
      rewrite (branch_encourage _ Ha Hc) in Hf'. split; [lia|done].
    + right. split; [lia|].
      assert (advances w u d q = true) as Hadv1.
      { rewrite Hadv. apply Nat.leb_le. lia. }
      destruct (advancing_outcome w interview_id u t d q s Hd Hq Hadv1)
        as (rd2 & s2 & Hp2 & H2).
      rewrite Hp in Hp2. injection Hp2 as <- <-.
      destruct (questions d !! (current_question_index d + 1)); [done|].
      by rewrite Hid in H2.
  - intros Hstay.
    assert (branch r = BMeta \/ branch r = BOther) as Hb.
    { destruct Hstay as [Ha|[Ha Hc]];
        [left; by apply branch_meta|right; by apply branch_other]. }
    assert (advances w u d q = false) as Hadv.
    { unfold advances. fold r. by destruct Hb as [-> | ->]. }
    destruct (staying_outcome w interview_id u t d q s Hd Hq Hadv)
      as (rd2 & s2 & Hp2 & (d' & Hd' & Hi & Hf' & Hst & Hqs & _) & Hn & Hc).
    rewrite Hp in Hp2. injection Hp2 as <- <-.
    split; [|split; [done|split; [done|]]].
    + exists d'. split; [done|]. split; [done|]. split; [|done].
      fold r in Hf'. by destruct Hb as [Hb|Hb]; rewrite Hb in Hf'.
    + intros k.
      rewrite (pvr_unfold w interview_id u t d q s Hd Hq) in Hp.
      pose proof (turn_spec w interview_id u t d q s) as Hs.
      destruct (process_turn w interview_id u t d q s) as [[d1 rd1] s1].
      cbn [fst snd] in Hp. injection Hp as <- _.
      destruct Hs as (_ & Hs). rewrite Hadv in Hs.
      by destruct Hs as (_ & _ & _ & _ & _ & ->).
Qed.

Lemma cap_bounds_encouragement_only_witness :
  exists rd s',
    process_voice_response (calm 2) sample_id "can you repeat that?" 5 started
    = (s', TurnOk rd)
    /\ exists d', active_interviews s' !! sample_id = Some d'
         /\ current_question_index d' = 0
         /\ follow_up_count d' = 0.
Proof.
  destruct (cap_bounds_encouragement_only started sample_id started_entry
              hash_question (calm 2) "can you repeat that?" 5
              started_reachable started_lookup eq_refl)
    as (rd & s' & Hp & _ & H).
  exists rd, s'. split; [exact Hp|].
  destruct H as ((d' & Hd' & Hi & Hf & _) & _).
  { left. apply list_elem_of_In. left. reflexivity. }
  exists d'. split; [exact Hd'|]. split; [exact Hi|exact Hf].
Defined.

End Unbounded.

(** * Starting a session that has no questions *)

Section EmptyStart.
Import VoiceInterviewManager.




End EmptyStart.
